(** * OKX market-intensity trader: a shallow embedding and its properties

    The Python sources modelled here are [MarketDataFetcher.py],
    [OkxSimulatedTrade.py], [StatusChecker.py], [CalculateMarkerIntensity.py]
    and [MarketIntensityTrade.py].  Python values that
    travel through [json.loads] are modelled by the type [value]; the
    Python operations used on them ([.get], indexing, [len], [in],
    truthiness) are modelled with the exceptions they raise. *)

From Stdlib Require QArith.
From Stdlib Require Import ZArith String Ascii List Lia.
From stdpp Require Import base option list strings gmap.

Set Warnings "-register-all".

Local Open Scope string_scope.
Local Open Scope Z_scope.
Local Open Scope list_scope.

(** ** Python values and exceptions *)

Module Py.

(** The exception classes that the modelled code can meet.  All of them
    are subclasses of [Exception]; [RequestException] stands for the
    whole [requests.RequestException] family and [ConnectionClosed] for
    [websockets.exceptions.ConnectionClosed]. *)
Inductive exn : Type :=
| KeyError | IndexError | TypeError | AttributeError
| JSONDecodeError | RequestException | ConnectionClosed | OSError.

(** What [json.loads] produces.  [JNull] is Python's [None]; a number is
    kept as an integer, which is enough for the truth tests the code does
    on it; an object is the list of its bindings, keys distinct. *)
Inductive value : Type :=
| JNull
| JBool (b : bool)
| JNum (z : Z)
| JStr (s : string)
| JArr (l : list value)
| JObj (kv : list (string * value)).

(** A Python expression either raises or yields a result. *)
Definition res (A : Type) : Type := exn + A.

Definition ok {A} (a : A) : res A := inr a.
Definition throw {A} (e : exn) : res A := inl e.

Definition rbind {A B} (m : res A) (k : A -> res B) : res B :=
  match m with
  | inl e => inl e
  | inr a => k a
  end.

Notation "'let?' x ':=' m 'in' k" := (rbind m (fun x => k))
  (at level 10, x name, m at level 100, k at level 200).

(** [a and b]: the right operand is evaluated only when the left one is
    true. *)
Definition rand (a b : res bool) : res bool :=
  let? c := a in if c then b else ok false.

Fixpoint dict_get (kv : list (string * value)) (k : string) : option value :=
  match kv with
  | [] => None
  | (k', v) :: kv' => if String.eqb k' k then Some v else dict_get kv' k
  end.

(** [s in t] for two strings. *)
Fixpoint contains (needle hay : string) : bool :=
  String.prefix needle hay ||
  match hay with
  | EmptyString => false
  | String _ hay' => contains needle hay'
  end.

(** [v == s] where [s] is a string literal. *)
Definition eq_str (v : value) (s : string) : bool :=
  match v with
  | JStr s' => String.eqb s' s
  | _ => false
  end.

(** [bool(v)] *)
Definition truthy (v : value) : bool :=
  match v with
  | JNull => false
  | JBool b => b
  | JNum z => negb (z =? 0)
  | JStr s => negb (String.eqb s "")
  | JArr l => match l with [] => false | _ => true end
  | JObj kv => match kv with [] => false | _ => true end
  end.

(** [v.get(k, default)]: only a dict has the method. *)
Definition get (v : value) (k : string) (default : value) : res value :=
  match v with
  | JObj kv => ok (match dict_get kv k with
                   | Some x => x
                   | None => default
                   end)
  | _ => throw AttributeError
  end.

(** [v[k]] with a string key. *)
Definition getitem (v : value) (k : string) : res value :=
  match v with
  | JObj kv => match dict_get kv k with
               | Some x => ok x
               | None => throw KeyError
               end
  | _ => throw TypeError
  end.

(** [v[i]] with a non-negative integer index. *)
Definition index (v : value) (i : nat) : res value :=
  match v with
  | JArr l => match l !! i with
              | Some x => ok x
              | None => throw IndexError
              end
  | JStr s => match String.get i s with
              | Some c => ok (JStr (String c EmptyString))
              | None => throw IndexError
              end
  | JObj _ => throw KeyError
  | _ => throw TypeError
  end.

(** [len(v)] *)
Definition len (v : value) : res Z :=
  match v with
  | JStr s => ok (Z.of_nat (String.length s))
  | JArr l => ok (Z.of_nat (List.length l))
  | JObj kv => ok (Z.of_nat (List.length kv))
  | _ => throw TypeError
  end.

(** [s in v] where [s] is a string literal: substring of a string,
    element of a list, key of a dict. *)
Definition str_in (s : string) (v : value) : res bool :=
  match v with
  | JStr t => ok (contains s t)
  | JArr l => ok (existsb (fun x => eq_str x s) l)
  | JObj kv => ok (bool_decide (is_Some (dict_get kv s)))
  | _ => throw TypeError
  end.

(** [for x in v]: the sequence that the loop walks through. *)
Definition iter (v : value) : res (list value) :=
  match v with
  | JArr l => ok l
  | JObj kv => ok (map (fun p => JStr (fst p)) kv)
  | JStr s => ok (map (fun c => JStr (String c EmptyString)) (list_ascii_of_string s))
  | _ => throw TypeError
  end.

End Py.

Import Py.

(** ** Cooperative tasks

    An [async def] is a state transformer over the object it is a method
    of, extended with the trace of what it did to the outside world.  A
    task that awaits something the environment has not supplied yet is
    [Blocked]: it has not completed, so no [except] or [finally] clause has
    run for it. *)

Module Task.

Inductive level : Type := INFO | WARNING | ERROR.

(** A frame as it comes off a WebSocket: text that [json.loads] accepts,
    or text that it rejects. *)
Inductive frame : Type :=
| Text (v : value)
| Garbage.

Definition json_loads (f : frame) : res value :=
  match f with
  | Text v => ok v
  | Garbage => throw JSONDecodeError
  end.

(** What a task does that can be seen from outside, in order. *)
Inductive event : Type :=
| EConnect                              (* websockets.connect(base_url) *)
| ESend (m : value)                     (* websocket.send(json.dumps(m)) *)
| ERecv (f : frame)                     (* websocket.recv() returned f *)
| ESleep (n : Z)                        (* asyncio.sleep(n) *)
| EHttpGet (inst_id cl_ord_id : string) (* requests.get(url, params) *)
| EPrint (msg : string)                 (* print(...) *)
| ELog (l : level) (msg : string).      (* self.logger.<l>(...) *)

Inductive outcome (A : Type) : Type :=
| Returned (a : A)
| Raised (e : exn)
| Blocked.
Arguments Returned {A} a.
Arguments Raised {A} e.
Arguments Blocked {A}.

Record st (S : Type) : Type := St { self : S; trace : list event }.
Arguments St {S} self trace.
Arguments self {S} s.
Arguments trace {S} s.

Definition task (S A : Type) : Type := st S -> outcome A * st S.

Section Ops.
Context {S : Type}.

Definition ret {A} (a : A) : task S A := fun s => (Returned a, s).

Definition raise {A} (e : exn) : task S A := fun s => (Raised e, s).

Definition block {A} : task S A := fun s => (Blocked, s).

Definition bind {A B} (m : task S A) (k : A -> task S B) : task S B :=
  fun s =>
    match m s with
    | (Returned a, s') => k a s'
    | (Raised e, s') => (Raised e, s')
    | (Blocked, s') => (Blocked, s')
    end.

(** A Python expression evaluated inside a task. *)
Definition lift {A} (r : res A) : task S A :=
  match r with
  | inl e => raise e
  | inr a => ret a
  end.

Definition gets {A} (f : S -> A) : task S A :=
  fun s => (Returned (f (self s)), s).

Definition modify (f : S -> S) : task S unit :=
  fun s => (Returned tt, St (f (self s)) (trace s)).

Definition emit (e : event) : task S unit :=
  fun s => (Returned tt, St (self s) (trace s ++ [e])).

(** [try: body except Exception as e: handler e] *)
Definition try_except {A} (body : task S A) (handler : exn -> task S A)
  : task S A :=
  fun s =>
    match body s with
    | (Raised e, s') => handler e s'
    | r => r
    end.

(** [try: body finally: fin] *)
Definition try_finally {A} (body : task S A) (fin : task S unit)
  : task S A :=
  fun s =>
    match body s with
    | (Blocked, s') => (Blocked, s')
    | (r, s') =>
        match fin s' with
        | (Returned _, s'') => (r, s'')
        | (Raised e, s'') => (Raised e, s'')
        | (Blocked, s'') => (Blocked, s'')
        end
    end.

End Ops.

Notation "'do' x '<-' m ';' k" := (bind m (fun x => k))
  (at level 10, x name, m at level 100, k at level 200).
Notation "m ';;' k" := (bind m (fun _ => k))
  (at level 100, k at level 200, right associativity).

(** [for x in xs: body x] *)
Fixpoint for_each {S A} (xs : list A) (body : A -> task S unit) : task S unit :=
  match xs with
  | [] => ret tt
  | x :: xs' => body x ;; for_each xs' body
  end.

(** A WebSocket object, or the attribute still holding [None]. *)
Inductive socket : Type := Open | Closed.

(** [await ws.send(json.dumps(m))] *)
Definition send {S} (ws : option socket) (m : value) : task S unit :=
  match ws with
  | None => raise AttributeError
  | Some Closed => raise ConnectionClosed
  | Some Open => emit (ESend m)
  end.

End Task.

Import Task.

(** ** hashlib, hmac and base64

    The three library functions that the signing code calls, on byte
    strings.  A byte is an integer in [0, 256), a word a 32-bit integer
    held in [Z] with its wrap-around written out. *)

Module Hashlib.

(** [s.encode()] for a string of ASCII characters. *)
Definition encode (s : string) : list Z :=
  map (fun a => Z.of_N (N_of_ascii a)) (list_ascii_of_string s).

(** [bytes.decode()] *)
Definition decode (bs : list Z) : string :=
  string_of_list_ascii (map (fun b => ascii_of_N (Z.to_N b)) bs).

Definition mask32 : Z := 4294967295.

Definition add32 (x y : Z) : Z := (x + y) mod 4294967296.

Definition rotr (n x : Z) : Z :=
  Z.lor (Z.shiftr x n) (Z.land (Z.shiftl x (32 - n)) mask32).

Definition ch (x y z : Z) : Z :=
  Z.lxor (Z.land x y) (Z.land (Z.lxor x mask32) z).

Definition maj (x y z : Z) : Z :=
  Z.lxor (Z.lxor (Z.land x y) (Z.land x z)) (Z.land y z).

Definition big_sigma0 (x : Z) : Z :=
  Z.lxor (Z.lxor (rotr 2 x) (rotr 13 x)) (rotr 22 x).

Definition big_sigma1 (x : Z) : Z :=
  Z.lxor (Z.lxor (rotr 6 x) (rotr 11 x)) (rotr 25 x).

Definition small_sigma0 (x : Z) : Z :=
  Z.lxor (Z.lxor (rotr 7 x) (rotr 18 x)) (Z.shiftr x 3).

Definition small_sigma1 (x : Z) : Z :=
  Z.lxor (Z.lxor (rotr 17 x) (rotr 19 x)) (Z.shiftr x 10).

Definition round_constants : list Z :=
  [
   1116352408; 1899447441; 3049323471; 3921009573; 961987163; 1508970993;
   2453635748; 2870763221; 3624381080; 310598401; 607225278; 1426881987;
   1925078388; 2162078206; 2614888103; 3248222580; 3835390401; 4022224774;
   264347078; 604807628; 770255983; 1249150122; 1555081692; 1996064986;
   2554220882; 2821834349; 2952996808; 3210313671; 3336571891; 3584528711;
   113926993; 338241895; 666307205; 773529912; 1294757372; 1396182291;
   1695183700; 1986661051; 2177026350; 2456956037; 2730485921; 2820302411;
   3259730800; 3345764771; 3516065817; 3600352804; 4094571909; 275423344;
   430227734; 506948616; 659060556; 883997877; 958139571; 1322822218;
   1537002063; 1747873779; 1955562222; 2024104815; 2227730452; 2361852424;
   2428436474; 2756734187; 3204031479; 3329325298].

Definition initial_hash : list Z :=
  [
   1779033703; 3144134277; 1013904242; 2773480762;
   1359893119; 2600822924; 528734635; 1541459225].

(** A 64-bit length, and a 32-bit word, as big-endian bytes. *)
Definition be_bytes (n : nat) (x : Z) : list Z :=
  map (fun i => Z.land (Z.shiftr x (8 * Z.of_nat (n - 1 - i))) 255) (seq 0 n).

Definition be_word (bs : list Z) : Z :=
  fold_left (fun acc b => acc * 256 + b) bs 0.

(** The message, a 1 bit, zeros up to 56 modulo 64, and the bit length. *)
Definition pad (msg : list Z) : list Z :=
  let len := Z.of_nat (length msg) in
  msg ++ [128] ++ repeat 0 (Z.to_nat ((55 - len) mod 64)) ++ be_bytes 8 (8 * len).

(** Cuts a list into pieces of [n] elements. *)
Fixpoint chunks {A} (pieces n : nat) (l : list A) : list (list A) :=
  match pieces with
  | O => []
  | S pieces' => firstn n l :: chunks pieces' n (skipn n l)
  end.

(** The 64 words of the message schedule of one block. *)
Fixpoint extend (rounds : nat) (w : list Z) : list Z :=
  match rounds with
  | O => w
  | S rounds' =>
      let t := length w in
      let at_ (k : nat) := nth (t - k) w 0 in
      extend rounds'
        (w ++ [add32 (add32 (small_sigma1 (at_ 2%nat)) (at_ 7%nat))
                     (add32 (small_sigma0 (at_ 15%nat)) (at_ 16%nat))])
  end.

Definition schedule (block : list Z) : list Z :=
  extend 48 (map be_word (chunks 16 4 block)).

(** One round on the eight working variables. *)
Definition round (v : list Z) (kw : Z * Z) : list Z :=
  match v with
  | [a; b; c; d; e; f; g; h] =>
      let t1 := add32 (add32 (add32 h (big_sigma1 e)) (ch e f g))
                      (add32 (fst kw) (snd kw)) in
      let t2 := add32 (big_sigma0 a) (maj a b c) in
      [add32 t1 t2; a; b; c; add32 d t1; e; f; g]
  | _ => v
  end.

Definition compress (h : list Z) (block : list Z) : list Z :=
  let v := fold_left round (combine round_constants (schedule block)) h in
  map (fun p => add32 (fst p) (snd p)) (combine h v).

(** [hashlib.sha256(msg).digest()] *)
Definition sha256 (msg : list Z) : list Z :=
  let padded := pad msg in
  let blocks := chunks (length padded / 64) 64 padded in
  flat_map (be_bytes 4) (fold_left compress blocks initial_hash).

(** [hmac.new(key, msg, hashlib.sha256).digest()] *)
Definition hmac_sha256 (key msg : list Z) : list Z :=
  let key' := if (64 <? Z.of_nat (length key)) then sha256 key else key in
  let block := key' ++ repeat 0 (64 - length key') in
  let ipad := map (fun b => Z.lxor b 54) block in
  let opad := map (fun b => Z.lxor b 92) block in
  sha256 (opad ++ sha256 (ipad ++ msg)).

Definition base64_alphabet : string :=
  "ABCDEFGHIJKLMNOPQRSTUVWXYZabcdefghijklmnopqrstuvwxyz0123456789+/".

Definition base64_char (i : Z) : Z :=
  match String.get (Z.to_nat i) base64_alphabet with
  | Some c => Z.of_N (N_of_ascii c)
  | None => 61
  end.

(** Three bytes, of which [n] are data, as four characters. *)
Definition base64_group (n : nat) (b0 b1 b2 : Z) : list Z :=
  let x := b0 * 65536 + b1 * 256 + b2 in
  [base64_char (Z.shiftr x 18);
   base64_char (Z.land (Z.shiftr x 12) 63);
   if (2 <=? n)%nat then base64_char (Z.land (Z.shiftr x 6) 63) else 61;
   if (3 <=? n)%nat then base64_char (Z.land x 63) else 61].

(** [base64.b64encode(bs)] *)
Fixpoint b64encode (bs : list Z) : list Z :=
  match bs with
  | [] => []
  | [b0] => base64_group 1 b0 0 0
  | [b0; b1] => base64_group 2 b0 b1 0
  | b0 :: b1 :: b2 :: rest => base64_group 3 b0 b1 b2 ++ b64encode rest
  end.

(** [str.upper()] for a string of ASCII characters. *)
Definition upper_char (a : ascii) : ascii :=
  let n := N_of_ascii a in
  if ((97 <=? n) && (n <=? 122))%N then ascii_of_N (n - 32) else a.

Definition upper (s : string) : string :=
  string_of_list_ascii (map upper_char (list_ascii_of_string s)).

End Hashlib.

(** ** MarketDataFetcher.py *)

Module MarketDataFetcher.

(** The attributes of a [MarketDataFetch] object.  [max_messages] is
    [None] when no cap is configured. *)
Record MarketDataFetch : Type := {
  instId : string;
  data_deque : list value;
  order_book_data : value;
  max_messages : option Z;
  message_count : Z;
  stop_flag : bool;
  public_websocket : option socket;
  trade_queue : list value;
  order_book_deque : list value
}.

(** [__init__] *)
Definition init (symbol : string) (max_messages : option Z) : MarketDataFetch :=
  {| instId := symbol;
     data_deque := [];
     order_book_data := JObj [];
     max_messages := max_messages;
     message_count := 0;
     stop_flag := false;
     public_websocket := None;
     trade_queue := [];
     order_book_deque := [] |}.

Definition set_data_deque x (f : MarketDataFetch) :=
  {| instId := instId f; data_deque := x;
     order_book_data := order_book_data f; max_messages := max_messages f;
     message_count := message_count f; stop_flag := stop_flag f;
     public_websocket := public_websocket f; trade_queue := trade_queue f;
     order_book_deque := order_book_deque f |}.

Definition set_order_book_data x (f : MarketDataFetch) :=
  {| instId := instId f; data_deque := data_deque f;
     order_book_data := x; max_messages := max_messages f;
     message_count := message_count f; stop_flag := stop_flag f;
     public_websocket := public_websocket f; trade_queue := trade_queue f;
     order_book_deque := order_book_deque f |}.

Definition set_message_count x (f : MarketDataFetch) :=
  {| instId := instId f; data_deque := data_deque f;
     order_book_data := order_book_data f; max_messages := max_messages f;
     message_count := x; stop_flag := stop_flag f;
     public_websocket := public_websocket f; trade_queue := trade_queue f;
     order_book_deque := order_book_deque f |}.

Definition set_stop_flag x (f : MarketDataFetch) :=
  {| instId := instId f; data_deque := data_deque f;
     order_book_data := order_book_data f; max_messages := max_messages f;
     message_count := message_count f; stop_flag := x;
     public_websocket := public_websocket f; trade_queue := trade_queue f;
     order_book_deque := order_book_deque f |}.

Definition set_public_websocket x (f : MarketDataFetch) :=
  {| instId := instId f; data_deque := data_deque f;
     order_book_data := order_book_data f; max_messages := max_messages f;
     message_count := message_count f; stop_flag := stop_flag f;
     public_websocket := x; trade_queue := trade_queue f;
     order_book_deque := order_book_deque f |}.

Definition set_trade_queue x (f : MarketDataFetch) :=
  {| instId := instId f; data_deque := data_deque f;
     order_book_data := order_book_data f; max_messages := max_messages f;
     message_count := message_count f; stop_flag := stop_flag f;
     public_websocket := public_websocket f; trade_queue := x;
     order_book_deque := order_book_deque f |}.

Definition set_order_book_deque x (f : MarketDataFetch) :=
  {| instId := instId f; data_deque := data_deque f;
     order_book_data := order_book_data f; max_messages := max_messages f;
     message_count := message_count f; stop_flag := stop_flag f;
     public_websocket := public_websocket f; trade_queue := trade_queue f;
     order_book_deque := x |}.

(** *** Price lookups

    The three accessors have one shape:
<<
    if self.order_book_deque:
        latest = self.order_book_deque[-1]
        if "bids" in latest and len(latest["bids"]) >= n:
            return latest["bids"][i][0]
        return None
>>
    and differ in the two constants [n] and [i].  Falling off the end of
    the outer [if] returns [None] as well. *)
Definition latest_bid_price (n : Z) (i : nat) (self : MarketDataFetch)
  : res value :=
  match last (order_book_deque self) with
  | None => ok JNull
  | Some latest =>
      let? deep_enough :=
        rand (str_in "bids" latest)
             (let? bids := getitem latest "bids" in
              let? k := len bids in
              ok (n <=? k)) in
      if deep_enough then
        let? bids := getitem latest "bids" in
        let? lvl := index bids i in
        index lvl 0
      else ok JNull
  end.

(** [len(bids) >= 5], then [bids[5][0]] *)
Definition get_latest_bid4_price := latest_bid_price 5 5.

(** [len(bids) >= 3], then [bids[2][0]] *)
Definition get_latest_bid2_price := latest_bid_price 3 2.

(** [len(bids) >= 1], then [bids[0][0]] *)
Definition get_latest_bid0_price := latest_bid_price 1 0.

(** *** Message handling *)

Definition subscribe_message (channel symbol : string) : value :=
  JObj [("op", JStr "subscribe");
        ("args", JArr [JObj [("channel", JStr channel);
                             ("instId", JStr symbol)]])].

(** [subscribe_to_trades] *)
Definition subscribe_to_trades : task MarketDataFetch unit :=
  try_except
    (do ws <- gets public_websocket;
     do symbol <- gets instId;
     send ws (subscribe_message "trades" symbol) ;;
     emit (ELog INFO "Subscribed to trades channel"))
    (fun _ => emit (ELog ERROR "Failed to subscribe")).

(** [subscribe_to_orderbook] *)
Definition subscribe_to_orderbook : task MarketDataFetch unit :=
  try_except
    (do ws <- gets public_websocket;
     do symbol <- gets instId;
     send ws (subscribe_message "books" symbol) ;;
     emit (ELog INFO "Subscribed to order book channel"))
    (fun _ => emit (ELog ERROR "Failed to subscribe to order book")).

(** The dict that [handle_trade_message] builds from one element of the
    payload, with [trade.get(...)] for each of the seven fields. *)
Definition trade_info_of (trade : value) : res value :=
  let? instId := get trade "instId" JNull in
  let? tradeId := get trade "tradeId" JNull in
  let? px := get trade "px" JNull in
  let? sz := get trade "sz" JNull in
  let? side := get trade "side" JNull in
  let? ts := get trade "ts" JNull in
  let? count := get trade "count" JNull in
  ok (JObj [("instId", instId); ("tradeId", tradeId); ("px", px);
            ("sz", sz); ("side", side); ("ts", ts); ("count", count)]).

(** The body of the [for trade in trade_data] loop. *)
Definition handle_trade (trade : value) : task MarketDataFetch unit :=
  do trade_info <- lift (trade_info_of trade);
  modify (fun f => set_data_deque (data_deque f ++ [trade_info]) f) ;;
  modify (fun f => set_message_count (message_count f + 1) f) ;;
  emit (ELog INFO "Added trade info") ;;
  modify (fun f => set_trade_queue (trade_queue f ++ [trade_info]) f).

(** [handle_trade_message] *)
Definition handle_trade_message (trade_data : value)
  : task MarketDataFetch unit :=
  do trades <- lift (iter trade_data);
  for_each trades handle_trade.

(** [handle_order_book_message] *)
Definition handle_order_book_message (order_book_data : value)
  : task MarketDataFetch unit :=
  modify (set_order_book_data order_book_data) ;;
  emit (ELog INFO "Received order book data") ;;
  modify (fun f => set_order_book_deque (order_book_deque f ++ [order_book_data]) f).

(** [process_message]: both [except] clauses log and go on. *)
Definition process_message (message : frame) : task MarketDataFetch unit :=
  try_except
    (do data <- lift (json_loads message);
     do has_data <- lift (str_in "data" data);
     if has_data then
       do is_trades <- lift (let? arg := getitem data "arg" in
                             let? ch := getitem arg "channel" in
                             ok (eq_str ch "trades"));
       if is_trades then
         do payload <- lift (getitem data "data");
         handle_trade_message payload
       else
         do is_books <- lift (let? arg := getitem data "arg" in
                              let? ch := getitem arg "channel" in
                              ok (eq_str ch "books"));
         if is_books then
           do first <- lift (let? payload := getitem data "data" in
                             index payload 0);
           handle_order_book_message first
         else ret tt
     else ret tt)
    (fun e =>
       match e with
       | JSONDecodeError => emit (ELog ERROR "Failed to decode JSON message")
       | _ => emit (ELog ERROR "Error processing message")
       end).

(** *** The connection loop

    One connection as the network presents it: what
    [websockets.connect] gives, the frames that [recv] then returns one
    by one, and how the connection ends once they are used up, [None]
    for a connection that stays open and silent. *)
Record session : Type := {
  connected : res socket;
  frames : list frame;
  closing : option exn
}.

(** The check after each frame:
<<
    if self.max_messages is not None and self.message_count >= self.max_messages:
        self.logger.info(...); self.stop_flag.set()
>> *)
Definition check_cap : task MarketDataFetch unit :=
  do cap <- gets max_messages;
  do count <- gets message_count;
  match cap with
  | Some m =>
      if m <=? count then
        emit (ELog INFO "Reached maximum number of messages. Stopping...") ;;
        modify (set_stop_flag true)
      else ret tt
  | None => ret tt
  end.

(** The inner [while not self.stop_flag.is_set()] loop. *)
Fixpoint read_frames (fs : list frame) (closing : option exn)
  : task MarketDataFetch unit :=
  do stop <- gets stop_flag;
  if stop then ret tt
  else
    match fs with
    | [] =>
        match closing with
        | Some e => modify (set_public_websocket (Some Closed)) ;; raise e
        | None => block
        end
    | response :: fs' =>
        emit (ERecv response) ;;
        process_message response ;;
        check_cap ;;
        read_frames fs' closing
    end.

(** The [try] block of [connect], for one connection. *)
Definition connection_attempt (c : session) : task MarketDataFetch unit :=
  emit EConnect ;;
  do ws <- lift (connected c);
  modify (set_public_websocket (Some ws)) ;;
  emit (ELog INFO "Public WebSocket connection established") ;;
  subscribe_to_trades ;;
  subscribe_to_orderbook ;;
  read_frames (frames c) (closing c).

(** The two [except] clauses of [connect]: each logs and then awaits
    [asyncio.sleep(2)]. *)
Definition backoff (e : exn) : task MarketDataFetch unit :=
  match e with
  | ConnectionClosed =>
      emit (ELog ERROR "WebSocket connection closed with error") ;;
      emit (ESleep 2)
  | _ =>
      emit (ELog ERROR "Error in WebSocket connection") ;;
      emit (ESleep 2)
  end.

(** The body of the outer loop of [connect], for one connection. *)
Definition connect_once (c : session) : task MarketDataFetch unit :=
  try_except (connection_attempt c) backoff.

(** [connect]: the outer [while not self.stop_flag.is_set()] loop, over
    the connections the network will offer.  When they are used up and
    the flag is still clear the task is waiting for the network. *)
Fixpoint connect (net : list session) : task MarketDataFetch unit :=
  do stop <- gets stop_flag;
  if stop then ret tt
  else
    match net with
    | [] => block
    | c :: net' => connect_once c ;; connect net'
    end.

(** [run]: [connect] returns only with the flag set, so the loop around
    it runs its body once. *)
Definition run (net : list session) : task MarketDataFetch unit :=
  do stop <- gets stop_flag;
  if stop then ret tt else connect net.

(** [on_stop].  [close] is what [self.public_websocket.close()] does: it
    returns, or it raises.  The connection is closed only when there is
    one and it is still open. *)
Definition on_stop (close : res unit) : task MarketDataFetch unit :=
  modify (set_stop_flag true) ;;
  do ws <- gets public_websocket;
  match ws with
  | Some Open =>
      try_except
        (lift close ;;
         modify (set_public_websocket (Some Closed)) ;;
         emit (ELog INFO "WebSocket connection closed"))
        (fun _ => emit (ELog ERROR "Error closing WebSocket connection"))
  | _ => ret tt
  end.

End MarketDataFetcher.

(** ** StatusChecker.py *)

Module StatusChecker.

(** What [requests.get] followed by [raise_for_status] and [json]
    produces: an exception of the [requests.RequestException] family
    (connection error, timeout, HTTP error status, a body that is not
    JSON), or the decoded body. *)
Inductive http_result : Type :=
| RequestFailed
| Body (data : value).

(** [_generate_signature], with [self.api_secret] as first argument. *)
Definition _generate_signature (api_secret timestamp method request_path
    body : string) : string :=
  let message := timestamp +:+ Hashlib.upper method +:+ request_path +:+ body in
  let mac := Hashlib.hmac_sha256 (Hashlib.encode api_secret)
               (Hashlib.encode message) in
  Hashlib.decode (Hashlib.b64encode mac).

(** [get_order_status].  [reply] is what the network answers to this
    request.  The headers are built before the [try] from strings only
    and are not part of the event.  The [try] block either returns a
    value ([Some]) or falls through to the final [return None]; the
    [except] clause names [requests.RequestException] alone, every other
    exception leaves the function. *)
Definition get_order_status {S} (reply : http_result)
    (inst_id cl_ord_id : string) : task S value :=
  do returned <-
    try_except
      (emit (EHttpGet inst_id cl_ord_id) ;;
       do data <- match reply with
                  | RequestFailed => raise RequestException
                  | Body data => ret data
                  end;
       do code <- lift (get data "code" JNull);
       if eq_str code "0" then
         do order_data <- lift (get data "data" (JArr []));
         if truthy order_data then
           do state <- lift (let? first := index order_data 0 in
                             get first "state" JNull);
           ret (Some state)
         else
           emit (EPrint "order status not found") ;;
           ret None
       else
         do msg <- lift (get data "msg" JNull);
         emit (EPrint "query failed") ;;
         ret None)
      (fun e =>
         match e with
         | RequestException =>
             emit (EPrint "HTTP request failed") ;;
             ret None
         | _ => raise e
         end);
  match returned with
  | Some state => ret state
  | None => ret JNull
  end.

End StatusChecker.

(** ** OkxSimulatedTrade.py *)

Module OkxSimulatedTrade.

Import StatusChecker.

(** One entry of [self.orders]. *)
Record order : Type := {
  symbol : string;
  side : string;
  price : value;
  size : value;
  status : value;
  message_queue : list value
}.

(** The attributes of an [OkxSimulatedTrader] object.  Of
    [self.order_tasks] only the keys matter. *)
Record OkxSimulatedTrader : Type := {
  user_id : string;
  order_timeout : Z;
  ordType : string;
  private_websocket : option socket;
  orders : gmap string order;
  order_tasks : gset string
}.

(** [__init__] *)
Definition init (user_id : string) (order_timeout : Z) (ordtype : string)
  : OkxSimulatedTrader :=
  {| user_id := user_id; order_timeout := order_timeout; ordType := ordtype;
     private_websocket := None; orders := ∅; order_tasks := ∅ |}.

Definition set_private_websocket x (t : OkxSimulatedTrader) :=
  {| user_id := user_id t; order_timeout := order_timeout t;
     ordType := ordType t; private_websocket := x;
     orders := orders t; order_tasks := order_tasks t |}.

Definition set_orders x (t : OkxSimulatedTrader) :=
  {| user_id := user_id t; order_timeout := order_timeout t;
     ordType := ordType t; private_websocket := private_websocket t;
     orders := x; order_tasks := order_tasks t |}.

Definition set_order_tasks x (t : OkxSimulatedTrader) :=
  {| user_id := user_id t; order_timeout := order_timeout t;
     ordType := ordType t; private_websocket := private_websocket t;
     orders := orders t; order_tasks := x |}.

Definition set_status x (o : order) : order :=
  {| symbol := symbol o; side := side o; price := price o; size := size o;
     status := x; message_queue := message_queue o |}.

Definition set_message_queue x (o : order) : order :=
  {| symbol := symbol o; side := side o; price := price o; size := size o;
     status := status o; message_queue := x |}.

(** [generate_signature], with [self.secret_key] as first argument. *)
Definition generate_signature (secret_key timestamp method request_path
    body : string) : string :=
  let message := timestamp +:+ Hashlib.upper method +:+ request_path +:+ body in
  let mac := Hashlib.hmac_sha256 (Hashlib.encode secret_key)
               (Hashlib.encode message) in
  Hashlib.decode (Hashlib.b64encode mac).

(** [string.ascii_letters + string.digits] *)
Definition characters : string :=
  "abcdefghijklmnopqrstuvwxyzABCDEFGHIJKLMNOPQRSTUVWXYZ0123456789".

(** [generate_clordid].  [r] and [pick] are the random source:
    [random.randint(1, 32)] is [1 + r mod 32] and the [i]-th
    [random.choice(characters)] takes the character at [pick i mod 62]. *)
Definition generate_clordid (r : nat) (pick : nat -> nat) : string :=
  let length := (1 + r mod 32)%nat in
  string_of_list_ascii
    (map (fun i => match String.get (pick i mod 62)%nat characters with
                   | Some c => c
                   | None => "a"%char
                   end)
         (seq 0 length)).

(** [self.orders[clordid]['message_queue'].get()]: waits while the queue
    is empty. *)
Definition queue_get (clordid : string) : task OkxSimulatedTrader value :=
  do os <- gets orders;
  match os !! clordid with
  | None => raise KeyError
  | Some o =>
      match message_queue o with
      | [] => block
      | data :: rest =>
          modify (set_orders (<[clordid := set_message_queue rest o]> os)) ;;
          ret data
      end
  end.

(** [self.orders[clordid]['message_queue'].put(data)] on an unbounded
    queue. *)
Definition queue_put (clordid : string) (data : value)
  : task OkxSimulatedTrader unit :=
  do os <- gets orders;
  match os !! clordid with
  | None => raise KeyError
  | Some o =>
      modify (set_orders
                (<[clordid := set_message_queue (message_queue o ++ [data]) o]> os))
  end.

(** [self.orders[clordid]['status'] = x] *)
Definition assign_status (clordid : string) (x : value)
  : task OkxSimulatedTrader unit :=
  do os <- gets orders;
  match os !! clordid with
  | None => raise KeyError
  | Some o => modify (set_orders (<[clordid := set_status x o]> os))
  end.

(** [place_limit_order]: registers the order and its task.  The task
    itself, [process_order] below, starts at the next scheduling point. *)
Definition place_limit_order (r : nat) (pick : nat -> nat)
    (symbol side : string) (price size : value)
  : task OkxSimulatedTrader string :=
  let clordid := generate_clordid r pick in
  modify (fun t =>
            set_orders
              (<[clordid := {| symbol := symbol; side := side; price := price;
                               size := size; status := JStr "pending";
                               message_queue := [] |}]> (orders t)) t) ;;
  modify (fun t => set_order_tasks ({[clordid]} ∪ order_tasks t) t) ;;
  emit (ELog INFO "Created task for order") ;;
  ret clordid.

Definition order_param (user_id clordid symbol side : string)
    (price size : value) (ordtype : string) : value :=
  JObj [("id", JStr user_id);
        ("op", JStr "order");
        ("args", JArr [JObj [("side", JStr side);
                             ("instId", JStr symbol);
                             ("tdMode", JStr "isolated");
                             ("ordType", JStr ordtype);
                             ("px", price);
                             ("sz", size);
                             ("clOrdId", JStr clordid)]])].

Definition cancel_param (user_id inst_id clordid : string) : value :=
  JObj [("id", JStr user_id);
        ("op", JStr "cancel-order");
        ("args", JArr [JObj [("instId", JStr inst_id);
                             ("clOrdId", JStr clordid)]])].

(** [submit_order] *)
Definition submit_order (clordid symbol side : string) (price size : value)
    (ordtype : string) : task OkxSimulatedTrader bool :=
  try_except
    (do uid <- gets user_id;
     do ws <- gets private_websocket;
     send ws (order_param uid clordid symbol side price size ordtype) ;;
     emit (ELog INFO "Sent limit order") ;;
     do data <- queue_get clordid;
     emit (ELog INFO "submit_order") ;;
     do code <- lift (get data "code" JNull);
     if eq_str code "0" then
       emit (ELog INFO "Order placed successfully") ;;
       ret true
     else
       do msg <- lift (get data "msg" (JStr "unknown error"));
       emit (ELog ERROR "Failed to place order") ;;
       ret false)
    (fun _ =>
       emit (ELog ERROR "Error while submitting order") ;;
       ret false).

(** [cancel_order] *)
Definition cancel_order (clordid : string) : task OkxSimulatedTrader unit :=
  if String.eqb clordid "" then
    emit (ELog WARNING "No order to cancel.")
  else
    do os <- gets orders;
    let inst_id := match os !! clordid with
                   | Some o => Some (symbol o)
                   | None => None
                   end in
    match inst_id with
    | None | Some "" =>
        emit (ELog WARNING "Missing symbol for order")
    | Some inst_id =>
        try_except
          (do uid <- gets user_id;
           do ws <- gets private_websocket;
           send ws (cancel_param uid inst_id clordid) ;;
           emit (ELog INFO "Sent cancel request for order") ;;
           do data <- queue_get clordid;
           emit (ELog INFO "cancel_order") ;;
           do s_msg <- lift (let? items := get data "data" (JArr [JObj []]) in
                             let? first := index items 0 in
                             get first "sMsg" (JStr ""));
           do code <- lift (get data "code" JNull);
           if eq_str code "0" then
             emit (ELog INFO "Order canceled successfully.") ;;
             assign_status clordid (JStr "canceled")
           else
             do filled <- lift (str_in "filled" s_msg);
             if filled then
               emit (ELog INFO "Order has been filled.") ;;
               assign_status clordid (JStr "filled")
             else
               emit (ELog ERROR "Failed to cancel order"))
          (fun _ => emit (ELog ERROR "Error while canceling order"))
    end.

Section WithNetwork.

(** What the exchange's REST endpoint answers to a status query for an
    instrument and a client order id. *)
Variable requests_get : string -> string -> http_result.

(** Step 2 of [process_order], after a successful submission: sleep
    for the timeout, ask the oracle, and cancel unless the order is
    already filled or canceled. *)
Definition wait_then_cancel (clordid symbol : string)
  : task OkxSimulatedTrader unit :=
  do timeout <- gets order_timeout;
  emit (ESleep timeout) ;;
  do order_status <-
    get_order_status (requests_get symbol clordid) symbol clordid;
  if eq_str order_status "filled" || eq_str order_status "canceled" then
    emit (ELog INFO "Order is already resolved. Skipping cancellation.") ;;
    assign_status clordid order_status
  else
    cancel_order clordid.

(** The [finally] clause of [process_order]. *)
Definition forget_task (clordid : string) : task OkxSimulatedTrader unit :=
  modify (fun t => set_order_tasks (order_tasks t ∖ {[clordid]}) t) ;;
  emit (ELog INFO "Task for order completed").

(** [process_order].  The two early [return]s are the branches that
    end without going on. *)
Definition process_order (clordid symbol side : string) (price size : value)
    (ordtype : string) : task OkxSimulatedTrader unit :=
  try_finally
    (do success <- submit_order clordid symbol side price size ordtype;
     if negb success then
       emit (ELog ERROR "Order failed to place. Skipping further processing.")
     else
       wait_then_cancel clordid symbol)
    (forget_task clordid).

End WithNetwork.

(** [clordid in self.order_tasks]: a list or a dict cannot be hashed, any
    other value that is not a string is simply not a key. *)
Definition in_order_tasks (clordid : value) (t : OkxSimulatedTrader)
  : res bool :=
  match clordid with
  | JStr c => ok (bool_decide (c ∈ order_tasks t))
  | JArr _ | JObj _ => throw TypeError
  | _ => ok false
  end.

(** The body of the [for order in data['data']] loop of
    [consume_messages]. *)
Definition route (data order : value) : task OkxSimulatedTrader unit :=
  do clordid <- lift (get order "clOrdId" JNull);
  do t <- gets id;
  do registered <- lift (in_order_tasks clordid t);
  if registered then
    match clordid with
    | JStr c => queue_put c data
    | _ => ret tt
    end
  else ret tt.

(** The body of the [async for message in self.private_websocket] loop
    of [consume_messages]. *)
Definition consume_message (message : frame) : task OkxSimulatedTrader unit :=
  try_except
    (do data <- lift (json_loads message);
     emit (ELog INFO "Received message") ;;
     do has_data <- lift (str_in "data" data);
     if has_data then
       do payload <- lift (getitem data "data");
       do elems <- lift (iter payload);
       for_each elems (route data)
     else ret tt)
    (fun e =>
       match e with
       | JSONDecodeError => emit (ELog ERROR "Error decoding JSON message")
       | _ => emit (ELog ERROR "Error processing message")
       end).




End OkxSimulatedTrade.

(** ** OkxSimulatedTrade.py: connecting and logging in *)

Module PrivateConnection.

Import OkxSimulatedTrade.

(** The trader together with its private connection: the frames that
    [recv] will return one by one, how [recv] ends once they are used up
    ([None]: it waits), and whether the [consume_messages] task has been
    created.  Log texts that the source has in Chinese are given in
    English. *)
Record private_session : Type := {
  trader : OkxSimulatedTrader;
  incoming : list frame;
  ending : option exn;
  consuming : bool
}.

Definition set_trader x (p : private_session) :=
  {| trader := x; incoming := incoming p; ending := ending p;
     consuming := consuming p |}.

Definition set_incoming x (p : private_session) :=
  {| trader := trader p; incoming := x; ending := ending p;
     consuming := consuming p |}.

Definition set_consuming x (p : private_session) :=
  {| trader := trader p; incoming := incoming p; ending := ending p;
     consuming := x |}.

(** [await websocket.recv()] *)
Definition recv (websocket : option socket) : task private_session frame :=
  match websocket with
  | None => raise AttributeError
  | Some Closed => raise ConnectionClosed
  | Some Open =>
      do fs <- gets incoming;
      match fs with
      | response :: fs' =>
          modify (set_incoming fs') ;;
          emit (ERecv response) ;;
          ret response
      | [] =>
          do e <- gets ending;
          match e with
          | Some e =>
              modify (fun p => set_trader
                                 (set_private_websocket (Some Closed) (trader p)) p) ;;
              raise e
          | None => block
          end
      end
  end.

Section WithCredentials.

(** [self.api_key], [self.secret_key] and [self.passphrase] *)
Variables api_key secret_key passphrase : string.

(** The request that [login] sends; [timestamp] is
    [str(int(time.time()))]. *)
Definition login_param (timestamp : string) : value :=
  JObj [("op", JStr "login");
        ("args",
         JArr [JObj [("apiKey", JStr api_key);
                     ("passphrase", JStr passphrase);
                     ("timestamp", JStr timestamp);
                     ("sign",
                      JStr (generate_signature secret_key timestamp "GET"
                              "/users/self/verify" ""))]])].

(** [login].  Both outcomes of the check on the code, and every
    exception, end in a log entry. *)
Definition login (websocket : option socket) (timestamp : string)
  : task private_session unit :=
  try_except
    (send websocket (login_param timestamp) ;;
     do response <- recv websocket;
     do response_data <- lift (json_loads response);
     emit (ELog INFO "login") ;;
     do code <- lift (get response_data "code" JNull);
     if eq_str code "0" then
       emit (ELog INFO "Connected and logged in")
     else
       do msg <- lift (get response_data "msg" (JStr "unknown error"));
       emit (ELog ERROR "Login failed"))
    (fun _ => emit (ELog ERROR "Error during login")).

Definition subscribe_param : value :=
  JObj [("op", JStr "subscribe");
        ("args", JArr [JObj [("channel", JStr "orders");
                             ("instType", JStr "SPOT")]])].

(** [subscribe_to_orders_channel]: the confirmation is awaited, and after
    a confirmation one more frame, expected to carry the connection
    count. *)
Definition subscribe_to_orders_channel : task private_session unit :=
  try_except
    (do ws <- gets (fun p => private_websocket (trader p));
     send ws subscribe_param ;;
     emit (ELog INFO "Sent subscription request to orders channel.") ;;
     do ws <- gets (fun p => private_websocket (trader p));
     do response <- recv ws;
     do data <- lift (json_loads response);
     emit (ELog INFO "subscribe_to_orders_channel") ;;
     do confirmed <-
       lift (rand (let? ev := get data "event" JNull in
                   ok (eq_str ev "subscribe"))
                  (let? arg := get data "arg" (JObj []) in
                   let? ch := get arg "channel" JNull in
                   ok (eq_str ch "orders")));
     if confirmed then
       emit (ELog INFO "Subscription to orders channel successful!") ;;
       do ws <- gets (fun p => private_websocket (trader p));
       do response <- recv ws;
       do data <- lift (json_loads response);
       emit (ELog INFO "channel-conn-count") ;;
       do ev <- lift (get data "event" JNull);
       if eq_str ev "channel-conn-count" then
         do conn_count <- lift (get data "connCount" (JStr "Unknown"));
         emit (ELog INFO "Current connection count for orders channel")
       else ret tt
     else
       do msg <- lift (get data "msg" (JStr "Unknown error"));
       emit (ELog ERROR "Failed to subscribe to orders channel"))
    (fun _ => emit (ELog ERROR "Error while subscribing to orders channel")).

(** [connect_and_login].  [connected] is what [websockets.connect]
    gives. *)
Definition connect_and_login (connected : res socket) (timestamp : string)
  : task private_session unit :=
  try_except
    (emit EConnect ;;
     do ws <- lift connected;
     modify (fun p => set_trader (set_private_websocket (Some ws) (trader p)) p) ;;
     do ws <- gets (fun p => private_websocket (trader p));
     login ws timestamp ;;
     subscribe_to_orders_channel ;;
     modify (set_consuming true))
    (fun _ => emit (ELog ERROR "Connection failed")).

End WithCredentials.

End PrivateConnection.

(** ** CalculateMarkerIntensity.py *)

Module CalculateMarkerIntensity.

(** The exceptions that the calculator can meet: those of [Py.exn], and
    the two that arithmetic on floats adds. *)
Inductive error : Type :=
| Builtin (e : exn)
| ValueError
| ZeroDivisionError.

Section WithFloats.

(** Python's floats and the operations that the calculator uses on
    them.  [parse s] is [float(s)] for a string, [None] where Python
    raises [ValueError]; [of_int] is [float(n)] for an integer; [sum] is
    the builtin [sum] of a list; [div x n] is [x / n] for an integer
    [n] other than 0; [gt x y] is [x > y]. *)
Variable F : Type.
Variable parse : string -> option F.
Variable of_int : Z -> F.
Variable neg : F -> F.
Variable sum : list F -> F.
Variable div : F -> Z -> F.
Variable gt : F -> F -> bool.

(** [float(v)] *)
Definition float (v : value) : error + F :=
  match v with
  | JStr s => match parse s with
              | Some x => inr x
              | None => inl ValueError
              end
  | JNum z => inr (of_int z)
  | JBool b => inr (of_int (if b then 1 else 0))
  | JNull | JArr _ | JObj _ => inl (Builtin TypeError)
  end.

Record MarketIntensityCalculator : Type := {
  threshold : F;
  window_size : Z;
  size_list : list F;
  flag : bool
}.

(** [__init__] *)
Definition init (threshold : F) (window_size : Z) : MarketIntensityCalculator :=
  {| threshold := threshold; window_size := window_size;
     size_list := []; flag := false |}.

Definition set_size_list x (c : MarketIntensityCalculator) :=
  {| threshold := threshold c; window_size := window_size c;
     size_list := x; flag := flag c |}.

Definition set_flag x (c : MarketIntensityCalculator) :=
  {| threshold := threshold c; window_size := window_size c;
     size_list := size_list c; flag := x |}.

(** A method either raises or returns, and leaves the object in some
    state. *)
Definition method (A : Type) : Type :=
  MarketIntensityCalculator -> (error + A) * MarketIntensityCalculator.

(** [calculate_market_intensity]: [sum(l) / len(l)] raises
    [ZeroDivisionError] on the empty list. *)
Definition calculate_market_intensity : method unit :=
  fun c =>
    match size_list c with
    | [] => (inl ZeroDivisionError, c)
    | _ :: _ =>
        let market_intensity :=
          div (sum (size_list c)) (Z.of_nat (length (size_list c))) in
        let c := if gt market_intensity (threshold c) then set_flag true c
                 else set_flag false c in
        (inr tt, set_size_list [] c)
    end.

(** [add_trade] *)
Definition add_trade (trade : value) : method unit :=
  fun c =>
    match getitem trade "sz" with
    | inl e => (inl (Builtin e), c)
    | inr sz =>
        match float sz with
        | inl e => (inl e, c)
        | inr size =>
            match getitem trade "side" with
            | inl e => (inl (Builtin e), c)
            | inr side =>
                let c :=
                  if eq_str side "buy" then
                    set_size_list (size_list c ++ [size]) c
                  else if eq_str side "sell" then
                    set_size_list (size_list c ++ [neg size]) c
                  else c in
                if window_size c <=? Z.of_nat (length (size_list c)) then
                  calculate_market_intensity c
                else (inr tt, c)
            end
        end
    end.

(** [get_flag] *)
Definition get_flag (c : MarketIntensityCalculator) : bool := flag c.

End WithFloats.

Arguments threshold {F} _.
Arguments window_size {F} _.
Arguments size_list {F} _.
Arguments flag {F} _.
Arguments init {F} _ _.
Arguments set_size_list {F} _ _.
Arguments set_flag {F} _ _.
Arguments calculate_market_intensity {F} _ _ _ _.
Arguments add_trade {F} _ _ _ _ _ _ _ _.
Arguments float {F} _ _ _.
Arguments get_flag {F} _.

End CalculateMarkerIntensity.

(** ** MarketIntensityTrade.py *)

Module MarketIntensityTrade.

Import MarketDataFetcher CalculateMarkerIntensity.

(** The keyword arguments of one call
    [self.trader.place_limit_order(symbol=..., side=..., price=..., size=...)]
    that the loop hands to [asyncio.create_task].  The size is a float
    literal, kept as written. *)
Record request : Type := {
  req_symbol : string;
  req_side : string;
  req_price : value;
  req_size : string
}.

Section WithFloats.

Variable F : Type.
Variable parse : string -> option F.
Variable of_int : Z -> F.
Variable neg : F -> F.
Variable sum : list F -> F.
Variable div : F -> Z -> F.
Variable gt : F -> F -> bool.

(** What the loop of [run] reads and writes: the fetcher, the
    calculator, the order tasks it has created so far and what it has
    printed, each [print] by a short English text.  The trader itself is
    touched only by those tasks. *)
Record MarketIntensityTradingManager : Type := {
  fetcher : MarketDataFetch;
  market_intensity_calculator : MarketIntensityCalculator F;
  requested : list request;
  printed : list string
}.

(** [__init__] *)
Definition init (symbol : string) (max_messages : option Z) (window_size : Z)
    (threshold : F) : MarketIntensityTradingManager :=
  {| fetcher := MarketDataFetcher.init symbol max_messages;
     market_intensity_calculator :=
       CalculateMarkerIntensity.init threshold window_size;
     requested := [];
     printed := [] |}.

Definition set_fetcher x (m : MarketIntensityTradingManager) :=
  {| fetcher := x;
     market_intensity_calculator := market_intensity_calculator m;
     requested := requested m; printed := printed m |}.

Definition set_market_intensity_calculator x (m : MarketIntensityTradingManager) :=
  {| fetcher := fetcher m; market_intensity_calculator := x;
     requested := requested m; printed := printed m |}.

Definition create_task (r : request) (m : MarketIntensityTradingManager) :=
  {| fetcher := fetcher m;
     market_intensity_calculator := market_intensity_calculator m;
     requested := requested m ++ [r]; printed := printed m |}.

Definition print (text : string) (m : MarketIntensityTradingManager) :=
  {| fetcher := fetcher m;
     market_intensity_calculator := market_intensity_calculator m;
     requested := requested m; printed := printed m ++ [text] |}.

(** The body of the [while not self.fetcher.stop_flag.is_set()] loop of
    [run], up to the [await asyncio.sleep(0)].  An exception leaves the
    loop: it is caught by the [except Exception] around it. *)
Definition iteration (m : MarketIntensityTradingManager)
  : (error + unit) * MarketIntensityTradingManager :=
  match data_deque (fetcher m) with
  | [] => (inr tt, m)
  | current_trade :: rest =>
      let m := set_fetcher (set_data_deque rest (fetcher m)) m in
      let m := print "current_trade" m in
      match add_trade parse of_int neg sum div gt current_trade
              (market_intensity_calculator m) with
      | (inl e, c) => (inl e, set_market_intensity_calculator c m)
      | (inr _, c) =>
          let m := set_market_intensity_calculator c m in
          if get_flag (market_intensity_calculator m) then
            match get_latest_bid0_price (fetcher m) with
            | inl e => (inl (Builtin e), m)
            | inr JNull =>
                let m := print "cannot get the latest price" m in
                (inr tt,
                 set_market_intensity_calculator
                   (set_flag false (market_intensity_calculator m)) m)
            | inr order_price =>
                let m := create_task
                           {| req_symbol := instId (fetcher m);
                              req_side := "buy";
                              req_price := order_price;
                              req_size := "0.001" |} m in
                let m := print "order submitted" m in
                (inr tt,
                 set_market_intensity_calculator
                   (set_flag false (market_intensity_calculator m)) m)
            end
          else (inr tt, print "no trading signal" m)
      end
  end.

End WithFloats.

Arguments fetcher {F} _.
Arguments market_intensity_calculator {F} _.
Arguments requested {F} _.
Arguments printed {F} _.
Arguments init {F} _ _ _ _.
Arguments set_fetcher {F} _ _.
Arguments set_market_intensity_calculator {F} _ _.
Arguments create_task {F} _ _.
Arguments print {F} _ _.
Arguments iteration {F} _ _ _ _ _ _ _.

End MarketIntensityTrade.


(** * Predicates and scenarios *)

Import MarketDataFetcher StatusChecker OkxSimulatedTrade.

(** One price level as the exchange sends it:
    [[price, size, liquidated orders, orders]]. *)
Definition bid_level (px : string) : value :=
  JArr [JStr px; JStr "0.5"; JStr "0"; JStr "3"].

(** A snapshot with exactly five bid levels. *)
Definition five_bids : value :=
  JObj [("asks", JArr []);
        ("bids", JArr [bid_level "100.5"; bid_level "100.4"; bid_level "100.3";
                       bid_level "100.2"; bid_level "100.1"]);
        ("ts", JStr "1700000000000")].

Definition book_of_five : MarketDataFetch :=
  set_order_book_deque [five_bids] (MarketDataFetcher.init "BTC-USDT" (Some 50)).

(** The failures that [get_order_status] handles, each with what it
    prints: a [requests.RequestException], a response whose code is not
    ["0"], and a response with code ["0"] whose data is empty. *)
Inductive failure : http_result -> string -> Prop :=
| network_error :
    failure RequestFailed "HTTP request failed"
| nonzero_code kv code :
    get (JObj kv) "code" JNull = ok code ->
    eq_str code "0" = false ->
    failure (Body (JObj kv)) "query failed"
| empty_result kv code order_data :
    get (JObj kv) "code" JNull = ok code ->
    eq_str code "0" = true ->
    get (JObj kv) "data" (JArr []) = ok order_data ->
    truthy order_data = false ->
    failure (Body (JObj kv)) "order status not found".

(** A response that has the documented envelope: an object, whose data,
    when the code is ["0"], is empty or starts with an object. *)
Definition enveloped (reply : http_result) : Prop :=
  match reply with
  | RequestFailed => True
  | Body (JObj kv) =>
      forall code order_data,
        get (JObj kv) "code" JNull = ok code ->
        eq_str code "0" = true ->
        get (JObj kv) "data" (JArr []) = ok order_data ->
        truthy order_data = false \/
        exists first rest, order_data = JArr (JObj first :: rest)
  | Body _ => False
  end.

(** The call at a response with code ["51603"], where the hypotheses of
    [get_order_status_failure] hold. *)
Definition order_not_found : http_result :=
  Body (JObj [("code", JStr "51603"); ("msg", JStr "Order does not exist");
              ("data", JArr [])]).

Definition preserves {S A} (R : S -> S -> Prop) (m : task S A) : Prop :=
  forall s, R (self s) (self (snd (m s))).

(** Between [f] and [f'] some trade records were appended, the same ones
    to the deque and to the output queue, and the counter advanced by
    their number. *)
Definition trades_appended (new : list value) (f f' : MarketDataFetch) : Prop :=
  data_deque f' = data_deque f ++ new /\
  trade_queue f' = trade_queue f ++ new /\
  message_count f' = message_count f + Z.of_nat (length new) /\
  max_messages f' = max_messages f.

Definition trades_counted (f f' : MarketDataFetch) : Prop :=
  exists new, trades_appended new f f'.

(** A trades frame as the exchange sends it. *)
Definition trades_frame (trades : list value) : frame :=
  Text (JObj [("arg", JObj [("channel", JStr "trades");
                            ("instId", JStr "BTC-USDT")]);
              ("data", JArr trades)]).

Definition is_object (v : value) : Prop := exists kv, v = JObj kv.

Definition trade (id side : string) : value :=
  JObj [("instId", JStr "BTC-USDT"); ("tradeId", JStr id); ("px", JStr "100.5");
        ("sz", JStr "0.01"); ("side", JStr side); ("ts", JStr "1700000000000");
        ("count", JStr "1")].

(** A connection that delivers one frame carrying two trades. *)
Definition two_trades_in_one_frame : session :=
  {| connected := ok Open;
     frames := [trades_frame [trade "1" "buy"; trade "2" "sell"]];
     closing := None |}.

Definition unblocked {S A} (m : task S A) : Prop :=
  forall s, fst (m s) <> Blocked.

Definition returns {S A} (m : task S A) : Prop :=
  forall s, exists a, fst (m s) = Returned a.

(** The parts of the object that only [connect] and [on_stop] write. *)
Definition same_controls (f f' : MarketDataFetch) : Prop :=
  stop_flag f' = stop_flag f /\ max_messages f' = max_messages f /\
  public_websocket f' = public_websocket f.

(** An order-book frame as the exchange sends it. *)
Definition books_frame (payload : value) : frame :=
  Text (JObj [("arg", JObj [("channel", JStr "books");
                            ("instId", JStr "BTC-USDT")]);
              ("action", JStr "update");
              ("data", payload)]).

(** One turn of the inner loop of [connect]: the state after the frame
    has been received and processed. *)
Definition after_frame (response : frame) (s : st MarketDataFetch)
  : st MarketDataFetch :=
  snd (process_message response (snd (emit (ERecv response) s))).

(** A fetcher with a cap of 2, a frame of two trades and a frame of
    one. *)
Definition capped_at_two : st MarketDataFetch :=
  St (MarketDataFetcher.init "BTC-USDT" (Some 2)) [].


Definition frame_of_two : frame :=
  trades_frame [trade "1" "buy"; trade "2" "sell"].

Definition frame_of_one : frame := trades_frame [trade "1" "buy"].

Definition grows {S A} (m : task S A) : Prop :=
  forall s, exists l, trace (snd (m s)) = trace s ++ l.

(** What an [except] clause of [connect] logs. *)
Definition backoff_text (e : exn) : string :=
  match e with
  | ConnectionClosed => "WebSocket connection closed with error"
  | _ => "Error in WebSocket connection"
  end.

(** A connection that delivers one trade and is then closed by the
    peer. *)
Definition dropped_connection : session :=
  {| connected := ok Open;
     frames := [frame_of_one];
     closing := Some ConnectionClosed |}.

(** The mailbox of an order, when the order is known. *)
Definition mailbox (c : string) (t : OkxSimulatedTrader) : option (list value) :=
  message_queue <$> orders t !! c.

(** The status of an order, when the order is known. *)
Definition status_of (c : string) (t : OkxSimulatedTrader) : option value :=
  status <$> orders t !! c.

(** Every order with a task has an entry in [self.orders]. *)
Definition registry_ok (t : OkxSimulatedTrader) : Prop :=
  forall c, c ∈ order_tasks t -> is_Some (orders t !! c).

(** No task is added and no order is forgotten. *)
Definition registry_kept (t t' : OkxSimulatedTrader) : Prop :=
  order_tasks t' ⊆ order_tasks t /\
  (forall c, is_Some (orders t !! c) -> is_Some (orders t' !! c)) /\
  private_websocket t' = private_websocket t /\
  user_id t' = user_id t /\
  order_timeout t' = order_timeout t.






(** A trader whose connection is open, no order placed yet. *)
Definition fresh_trader : st OkxSimulatedTrader :=
  St (set_private_websocket (Some Open)
        (OkxSimulatedTrade.init "cuicui" 10 "post_only")) [].

(** The random source that makes [generate_clordid] return ["a"]. *)
Definition always_first (i : nat) : nat := 0%nat.

(** The trader after [place_limit_order] has registered order ["a"]. *)
Definition one_order : st OkxSimulatedTrader :=
  snd (place_limit_order 0 always_first "BTC-USDT" "buy"
         (JStr "100.5") (JStr "0.001") fresh_trader).

(** An acknowledgment from the exchange for the order ["a"]. *)
Definition ack (code s_msg : string) : list (string * value) :=
  [("id", JStr "cuicui"); ("op", JStr "order"); ("code", JStr code);
   ("msg", JStr "");
   ("data", JArr [JObj [("clOrdId", JStr "a"); ("ordId", JStr "12345");
                        ("sCode", JStr code); ("sMsg", JStr s_msg)]])].

(** An oracle that cannot be reached. *)
Definition unreachable_oracle (inst_id cl_ord_id : string) : http_result :=
  RequestFailed.

(** The order ["a"] with a rejection waiting in its mailbox. *)
Definition rejected_order : st OkxSimulatedTrader :=
  snd (consume_message (Text (JObj (ack "1" "Insufficient balance"))) one_order).

(** The trader after the task of the rejected order has completed. *)
Definition after_rejection : st OkxSimulatedTrader :=
  snd (process_order unreachable_oracle "a" "BTC-USDT" "buy"
         (JStr "100.5") (JStr "0.001") "post_only" rejected_order).

(** What [submit_order] puts on the trace up to the acknowledgment. *)
Definition submission (uid c sym sd : string) (px sz : value) (ot : string)
  : list event :=
  [ESend (order_param uid c sym sd px sz ot);
   ELog INFO "Sent limit order";
   ELog INFO "submit_order"].

(** The order after its acknowledgment has been taken from the mailbox. *)
Definition acknowledged (c : string) (o : order) (rest : list value)
    (s : st OkxSimulatedTrader) (evs : list event) : st OkxSimulatedTrader :=
  St (set_orders (<[c := set_message_queue rest o]> (orders (self s))) (self s))
     (trace s ++ evs).

(** The code of an acknowledgment is the string ["0"]. *)
Definition code_is_zero (kv : list (string * value)) : bool :=
  match dict_get kv "code" with
  | Some code => eq_str code "0"
  | None => false
  end.

(** The order ["a"] with an acceptance waiting in its mailbox. *)
Definition accepted_order : st OkxSimulatedTrader :=
  snd (consume_message (Text (JObj (ack "0" ""))) one_order).

(** The record of order ["a"], with the given mailbox. *)
Definition order_a (queue : list value) : order :=
  {| symbol := "BTC-USDT"; side := "buy"; price := JStr "100.5";
     size := JStr "0.001"; status := JStr "pending"; message_queue := queue |}.

(** What [cancel_order] puts on the trace up to the acknowledgment. *)
Definition cancellation (uid inst_id c : string) : list event :=
  [ESend (cancel_param uid inst_id c);
   ELog INFO "Sent cancel request for order";
   ELog INFO "cancel_order"].

(** [data.get('data', [{}])[0].get('sMsg', '')] on a message whose first
    payload element is an object. *)
Definition s_msg_of (item : list (string * value)) : value :=
  match dict_get item "sMsg" with
  | Some x => x
  | None => JStr ""
  end.

(** How the cancel step ends, from the acknowledgment: the status it
    assigns, if any, and what it logs last. *)
Definition cancel_verdict (kv item : list (string * value))
  : option value * event :=
  if code_is_zero kv then
    (Some (JStr "canceled"), ELog INFO "Order canceled successfully.")
  else
    match str_in "filled" (s_msg_of item) with
    | inr true => (Some (JStr "filled"), ELog INFO "Order has been filled.")
    | inr false => (None, ELog ERROR "Failed to cancel order")
    | inl _ => (None, ELog ERROR "Error while canceling order")
    end.

(** A message that [consume_messages] can have put on a mailbox: an
    object whose [data] is a list that starts with an object. *)
Definition deliverable (data : value) : Prop :=
  exists kv item more,
    data = JObj kv /\ dict_get kv "data" = Some (JArr (JObj item :: more)).

Definition mailboxes_deliverable (t : OkxSimulatedTrader) : Prop :=
  forall c o, orders t !! c = Some o -> Forall deliverable (message_queue o).

(** If every mailbox held deliverable messages before, so it does after. *)
Definition deliverable_kept (t t' : OkxSimulatedTrader) : Prop :=
  mailboxes_deliverable t -> mailboxes_deliverable t'.

(** The order ["a"] with the given acknowledgment put on its mailbox by
    the consumer. *)
Definition acknowledged_order (code s_msg : string) : st OkxSimulatedTrader :=
  snd (consume_message (Text (JObj (ack code s_msg))) one_order).

Definition filled_text : string :=
  "Cancellation failed as the order has been filled.".

(** What the oracle answers and what it puts on the trace, whatever the
    caller's state. *)
Definition oracle_answer (reply : http_result) (inst_id cl_ord_id : string)
  : outcome value :=
  fst (get_order_status reply inst_id cl_ord_id (St tt [])).

Definition oracle_events (reply : http_result) (inst_id cl_ord_id : string)
  : list event :=
  trace (snd (get_order_status reply inst_id cl_ord_id (St tt []))).

(** The order is already resolved: [order_status in ("filled", "canceled")]. *)
Definition resolved (order_status : value) : bool :=
  eq_str order_status "filled" || eq_str order_status "canceled".

(** An oracle that reports the given state for every order. *)
Definition oracle_reports (state : string) (inst_id cl_ord_id : string)
  : http_result :=
  Body (JObj [("code", JStr "0"); ("msg", JStr "");
              ("data", JArr [JObj [("clOrdId", JStr cl_ord_id);
                                   ("state", JStr state)]])]).

(** The signature as the specification words it: the timestamp, the
    method in upper case, the path and the body are concatenated, the
    result is authenticated with HMAC-SHA256 under the secret, and the
    digest is base64-encoded. *)
Definition sign_spec (secret timestamp method path body : string) : string :=
  let concatenation :=
    String.append timestamp
      (String.append (Hashlib.upper method) (String.append path body)) in
  Hashlib.decode
    (Hashlib.b64encode
       (Hashlib.hmac_sha256 (Hashlib.encode secret)
          (Hashlib.encode concatenation))).

(** The string holds ASCII characters only, the strings on which
    [Hashlib.encode] and [Hashlib.upper] are [str.encode] and
    [str.upper]. *)
Definition is_ascii (s : string) : bool :=
  forallb (fun a => (N_of_ascii a <? 128)%N) (list_ascii_of_string s).


(** The channel that a frame names, when it is an object with a [data]
    entry and an [arg] object. *)
Definition frame_channel (message : frame) : option value :=
  match message with
  | Text (JObj kv) =>
      match dict_get kv "data", dict_get kv "arg" with
      | Some _, Some (JObj arg) => dict_get arg "channel"
      | _, _ => None
      end
  | _ => None
  end.

(** The frame is none of the two that [process_message] handles. *)
Definition other_channel (message : frame) : Prop :=
  forall ch, frame_channel message = Some ch ->
             eq_str ch "trades" = false /\ eq_str ch "books" = false.

(** The first payload element that is not an object. *)
Definition not_object (v : value) : Prop := forall kv, v <> JObj kv.

(** A frame of a channel that the fetcher did not subscribe to. *)
Definition tickers_frame : frame :=
  Text (JObj [("arg", JObj [("channel", JStr "tickers");
                            ("instId", JStr "BTC-USDT")]);
              ("data", JArr [JObj [("last", JStr "100.5")]])]).

(** A price level that starts with its price. *)
Definition priced (lvl : value) : Prop :=
  exists px more, lvl = JArr (px :: more).

(** The latest snapshot of the history is an object whose [bids] are the
    list [bids]. *)
Definition latest_bids (f : MarketDataFetch) (bids : list value) : Prop :=
  exists kv, last (order_book_deque f) = Some (JObj kv) /\
             dict_get kv "bids" = Some (JArr bids).

(** The price of the level at index [i]; [None] when the bids stop before
    it. *)
Definition price_at (bids : list value) (i : nat) : value :=
  match bids !! i with
  | Some (JArr (px :: _)) => px
  | _ => JNull
  end.

(** A snapshot with six bid levels, after an older one with five. *)
Definition six_bids : value :=
  JObj [("asks", JArr []);
        ("bids", JArr [bid_level "100.5"; bid_level "100.4"; bid_level "100.3";
                       bid_level "100.2"; bid_level "100.1"; bid_level "100.0"]);
        ("ts", JStr "1700000000100")].

Definition book_of_six : MarketDataFetch :=
  set_order_book_deque [five_bids; six_bids]
    (MarketDataFetcher.init "BTC-USDT" (Some 50)).

(** A fetcher that was given no cap. *)
Definition uncapped : st MarketDataFetch :=
  St (MarketDataFetcher.init "BTC-USDT" None) [].

(** The attribute [order_book_data] agrees with the history: it is the
    last snapshot appended, or still the empty dict of [__init__]. *)
Definition snapshot_is_latest (f : MarketDataFetch) : Prop :=
  match last (order_book_deque f) with
  | Some d => order_book_data f = d
  | None => order_book_data f = JObj []
  end.

(** The history of snapshots was only extended, and the attribute still
    agrees with it if it did. *)
Definition history_kept (f f' : MarketDataFetch) : Prop :=
  (exists more, order_book_deque f' = order_book_deque f ++ more) /\
  (snapshot_is_latest f -> snapshot_is_latest f').

(** A connection that delivers a snapshot, an empty order-book frame and
    two trades. *)
Definition books_then_trades : session :=
  {| connected := ok Open;
     frames := [books_frame (JArr [five_bids]); books_frame (JArr []);
                frame_of_two];
     closing := None |}.

(** The record that [place_limit_order] stores for a new order. *)
Definition pending_order (sym sd : string) (px sz : value) : order :=
  {| symbol := sym; side := sd; price := px; size := sz;
     status := JStr "pending"; message_queue := [] |}.

(** The order ["a"] registered on a trader whose connection was never
    made. *)
Definition offline_order : st OkxSimulatedTrader :=
  St (set_private_websocket None (self one_order)) [].

(** An oracle whose body is the JSON array [[]]. *)
Definition malformed_oracle (inst_id cl_ord_id : string) : http_result :=
  Body (JArr []).

(** The state in which the task of an accepted order is left when the
    oracle raises. *)
Definition abandoned (s : st OkxSimulatedTrader) (c sym sd : string)
    (px sz : value) (ot : string) (o : order) (rest : list value)
    (oracle : list event) : st OkxSimulatedTrader :=
  St (set_order_tasks (order_tasks (self s) ∖ {[c]})
        (set_orders (<[c := set_message_queue rest o]> (orders (self s)))
           (self s)))
     (trace s ++ submission (user_id (self s)) c sym sd px sz ot ++
        [ELog INFO "Order placed successfully";
         ESleep (order_timeout (self s))] ++
        oracle ++ [ELog INFO "Task for order completed"]).

(** A task that lets no exception out. *)
Definition never_raises {S A} (m : task S A) : Prop :=
  forall s e, fst (m s) <> Raised e.


Definition is_log (ev : event) : Prop := exists lvl msg, ev = ELog lvl msg.


(** There is nothing that [cancel_order] could cancel: no id, no order
    stored under the id, or an order without a symbol. *)
Definition nothing_to_cancel (c : string) (t : OkxSimulatedTrader) : Prop :=
  c = "" \/ orders t !! c = None \/
  exists o, orders t !! c = Some o /\ symbol o = "".

(** The warning that [cancel_order] logs then. *)
Definition cancel_warning (c : string) : string :=
  if String.eqb c "" then "No order to cancel."
  else "Missing symbol for order".

Import PrivateConnection.

(** The response to the login request reports success. *)
Definition logged_in (response : frame) : bool :=
  match response with
  | Text (JObj kv) =>
      match dict_get kv "code" with
      | Some code => eq_str code "0"
      | None => false
      end
  | _ => false
  end.

(** A private connection that has just been opened for a new trader, and
    the frames that the exchange sends on it. *)
Definition opened (frames : list frame) : st private_session :=
  St {| trader := self fresh_trader; incoming := frames; ending := None;
        consuming := false |} [].

Definition login_rejected : frame :=
  Text (JObj [("event", JStr "error"); ("code", JStr "60009");
              ("msg", JStr "Login failed.")]).

Definition subscription_refused : frame :=
  Text (JObj [("event", JStr "error"); ("code", JStr "60011");
              ("msg", JStr "Please log in")]).

(** The frame confirms the subscription:
    [data.get("event") == "subscribe" and
     data.get("arg", {}).get("channel") == "orders"]. *)
Definition confirms (response : frame) : bool :=
  match response with
  | Text (JObj kv) =>
      match dict_get kv "event" with
      | Some ev =>
          eq_str ev "subscribe" &&
          match dict_get kv "arg" with
          | Some (JObj arg) =>
              match dict_get arg "channel" with
              | Some ch => eq_str ch "orders"
              | None => false
              end
          | _ => false
          end
      | None => false
      end
  | _ => false
  end.

(** What [subscribe_to_orders_channel] puts on the trace up to the first
    response. *)
Definition subscription_request (response : frame) : list event :=
  [ESend subscribe_param;
   ELog INFO "Sent subscription request to orders channel.";
   ERecv response].

Definition subscription_confirmed : frame :=
  Text (JObj [("event", JStr "subscribe");
              ("arg", JObj [("channel", JStr "orders");
                            ("instType", JStr "SPOT")]);
              ("connId", JStr "a4d3ae55")]).

(** An update of the orders channel for the order ["a"]. *)
Definition order_update : frame :=
  Text (JObj [("arg", JObj [("channel", JStr "orders");
                            ("instType", JStr "SPOT")]);
              ("data", JArr [JObj [("clOrdId", JStr "a");
                                   ("state", JStr "live")]])]).

Import CalculateMarkerIntensity.

Section Windows.

Context {F : Type} (parse : string -> option F) (of_int : Z -> F)
  (neg : F -> F) (sum : list F -> F) (div : F -> Z -> F) (gt : F -> F -> bool).

(** What a trade adds to the window: its size if it is a buy, the
    negated size if it is a sell; nothing if it has another side, or if
    [add_trade] raises on it. *)
Definition signed_size (trade : value) : option F :=
  match getitem trade "sz", getitem trade "side" with
  | inr sz, inr side =>
      match float parse of_int sz with
      | inr size =>
          if eq_str side "buy" then Some size
          else if eq_str side "sell" then Some (neg size)
          else None
      | inl _ => None
      end
  | _, _ => None
  end.

(** The sizes that a trade adds to the window: one, or none. *)
Definition counted (trade : value) : list F :=
  match signed_size trade with
  | Some size => [size]
  | None => []
  end.


(** [add_trade] called on one trade after the other, up to the first
    call that raises. *)
Fixpoint feed (trades : list value) (c : MarketIntensityCalculator F)
  : (error + unit) * MarketIntensityCalculator F :=
  match trades with
  | [] => (inr tt, c)
  | trade :: trades' =>
      match add_trade parse of_int neg sum div gt trade c with
      | (inr _, c') => feed trades' c'
      | (inl e, c') => (inl e, c')
      end
  end.

(** The calculator after a window has closed on the sizes [sizes]. *)
Definition closed_on (sizes : list F) (c : MarketIntensityCalculator F)
  : MarketIntensityCalculator F :=
  {| threshold := threshold c; window_size := window_size c; size_list := [];
     flag := gt (div (sum sizes) (Z.of_nat (length sizes))) (threshold c) |}.

End Windows.

(** Exact arithmetic on sizes, to run examples: the operations of the
    calculator on rationals, with a string read as a sequence of decimal
    digits. *)
Fixpoint digits (s : string) (acc : Z) : option Z :=
  match s with
  | EmptyString => Some acc
  | String a s' =>
      let d := Z.of_nat (nat_of_ascii a) - 48 in
      if (0 <=? d) && (d <=? 9) then digits s' (10 * acc + d) else None
  end.

Definition whole (s : string) : option QArith_base.Q :=
  match s with
  | EmptyString => None
  | _ => QArith_base.inject_Z <$> digits s 0
  end.

Definition total (l : list QArith_base.Q) : QArith_base.Q :=
  fold_right QArith_base.Qplus (QArith_base.inject_Z 0) l.

Definition over (x : QArith_base.Q) (n : Z) : QArith_base.Q :=
  QArith_base.Qdiv x (QArith_base.inject_Z n).

Definition exceeds (x y : QArith_base.Q) : bool :=
  negb (QArith_base.Qle_bool x y).

(** [add_trade] and [feed] in exact arithmetic. *)
Definition add_exactly (trade : value) :=
  add_trade whole QArith_base.inject_Z QArith_base.Qopp total over exceeds trade.

Definition feed_exactly (trades : list value) :=
  feed whole QArith_base.inject_Z QArith_base.Qopp total over exceeds trades.

(** A calculator with threshold 2 and windows of three trades, and
    trades of the given side and size. *)
Definition three_wide : MarketIntensityCalculator QArith_base.Q :=
  CalculateMarkerIntensity.init (QArith_base.inject_Z 2) 3.

Definition sized (side sz : string) : value :=
  JObj [("instId", JStr "BTC-USDT"); ("tradeId", JStr "1"); ("px", JStr "100.5");
        ("sz", JStr sz); ("side", JStr side); ("ts", JStr "1700000000000");
        ("count", JStr "1")].

(** The calculator with two sizes in its window of three. *)
Definition two_of_three : MarketIntensityCalculator QArith_base.Q :=
  snd (feed_exactly [sized "buy" "3"; sized "buy" "4"] three_wide).

Import MarketIntensityTrade.

(** The order that the loop asks for at a price: a buy of [0.001] of the
    instrument of the fetcher. *)
Definition buy_at (f : MarketDataFetch) (order_price : value) : request :=
  {| req_symbol := instId f; req_side := "buy"; req_price := order_price;
     req_size := "0.001" |}.

(** The loop body in exact arithmetic, and a manager whose calculator
    has two sizes in its window of three and whose fetcher holds a
    snapshot of five bids and the given trades. *)
Definition iterate_exactly :=
  iteration whole QArith_base.inject_Z QArith_base.Qopp total over exceeds.

Definition managing (trades : list value)
  : MarketIntensityTradingManager QArith_base.Q :=
  {| fetcher := set_data_deque trades book_of_five;
     market_intensity_calculator := two_of_three;
     requested := [];
     printed := [] |}.

(** The manager after the fetcher task has processed a frame. *)
Definition received {F} (message : frame) (m : MarketIntensityTradingManager F)
  : MarketIntensityTradingManager F :=
  set_fetcher (self (snd (process_message message (St (fetcher m) [])))) m.

(** A trade as the exchange would send it without its size. *)
Definition sizeless : list (string * value) :=
  [("instId", JStr "BTC-USDT"); ("tradeId", JStr "7"); ("px", JStr "100.5");
   ("side", JStr "buy"); ("ts", JStr "1700000000000")].

(** The two subscription requests as the exchange expects them:
    [{"op": "subscribe", "args": [{"channel": ..., "instId": ...}]}]. *)
Definition trades_request (symbol : string) : value :=
  JObj [("op", JStr "subscribe");
        ("args", JArr [JObj [("channel", JStr "trades");
                             ("instId", JStr symbol)]])].

Definition books_request (symbol : string) : value :=
  JObj [("op", JStr "subscribe");
        ("args", JArr [JObj [("channel", JStr "books");
                             ("instId", JStr symbol)]])].

(** What a connection puts on the trace before the first [recv], by the
    socket that [websockets.connect] gave: on an open socket the two
    requests, trades first; on a socket that is already closed the two
    failures. *)
Definition resubscription (ws : socket) (symbol : string) : list event :=
  match ws with
  | Open =>
      [EConnect;
       ELog INFO "Public WebSocket connection established";
       ESend (trades_request symbol);
       ELog INFO "Subscribed to trades channel";
       ESend (books_request symbol);
       ELog INFO "Subscribed to order book channel"]
  | Closed =>
      [EConnect;
       ELog INFO "Public WebSocket connection established";
       ELog ERROR "Failed to subscribe";
       ELog ERROR "Failed to subscribe to order book"]
  end.

(** A connection that the peer closes at once, after one frame. *)
Definition closed_at_once : session :=
  {| connected := ok Closed;
     frames := [frame_of_one];
     closing := Some ConnectionClosed |}.





(** The login request and the subscription request of the private
    connection, as the exchange expects them. *)
Definition login_request (ak pp ts sign : string) : value :=
  JObj [("op", JStr "login");
        ("args", JArr [JObj [("apiKey", JStr ak);
                             ("passphrase", JStr pp);
                             ("timestamp", JStr ts);
                             ("sign", JStr sign)]])].

Definition orders_subscription : value :=
  JObj [("op", JStr "subscribe");
        ("args", JArr [JObj [("channel", JStr "orders");
                             ("instType", JStr "SPOT")]])].


(** * Properties *)

(** Unfolds the task combinators so that a task applied to a state
    computes. *)
Ltac run_task :=
  cbv [bind ret raise block lift gets modify emit try_except try_finally
       send rbind rand ok throw json_loads].

(** ** Order-book price lookups *)

(** No snapshot yet: every accessor returns [None]. *)
Lemma latest_bid_price_no_snapshot n i f :
  order_book_deque f = [] -> latest_bid_price n i f = ok JNull.
Proof. intros H. unfold latest_bid_price. now rewrite H. Qed.

(** With a snapshot whose bids are a list shorter than the guard asks
    for, an accessor returns [None]. *)
Lemma latest_bid_price_short n i f kv bids :
  last (order_book_deque f) = Some (JObj kv) ->
  dict_get kv "bids" = Some (JArr bids) ->
  Z.of_nat (length bids) < n ->
  latest_bid_price n i f = ok JNull.
Proof.
  intros Hl Hb Hn. unfold latest_bid_price. rewrite Hl.
  cbn [str_in rand rbind ok getitem len]. rewrite Hb.
  rewrite bool_decide_eq_true_2 by eauto. cbn.
  destruct (Z.leb_spec n (Z.of_nat (length bids))); [lia | reflexivity].
Qed.

(** When the guard passes and the index is inside the bids, an accessor
    returns the first component of the level at that index. *)
Lemma latest_bid_price_at n i f kv bids lvl px :
  last (order_book_deque f) = Some (JObj kv) ->
  dict_get kv "bids" = Some (JArr bids) ->
  n <= Z.of_nat (length bids) ->
  bids !! i = Some (JArr lvl) ->
  lvl !! 0%nat = Some px ->
  latest_bid_price n i f = ok px.
Proof.
  intros Hl Hb Hn Hi Hp. unfold latest_bid_price. rewrite Hl.
  cbn [str_in rand rbind ok getitem len]. rewrite Hb.
  rewrite bool_decide_eq_true_2 by eauto. cbn [rbind ok throw len].
  destruct (Z.leb_spec n (Z.of_nat (length bids))); [| lia].
  cbn [index]. rewrite Hi. cbn [rbind ok index]. rewrite Hp. reflexivity.
Qed.

(** When the guard passes but the bids stop before the index, the lookup
    raises [IndexError]. *)
Lemma latest_bid_price_out_of_range n i f kv bids :
  last (order_book_deque f) = Some (JObj kv) ->
  dict_get kv "bids" = Some (JArr bids) ->
  n <= Z.of_nat (length bids) ->
  (length bids <= i)%nat ->
  latest_bid_price n i f = throw IndexError.
Proof.
  intros Hl Hb Hn Hi. unfold latest_bid_price. rewrite Hl.
  cbn [str_in rand rbind ok getitem len]. rewrite Hb.
  rewrite bool_decide_eq_true_2 by eauto. cbn [rbind ok throw len].
  destruct (Z.leb_spec n (Z.of_nat (length bids))); [| lia].
  cbn [index]. rewrite (lookup_ge_None_2 bids i) by lia. reflexivity.
Qed.

(** C3.  On a snapshot with exactly five bid levels, index 5 of the bids
    is unavailable; [get_latest_bid4_price], whose guard is
    [len(bids) >= 5], does not return [None] there but raises
    [IndexError], while [get_latest_bid0_price] and
    [get_latest_bid2_price] return the prices at indices 0 and 2. *)
Theorem get_latest_bid4_price_five_levels :
  get_latest_bid4_price book_of_five = throw IndexError /\
  get_latest_bid0_price book_of_five = ok (JStr "100.5") /\
  get_latest_bid2_price book_of_five = ok (JStr "100.3").
Proof. repeat split; reflexivity. Qed.

(** ** The status oracle *)

(** A handled failure: the call prints it and returns [None]. *)
Lemma get_order_status_handled {S} (reply : http_result)
    (inst_id cl_ord_id : string) (s : st S) (msg : string) :
  failure reply msg ->
  get_order_status reply inst_id cl_ord_id s =
    (Returned JNull,
     St (self s) (trace s ++ [EHttpGet inst_id cl_ord_id] ++ [EPrint msg])).
Proof.
  intros Hf. unfold get_order_status.
  destruct Hf as [| kv code Hc Hz | kv code od Hc Hz Hd Ht]; run_task; cbn.
  - now rewrite <- app_assoc.
  - cbn in Hc. injection Hc as Hc. rewrite Hc, Hz. cbn. now rewrite <- app_assoc.
  - cbn in Hc, Hd. injection Hc as Hc. injection Hd as Hd.
    rewrite Hc, Hz, Hd, Ht. cbn. now rewrite <- app_assoc.
Qed.

(** A response with the documented envelope makes the call return. *)
Lemma get_order_status_enveloped {S} (reply : http_result)
    (inst_id cl_ord_id : string) (s : st S) :
  enveloped reply ->
  exists state, fst (get_order_status reply inst_id cl_ord_id s) = Returned state.
Proof.
  intros He. unfold get_order_status. destruct reply as [| data].
  - eexists. run_task. cbn. reflexivity.
  - destruct data as [| | | | | kv]; try contradiction. cbn in He. run_task. cbn.
    destruct (eq_str _ "0") eqn:Hz.
    + destruct (He _ _ eq_refl Hz eq_refl) as [Ht | (first & rest & Hd)].
      * rewrite Ht. cbn. eauto.
      * rewrite Hd. cbn. eauto.
    + cbn. eauto.
Qed.

(** C6, as the code has it.  On each handled failure the call returns
    [None] after printing the failure, and leaves the caller's state as it
    was; on every response with the documented envelope the call returns
    and raises nothing. *)
Theorem get_order_status_failure {S} (reply : http_result)
    (inst_id cl_ord_id : string) (s : st S) :
  (forall msg, failure reply msg ->
     get_order_status reply inst_id cl_ord_id s =
       (Returned JNull,
        St (self s) (trace s ++ [EHttpGet inst_id cl_ord_id] ++ [EPrint msg]))) /\
  (enveloped reply ->
     exists state, fst (get_order_status reply inst_id cl_ord_id s) = Returned state).
Proof.
  split.
  - intros msg. apply get_order_status_handled.
  - apply get_order_status_enveloped.
Qed.

Lemma get_order_status_failure_witness :
  failure order_not_found "query failed" /\
  enveloped order_not_found /\
  get_order_status order_not_found "BTC-USDT" "a1" (St tt []) =
    (Returned JNull,
     St tt ([] ++ [EHttpGet "BTC-USDT" "a1"] ++ [EPrint "query failed"])) /\
  (exists state,
     fst (get_order_status order_not_found "BTC-USDT" "a1" (St tt [])) =
       Returned state).
Proof.
  assert (Hf : failure order_not_found "query failed")
    by (eapply nonzero_code; reflexivity).
  assert (He : enveloped order_not_found)
    by (intros code order_data Hc Hz; injection Hc as <-; discriminate Hz).
  split; [exact Hf | split; [exact He |]].
  split.
  - exact (proj1 (get_order_status_failure order_not_found "BTC-USDT" "a1" (St tt []))
                 _ Hf).
  - exact (proj2 (get_order_status_failure order_not_found "BTC-USDT" "a1" (St tt []))
                 He).
Defined.

(** A response whose body is the JSON array [[]]: [data.get("code")]
    raises [AttributeError], which the [except] clause does not name, so
    the exception reaches the caller. *)
Lemma get_order_status_propagates :
  fst (get_order_status (Body (JArr [])) "BTC-USDT" "a1" (St tt [])) =
    Raised AttributeError.
Proof. reflexivity. Qed.

(** ** Relating the state before and after a task

    [preserves R m]: whatever [m] does and however it ends, the object
    after it is related by [R] to the object before it.  For a reflexive
    and transitive [R] this goes through every combinator. *)

Section Preserves.
Context {S : Type} (R : S -> S -> Prop).
Hypothesis R_refl : forall x, R x x.
Hypothesis R_trans : forall x y z, R x y -> R y z -> R x z.

Lemma preserves_ret {A} (a : A) : preserves R (ret a).
Proof. intros s. apply R_refl. Qed.

Lemma preserves_raise {A} e : preserves R (@raise S A e).
Proof. intros s. apply R_refl. Qed.

Lemma preserves_block {A} : preserves R (@block S A).
Proof. intros s. apply R_refl. Qed.

Lemma preserves_lift {A} (r : res A) : preserves R (lift r).
Proof. intros s. destruct r; apply R_refl. Qed.

Lemma preserves_gets {A} (f : S -> A) : preserves R (gets f).
Proof. intros s. apply R_refl. Qed.

Lemma preserves_emit e : preserves R (@emit S e).
Proof. intros s. apply R_refl. Qed.

Lemma preserves_modify f : (forall x, R x (f x)) -> preserves R (modify f).
Proof. intros H s. apply H. Qed.

Lemma preserves_send ws m : preserves R (@send S ws m).
Proof. intros s. destruct ws as [[|]|]; apply R_refl. Qed.

Lemma preserves_bind {A B} (m : task S A) (k : A -> task S B) :
  preserves R m -> (forall a, preserves R (k a)) -> preserves R (bind m k).
Proof.
  intros Hm Hk s. unfold bind. specialize (Hm s).
  destruct (m s) as [[a | e |] s']; cbn in *; try assumption.
  eapply R_trans; [exact Hm | apply Hk].
Qed.

Lemma preserves_try_except {A} (m : task S A) h :
  preserves R m -> (forall e, preserves R (h e)) -> preserves R (try_except m h).
Proof.
  intros Hm Hh s. unfold try_except. specialize (Hm s).
  destruct (m s) as [[a | e |] s']; cbn in *; try assumption.
  eapply R_trans; [exact Hm | apply Hh].
Qed.

Lemma preserves_try_finally {A} (m : task S A) fin :
  preserves R m -> preserves R fin -> preserves R (try_finally m fin).
Proof.
  intros Hm Hf s. unfold try_finally. specialize (Hm s).
  destruct (m s) as [[a | e |] s']; cbn in *; try assumption;
    specialize (Hf s'); destruct (fin s') as [[[] | e' |] s'']; cbn in *;
    eapply R_trans; eassumption.
Qed.

Lemma preserves_for_each {A} (xs : list A) (body : A -> task S unit) :
  (forall x, preserves R (body x)) -> preserves R (for_each xs body).
Proof.
  intros Hb. induction xs as [| x xs IH]; cbn [for_each].
  - apply preserves_ret.
  - apply preserves_bind; [apply Hb | intros _; exact IH].
Qed.

End Preserves.

(** Splits a goal [preserves R m] along the structure of [m], given that
    [R] is reflexive and transitive; what is left are the [modify] steps
    and the calls. *)
Ltac preserves_step Hrefl Htrans :=
  lazymatch goal with
  | |- preserves _ (bind _ _) =>
      apply (preserves_bind _ Htrans); [| intros ?]
  | |- preserves _ (try_except _ _) =>
      apply (preserves_try_except _ Htrans); [| intros ?]
  | |- preserves _ (try_finally _ _) =>
      apply (preserves_try_finally _ Htrans)
  | |- preserves _ (for_each _ _) =>
      apply (preserves_for_each _ Hrefl Htrans); intros ?
  | |- preserves _ (ret _) => apply (preserves_ret _ Hrefl)
  | |- preserves _ (raise _) => apply (preserves_raise _ Hrefl)
  | |- preserves _ block => apply (preserves_block _ Hrefl)
  | |- preserves _ (lift _) => apply (preserves_lift _ Hrefl)
  | |- preserves _ (gets _) => apply (preserves_gets _ Hrefl)
  | |- preserves _ (emit _) => apply (preserves_emit _ Hrefl)
  | |- preserves _ (send _ _) => apply (preserves_send _ Hrefl)
  | |- preserves _ (if ?b then _ else _) => destruct b
  | |- preserves _ (match ?x with _ => _ end) => destruct x
  end.

(** ** Counting trades *)

Lemma trades_counted_refl f : trades_counted f f.
Proof.
  exists []. unfold trades_appended. rewrite !app_nil_r. cbn. repeat split; lia.
Qed.

Lemma trades_counted_trans f g h :
  trades_counted f g -> trades_counted g h -> trades_counted f h.
Proof.
  intros (n1 & D1 & Q1 & C1 & M1) (n2 & D2 & Q2 & C2 & M2).
  exists (n1 ++ n2). unfold trades_appended.
  rewrite D2, D1, Q2, Q1, C2, C1, M2, M1, !app_assoc, length_app.
  repeat split; lia.
Qed.

(** One element of a trades payload: an object is recorded, counted and
    queued; anything else raises before any of the three. *)
Lemma handle_trade_object kv s :
  exists info,
    trade_info_of (JObj kv) = ok info /\
    handle_trade (JObj kv) s =
      (Returned tt,
       St (set_trade_queue (trade_queue (self s) ++ [info])
             (set_message_count (message_count (self s) + 1)
                (set_data_deque (data_deque (self s) ++ [info]) (self s))))
          (trace s ++ [ELog INFO "Added trade info"])).
Proof. eexists. split; reflexivity. Qed.

Lemma handle_trade_other trade s :
  (forall kv, trade <> JObj kv) ->
  handle_trade trade s = (Raised AttributeError, s).
Proof. intros H. destruct trade; try reflexivity. now destruct (H kv). Qed.

Lemma handle_trade_counted trade : preserves trades_counted (handle_trade trade).
Proof.
  intros s. destruct trade as [| | | | | kv];
    try (rewrite handle_trade_other by discriminate; apply trades_counted_refl).
  destruct (handle_trade_object kv s) as (info & _ & ->). cbn.
  exists [info]. repeat split; cbn; lia.
Qed.

Ltac counted_step := preserves_step trades_counted_refl trades_counted_trans.

Ltac counted_modify :=
  apply preserves_modify; intros ?; exists []; unfold trades_appended; cbn;
  rewrite ?app_nil_r; repeat split; lia.

Lemma handle_trade_message_counted trade_data :
  preserves trades_counted (handle_trade_message trade_data).
Proof.
  unfold handle_trade_message. repeat counted_step. apply handle_trade_counted.
Qed.

Lemma handle_order_book_message_counted d :
  preserves trades_counted (handle_order_book_message d).
Proof.
  unfold handle_order_book_message. repeat counted_step; counted_modify.
Qed.

Lemma process_message_counted message :
  preserves trades_counted (process_message message).
Proof.
  unfold process_message.
  repeat first [ apply handle_trade_message_counted
               | apply handle_order_book_message_counted
               | counted_step ].
Qed.

Lemma check_cap_counted : preserves trades_counted check_cap.
Proof. unfold check_cap. repeat counted_step; counted_modify. Qed.

Lemma read_frames_counted fs closing :
  preserves trades_counted (read_frames fs closing).
Proof.
  induction fs as [| response fs IH]; cbn [read_frames];
    repeat first [ apply process_message_counted | apply check_cap_counted
                 | exact IH | counted_step | counted_modify ].
Qed.

Lemma subscribe_to_trades_counted : preserves trades_counted subscribe_to_trades.
Proof. unfold subscribe_to_trades. repeat counted_step. Qed.

Lemma subscribe_to_orderbook_counted :
  preserves trades_counted subscribe_to_orderbook.
Proof. unfold subscribe_to_orderbook. repeat counted_step. Qed.

Lemma connect_once_counted c : preserves trades_counted (connect_once c).
Proof.
  unfold connect_once, connection_attempt, backoff.
  repeat first [ apply read_frames_counted | apply subscribe_to_trades_counted
               | apply subscribe_to_orderbook_counted
               | counted_step | counted_modify ].
Qed.

Lemma connect_counted net : preserves trades_counted (connect net).
Proof.
  induction net as [| c net IH]; cbn [connect];
    repeat first [ apply connect_once_counted | exact IH | counted_step ].
Qed.

(** A payload of objects is recorded whole. *)
Lemma for_each_handle_trade_objects trades :
  Forall is_object trades ->
  forall s, exists new,
    length new = length trades /\
    fst (for_each trades handle_trade s) = Returned tt /\
    trades_appended new (self s) (self (snd (for_each trades handle_trade s))).
Proof.
  induction 1 as [| trade trades [kv ->] _ IH]; intros s.
  - exists []. unfold trades_appended. cbn. rewrite !app_nil_r.
    repeat split; first [reflexivity | lia].
  - cbn [for_each]. unfold bind.
    destruct (handle_trade_object kv s) as (info & _ & ->). cbv beta iota.
    match goal with |- context [for_each trades handle_trade ?s1] =>
      destruct (IH s1) as (new & Hlen & Hret & D & Q & C & M) end.
    exists (info :: new). split; [cbn; lia |]. split; [exact Hret |].
    unfold trades_appended. rewrite D, Q, C, M. cbn.
    rewrite <- !app_assoc. cbn. repeat split; first [reflexivity | lia].
Qed.

Lemma run_counted net : preserves trades_counted (run net).
Proof.
  unfold run. repeat first [ apply connect_counted | counted_step ].
Qed.

(** What [process_message] does with a trades frame is what the loop of
    [handle_trade_message] does with its payload, when that loop returns. *)
Lemma process_message_trades trades s :
  fst (for_each trades handle_trade s) = Returned tt ->
  process_message (trades_frame trades) s = for_each trades handle_trade s.
Proof.
  intros H. unfold process_message, trades_frame, handle_trade_message.
  run_task. cbn.
  destruct (for_each trades handle_trade s) as [[[] | e |] s']; cbn in *;
    congruence.
Qed.

(** C10.  Over any run, from any state, the counter advances by the
    number of trade records appended to the deque, and the same records
    are put on the output queue; a trades frame carrying [k] objects
    advances the counter by [k]; with a cap of 1, a first frame carrying
    two trades stops the run with the counter at 2. *)
Theorem message_count_counts_trades :
  (forall net s, exists new,
     data_deque (self (snd (run net s))) = data_deque (self s) ++ new /\
     trade_queue (self (snd (run net s))) = trade_queue (self s) ++ new /\
     message_count (self (snd (run net s))) =
       message_count (self s) + Z.of_nat (length new)) /\
  (forall trades s, Forall is_object trades ->
     message_count (self (snd (process_message (trades_frame trades) s))) =
       message_count (self s) + Z.of_nat (length trades)) /\
  (let s := snd (run [two_trades_in_one_frame]
                     (St (MarketDataFetcher.init "BTC-USDT" (Some 1)) [])) in
   fst (run [two_trades_in_one_frame]
            (St (MarketDataFetcher.init "BTC-USDT" (Some 1)) [])) = Returned tt /\
   stop_flag (self s) = true /\
   message_count (self s) = 2 /\
   length (data_deque (self s)) = 2%nat /\
   length (trade_queue (self s)) = 2%nat).
Proof.
  split; [| split].
  - intros net s. destruct (run_counted net s) as (new & D & Q & C & _).
    exists new. auto.
  - intros trades s H.
    destruct (for_each_handle_trade_objects trades H s)
      as (new & Hlen & Hret & _ & _ & C & _).
    rewrite (process_message_trades _ _ Hret), C, Hlen. reflexivity.
  - cbn zeta. repeat split; reflexivity.
Qed.

(** A frame of two trades, where the hypothesis of
    [message_count_counts_trades] holds. *)
Lemma message_count_counts_trades_witness :
  Forall is_object [trade "1" "buy"; trade "2" "sell"] /\
  message_count
    (self (snd (process_message
                  (trades_frame [trade "1" "buy"; trade "2" "sell"])
                  (St (MarketDataFetcher.init "BTC-USDT" (Some 50)) [])))) =
    0 + Z.of_nat (length [trade "1" "buy"; trade "2" "sell"]).
Proof.
  assert (H : Forall is_object [trade "1" "buy"; trade "2" "sell"])
    by (repeat constructor; eexists; reflexivity).
  split; [exact H |].
  exact (proj1 (proj2 message_count_counts_trades) _
           (St (MarketDataFetcher.init "BTC-USDT" (Some 50)) []) H).
Defined.

(** ** Tasks that never wait

    [unblocked m]: [m] completes from every state, by returning or by
    raising.  [returns m]: it completes by returning. *)

Section Unblocked.
Context {S : Type}.

Lemma returns_unblocked {A} (m : task S A) : returns m -> unblocked m.
Proof. intros H s. destruct (H s) as [a ->]. discriminate. Qed.

Lemma unblocked_ret {A} (a : A) : unblocked (@ret S A a).
Proof. intros s. discriminate. Qed.

Lemma unblocked_raise {A} e : unblocked (@raise S A e).
Proof. intros s. discriminate. Qed.

Lemma unblocked_lift {A} (r : res A) : unblocked (@lift S A r).
Proof. intros s. destruct r; discriminate. Qed.

Lemma unblocked_gets {A} (f : S -> A) : unblocked (gets f).
Proof. intros s. discriminate. Qed.

Lemma unblocked_modify (f : S -> S) : unblocked (modify f).
Proof. intros s. discriminate. Qed.

Lemma unblocked_emit e : unblocked (@emit S e).
Proof. intros s. discriminate. Qed.

Lemma unblocked_send ws m : unblocked (@send S ws m).
Proof. intros s. destruct ws as [[|]|]; discriminate. Qed.

Lemma unblocked_bind {A B} (m : task S A) (k : A -> task S B) :
  unblocked m -> (forall a, unblocked (k a)) -> unblocked (bind m k).
Proof.
  intros Hm Hk s. unfold bind. specialize (Hm s).
  destruct (m s) as [[a | e |] s']; cbn in *; first [apply Hk | congruence].
Qed.

Lemma unblocked_try_except {A} (m : task S A) h :
  unblocked m -> (forall e, unblocked (h e)) -> unblocked (try_except m h).
Proof.
  intros Hm Hh s. unfold try_except. specialize (Hm s).
  destruct (m s) as [[a | e |] s']; cbn in *; first [apply Hh | congruence].
Qed.

Lemma unblocked_for_each {A} (xs : list A) (body : A -> task S unit) :
  (forall x, unblocked (body x)) -> unblocked (for_each xs body).
Proof.
  intros Hb. induction xs as [| x xs IH]; cbn [for_each].
  - apply unblocked_ret.
  - apply unblocked_bind; [apply Hb | intros _; exact IH].
Qed.

(** A [try] whose body never waits and whose handlers return, returns,
    when the body can only return the unit. *)
Lemma returns_try_except (m : task S unit) h :
  unblocked m -> (forall e, returns (h e)) -> returns (try_except m h).
Proof.
  intros Hm Hh s. unfold try_except. specialize (Hm s).
  destruct (m s) as [[[] | e |] s']; cbn in *; try congruence.
  - now exists tt.
  - apply Hh.
Qed.

Lemma returns_emit e : returns (@emit S e).
Proof. intros s. now exists tt. Qed.

End Unblocked.

Ltac unblocked_step :=
  lazymatch goal with
  | |- unblocked (bind _ _) => apply unblocked_bind; [| intros ?]
  | |- unblocked (try_except _ _) => apply unblocked_try_except; [| intros ?]
  | |- unblocked (for_each _ _) => apply unblocked_for_each; intros ?
  | |- unblocked (ret _) => apply unblocked_ret
  | |- unblocked (raise _) => apply unblocked_raise
  | |- unblocked (lift _) => apply unblocked_lift
  | |- unblocked (gets _) => apply unblocked_gets
  | |- unblocked (modify _) => apply unblocked_modify
  | |- unblocked (emit _) => apply unblocked_emit
  | |- unblocked (send _ _) => apply unblocked_send
  | |- unblocked (if ?b then _ else _) => destruct b
  | |- unblocked (match ?x with _ => _ end) => destruct x
  end.

(** ** The message cap *)

(** [process_message] always returns: its [except] clauses catch
    everything and only log. *)
Lemma process_message_returns message : returns (process_message message).
Proof.
  unfold process_message. apply returns_try_except.
  - unfold handle_trade_message, handle_trade, handle_order_book_message.
    repeat unblocked_step.
  - intros e. destruct e; apply returns_emit.
Qed.

Lemma same_controls_refl f : same_controls f f.
Proof. repeat split. Qed.

Lemma same_controls_trans f g h :
  same_controls f g -> same_controls g h -> same_controls f h.
Proof. intros (A1 & B1 & C1) (A2 & B2 & C2). repeat split; congruence. Qed.

Lemma process_message_controls message :
  preserves same_controls (process_message message).
Proof.
  unfold process_message, handle_trade_message, handle_trade,
    handle_order_book_message.
  repeat first
    [ preserves_step same_controls_refl same_controls_trans
    | apply preserves_modify; intros ?; repeat split ].
Qed.



Lemma after_frame_controls response s :
  same_controls (self s) (self (after_frame response s)).
Proof.
  unfold after_frame.
  exact (process_message_controls response (snd (emit (ERecv response) s))).
Qed.

(** The inner loop on a frame, while the flag is clear: the frame is
    processed, then the counter is compared with the cap. *)
Lemma read_frames_step response fs closing s :
  stop_flag (self s) = false ->
  read_frames (response :: fs) closing s =
    bind check_cap (fun _ => read_frames fs closing) (after_frame response s).
Proof.
  intros Hstop. cbn [read_frames]. unfold after_frame.
  unfold bind at 1. unfold gets at 1. cbv beta iota. rewrite Hstop.
  unfold bind at 1. cbn [emit]. cbv beta iota.
  unfold bind at 1.
  destruct (process_message_returns response
              (snd (emit (ERecv response) s))) as [[] Hr].
  cbn [emit snd] in *.
  destruct (process_message response _) as [o s1]. cbn in Hr. subst o.
  reflexivity.
Qed.

Lemma read_frames_stopped fs closing s :
  stop_flag (self s) = true -> read_frames fs closing s = (Returned tt, s).
Proof.
  intros H. destruct fs; cbn [read_frames]; unfold bind, gets; cbv beta iota;
    rewrite H; reflexivity.
Qed.

Lemma connect_stopped net s :
  stop_flag (self s) = true -> connect net s = (Returned tt, s).
Proof.
  intros H. destruct net; cbn [connect]; unfold bind, gets; cbv beta iota;
    rewrite H; reflexivity.
Qed.

Lemma run_stopped net s :
  stop_flag (self s) = true -> run net s = (Returned tt, s).
Proof.
  intros H. unfold run, bind, gets. cbv beta iota. rewrite H. reflexivity.
Qed.




(** ** Traces only grow *)

Section Grows.
Context {S : Type}.

Lemma grows_ret {A} (a : A) : grows (@ret S A a).
Proof. intros s. exists []. cbn. now rewrite app_nil_r. Qed.

Lemma grows_raise {A} e : grows (@raise S A e).
Proof. intros s. exists []. cbn. now rewrite app_nil_r. Qed.

Lemma grows_block {A} : grows (@block S A).
Proof. intros s. exists []. cbn. now rewrite app_nil_r. Qed.

Lemma grows_lift {A} (r : res A) : grows (@lift S A r).
Proof. destruct r; [apply grows_raise | apply grows_ret]. Qed.

Lemma grows_gets {A} (f : S -> A) : grows (gets f).
Proof. intros s. exists []. cbn. now rewrite app_nil_r. Qed.

Lemma grows_modify (f : S -> S) : grows (modify f).
Proof. intros s. exists []. cbn. now rewrite app_nil_r. Qed.

Lemma grows_emit e : grows (@emit S e).
Proof. intros s. now exists [e]. Qed.

Lemma grows_send ws m : grows (@send S ws m).
Proof.
  destruct ws as [[|]|]; [apply grows_emit | apply grows_raise | apply grows_raise].
Qed.

Lemma grows_bind {A B} (m : task S A) (k : A -> task S B) :
  grows m -> (forall a, grows (k a)) -> grows (bind m k).
Proof.
  intros Hm Hk s. unfold bind. destruct (Hm s) as [l Hl].
  destruct (m s) as [[a | e |] s']; cbn in *; eauto.
  destruct (Hk a s') as [l' Hl']. exists (l ++ l').
  now rewrite Hl', Hl, app_assoc.
Qed.

Lemma grows_try_except {A} (m : task S A) h :
  grows m -> (forall e, grows (h e)) -> grows (try_except m h).
Proof.
  intros Hm Hh s. unfold try_except. destruct (Hm s) as [l Hl].
  destruct (m s) as [[a | e |] s']; cbn in *; eauto.
  destruct (Hh e s') as [l' Hl']. exists (l ++ l').
  now rewrite Hl', Hl, app_assoc.
Qed.

Lemma grows_for_each {A} (xs : list A) (body : A -> task S unit) :
  (forall x, grows (body x)) -> grows (for_each xs body).
Proof.
  intros Hb. induction xs as [| x xs IH]; cbn [for_each].
  - apply grows_ret.
  - apply grows_bind; [apply Hb | intros _; exact IH].
Qed.

End Grows.

Ltac grows_step :=
  lazymatch goal with
  | |- grows (bind _ _) => apply grows_bind; [| intros ?]
  | |- grows (try_except _ _) => apply grows_try_except; [| intros ?]
  | |- grows (for_each _ _) => apply grows_for_each; intros ?
  | |- grows (ret _) => apply grows_ret
  | |- grows (raise _) => apply grows_raise
  | |- grows block => apply grows_block
  | |- grows (lift _) => apply grows_lift
  | |- grows (gets _) => apply grows_gets
  | |- grows (modify _) => apply grows_modify
  | |- grows (emit _) => apply grows_emit
  | |- grows (send _ _) => apply grows_send
  | |- grows (if ?b then _ else _) => destruct b
  | |- grows (match ?x with _ => _ end) => destruct x
  end.

Lemma process_message_grows message : grows (process_message message).
Proof.
  unfold process_message, handle_trade_message, handle_trade,
    handle_order_book_message.
  repeat grows_step.
Qed.

Lemma read_frames_grows fs closing : grows (read_frames fs closing).
Proof.
  induction fs as [| response fs IH]; cbn [read_frames]; unfold check_cap;
    repeat first [ apply process_message_grows | exact IH | grows_step ].
Qed.

(** ** Reconnecting *)

Lemma backoff_spec e s :
  backoff e s =
    (Returned tt, St (self s) (trace s ++ [ELog ERROR (backoff_text e); ESleep 2])).
Proof. destruct e; cbn; unfold bind, emit; cbn; now rewrite <- app_assoc. Qed.

(** Whatever socket the connection gave, both subscriptions are tried
    and the loop over the frames starts. *)
Lemma connection_attempt_resubscribes c ws s :
  connected c = ok ws ->
  connection_attempt c s =
    read_frames (frames c) (closing c)
      (St (set_public_websocket (Some ws) (self s))
          (trace s ++ resubscription ws (instId (self s)))).
Proof.
  intros H. unfold connection_attempt, subscribe_to_trades,
    subscribe_to_orderbook. rewrite H. run_task. cbn.
  destruct ws; cbn; rewrite <- !app_assoc; reflexivity.
Qed.

(** C8, as the code has it.  When a connection attempt ends with an
    exception, whichever it is and however many came before, [connect]
    logs it, sleeps 2 and goes round its loop again with the next
    connection.  On every connection that is made, both subscriptions are
    tried before the first frame is read: on an open socket the trades
    request and then the books request are sent, and all that follows on
    the trace comes after them; on a socket that does not take them the
    two failures are logged and the frames are read all the same. *)
Theorem reconnect_after_backoff :
  (forall c net s e s',
     stop_flag (self s) = false ->
     connection_attempt c s = (Raised e, s') ->
     connect_once c s =
       (Returned tt,
        St (self s') (trace s' ++ [ELog ERROR (backoff_text e); ESleep 2])) /\
     connect (c :: net) s =
       connect net
         (St (self s') (trace s' ++ [ELog ERROR (backoff_text e); ESleep 2]))) /\
  (forall c ws s,
     connected c = ok ws ->
     connection_attempt c s =
       read_frames (frames c) (closing c)
         (St (set_public_websocket (Some ws) (self s))
             (trace s ++ resubscription ws (instId (self s)))) /\
     exists rest,
       trace (snd (connect_once c s)) =
         trace s ++ resubscription ws (instId (self s)) ++ rest) /\
  (forall symbol m,
     In (ESend m) (resubscription Open symbol) <->
     m = trades_request symbol \/ m = books_request symbol) /\
  (forall symbol m, ~ In (ESend m) (resubscription Closed symbol)).
Proof.
  split; [| split; [| split]].
  - intros c net s e s' Hstop Hraise.
    assert (Honce : connect_once c s =
              (Returned tt,
               St (self s') (trace s' ++ [ELog ERROR (backoff_text e); ESleep 2]))).
    { unfold connect_once, try_except. rewrite Hraise. apply backoff_spec. }
    split; [exact Honce |].
    cbn [connect]. unfold bind at 1. unfold gets at 1. cbv beta iota.
    rewrite Hstop. unfold bind at 1. rewrite Honce. reflexivity.
  - intros c ws s Hc. split; [now apply connection_attempt_resubscribes |].
    unfold connect_once, try_except.
    rewrite (connection_attempt_resubscribes c ws s Hc).
    destruct (read_frames_grows (frames c) (closing c)
                (St (set_public_websocket (Some ws) (self s))
                    (trace s ++ resubscription ws (instId (self s)))))
      as [l Hl].
    destruct (read_frames _ _ _) as [[[] | e |] s1]; cbn [snd trace] in *.
    + exists l. now rewrite Hl, <- app_assoc.
    + rewrite backoff_spec. cbn [snd trace].
      exists (l ++ [ELog ERROR (backoff_text e); ESleep 2]).
      now rewrite Hl, <- !app_assoc.
    + exists l. now rewrite Hl, <- app_assoc.
  - intros symbol m. cbn. split.
    + intros [H | [H | [H | [H | [H | [H | []]]]]]]; try discriminate H;
        injection H as <-; auto.
    + intros [-> | ->]; auto 10.
  - intros symbol m. cbn. intros [H | [H | [H | [H | []]]]]; discriminate H.
Qed.

(** The dropped connection, where the hypotheses of
    [reconnect_after_backoff] hold: the attempt raises
    [ConnectionClosed] after one trade, and the next connection is tried
    after a sleep of 2. *)
Lemma reconnect_after_backoff_witness :
  stop_flag (self capped_at_two) = false /\
  connected dropped_connection = ok Open /\
  trace (snd (connect_once dropped_connection capped_at_two)) =
    resubscription Open "BTC-USDT" ++
    [ERecv frame_of_one; ELog INFO "Added trade info";
     ELog ERROR "WebSocket connection closed with error"; ESleep 2] /\
  connect [dropped_connection; two_trades_in_one_frame] capped_at_two =
    connect [two_trades_in_one_frame]
      (snd (connect_once dropped_connection capped_at_two)) /\
  (exists rest,
     trace (snd (connect_once dropped_connection capped_at_two)) =
       trace capped_at_two ++ resubscription Open "BTC-USDT" ++ rest).
Proof.
  pose proof reconnect_after_backoff as (Hback & Hsub & _).
  destruct (Hback dropped_connection [two_trades_in_one_frame] capped_at_two
              ConnectionClosed
              (snd (connection_attempt dropped_connection capped_at_two))
              eq_refl eq_refl) as [Honce Hloop].
  split; [reflexivity | split; [reflexivity |]].
  split; [rewrite Honce; reflexivity |].
  split; [rewrite Hloop, Honce; reflexivity |].
  exact (proj2 (Hsub dropped_connection Open capped_at_two eq_refl)).
Defined.

(** On a connection whose socket is closed when the requests are sent,
    neither request goes out, and the frame that is waiting is read and
    its trade recorded all the same: frame consumption resumes without
    the subscriptions having been resent. *)
Lemma resubscription_can_fail :
  trace (snd (connect_once closed_at_once capped_at_two)) =
    [EConnect;
     ELog INFO "Public WebSocket connection established";
     ELog ERROR "Failed to subscribe";
     ELog ERROR "Failed to subscribe to order book";
     ERecv frame_of_one;
     ELog INFO "Added trade info";
     ELog ERROR "WebSocket connection closed with error";
     ESleep 2] /\
  message_count (self (snd (connect_once closed_at_once capped_at_two))) = 1.
Proof. split; reflexivity. Qed.

(** ** The order registry *)

Lemma registry_kept_refl t : registry_kept t t.
Proof. repeat split; auto. Qed.

Lemma registry_kept_trans t u v :
  registry_kept t u -> registry_kept u v -> registry_kept t v.
Proof.
  intros (A1 & B1 & C1 & D1 & E1) (A2 & B2 & C2 & D2 & E2).
  repeat split; [set_solver | auto | congruence | congruence | congruence].
Qed.

Lemma is_Some_insert_orders (os : gmap string order) c o c' :
  is_Some (os !! c') -> is_Some (<[c := o]> os !! c').
Proof.
  intros H. destruct (decide (c = c')) as [-> | Hne].
  - rewrite lookup_insert_eq. eauto.
  - now rewrite lookup_insert_ne.
Qed.

Lemma queue_get_kept c : preserves registry_kept (queue_get c).
Proof.
  intros s. unfold queue_get. run_task. cbn.
  destruct (orders (self s) !! c) as [o |]; [| apply registry_kept_refl].
  destruct (message_queue o); [apply registry_kept_refl |].
  cbn. repeat split; auto. intros c'. apply is_Some_insert_orders.
Qed.

Lemma queue_put_kept c data : preserves registry_kept (queue_put c data).
Proof.
  intros s. unfold queue_put. run_task. cbn.
  destruct (orders (self s) !! c) as [o |]; [| apply registry_kept_refl].
  cbn. repeat split; auto. intros c'. apply is_Some_insert_orders.
Qed.

Lemma assign_status_kept c x : preserves registry_kept (assign_status c x).
Proof.
  intros s. unfold assign_status. run_task. cbn.
  destruct (orders (self s) !! c) as [o |]; [| apply registry_kept_refl].
  cbn. repeat split; auto. intros c'. apply is_Some_insert_orders.
Qed.

Ltac kept_step := preserves_step registry_kept_refl registry_kept_trans.

Lemma submit_order_kept c sym sd px sz ot :
  preserves registry_kept (submit_order c sym sd px sz ot).
Proof.
  unfold submit_order. repeat first [ apply queue_get_kept | kept_step ].
Qed.

Lemma cancel_order_kept c : preserves registry_kept (cancel_order c).
Proof.
  unfold cancel_order.
  repeat first [ apply queue_get_kept | apply assign_status_kept | kept_step ].
Qed.

Lemma get_order_status_kept reply i c :
  preserves registry_kept (@get_order_status OkxSimulatedTrader reply i c).
Proof. unfold get_order_status. repeat kept_step. Qed.

Lemma process_order_kept http c sym sd px sz ot :
  preserves registry_kept (process_order http c sym sd px sz ot).
Proof.
  unfold process_order, wait_then_cancel, forget_task.
  repeat first [ apply submit_order_kept | apply cancel_order_kept
               | apply get_order_status_kept | apply assign_status_kept
               | kept_step ].
  apply preserves_modify. intros t. repeat split; auto. cbn. set_solver.
Qed.

Lemma route_kept data order : preserves registry_kept (route data order).
Proof.
  unfold route. repeat first [ apply queue_put_kept | kept_step ].
Qed.

Lemma consume_message_kept message :
  preserves registry_kept (consume_message message).
Proof.
  unfold consume_message. repeat first [ apply route_kept | kept_step ].
Qed.

Lemma registry_ok_kept t t' :
  registry_ok t -> registry_kept t t' -> registry_ok t'.
Proof. intros Hok (Hsub & Hdom & _) c Hc. apply Hdom, Hok, Hsub, Hc. Qed.


(** *** Completion removes the task entry *)



(** *** The consumer *)








(** *** Delivery *)








(** *** A session with one order *)

Example generate_clordid_first : generate_clordid 0 always_first = "a".
Proof. reflexivity. Qed.

Example one_order_tasks : order_tasks (self one_order) = {["a"]}.
Proof. cbn. set_solver. Qed.

Example one_order_mailbox : mailbox "a" (self one_order) = Some [].
Proof. vm_compute. reflexivity. Qed.





(** ** The order lifecycle *)

Lemma grows_try_finally {S A} (m : task S A) fin :
  grows m -> grows fin -> grows (try_finally m fin).
Proof.
  intros Hm Hf s. unfold try_finally. destruct (Hm s) as [l Hl].
  destruct (m s) as [[a | e |] s']; cbn in *; eauto;
    destruct (Hf s') as [l' Hl']; destruct (fin s') as [[[] | e' |] s''];
    cbn in *; exists (l ++ l'); now rewrite Hl', Hl, app_assoc.
Qed.

Lemma queue_get_grows c : grows (queue_get c).
Proof. unfold queue_get. repeat grows_step. Qed.

Lemma assign_status_grows c x : grows (assign_status c x).
Proof. unfold assign_status. repeat grows_step. Qed.

Lemma cancel_order_grows c : grows (cancel_order c).
Proof.
  unfold cancel_order.
  repeat first [ apply queue_get_grows | apply assign_status_grows | grows_step ].
Qed.

Lemma get_order_status_grows {S} reply i c :
  grows (@get_order_status S reply i c).
Proof. unfold get_order_status. repeat grows_step. Qed.

(** [submit_order] when the connection is open and an acknowledgment that
    is an object is first in the order's mailbox: the acknowledgment is
    taken from the mailbox, and the result is whether its code is ["0"].
    Nothing else of the order changes. *)
Lemma submit_order_acknowledged c sym sd px sz ot s o kv rest :
  private_websocket (self s) = Some Open ->
  orders (self s) !! c = Some o ->
  message_queue o = JObj kv :: rest ->
  submit_order c sym sd px sz ot s =
    let accepted :=
      match dict_get kv "code" with
      | Some code => eq_str code "0"
      | None => false
      end in
    (Returned accepted,
     St (set_orders (<[c := set_message_queue rest o]> (orders (self s))) (self s))
        (trace s ++ submission (user_id (self s)) c sym sd px sz ot ++
           [if accepted then ELog INFO "Order placed successfully"
            else ELog ERROR "Failed to place order"])).
Proof.
  intros Hws Ho Hq. unfold submit_order, queue_get. run_task. cbn.
  rewrite Hws. cbn. rewrite Ho, Hq. cbn.
  destruct (dict_get kv "code") as [code |]; cbn.
  - destruct (eq_str code "0"); cbn; rewrite <- !app_assoc; reflexivity.
  - rewrite <- !app_assoc. reflexivity.
Qed.

Lemma try_finally_bind {S A B} (m : task S A) (k : A -> task S B) fin s a s1 :
  m s = (Returned a, s1) ->
  try_finally (bind m k) fin s = try_finally (k a) fin s1.
Proof. intros H. unfold try_finally, bind. now rewrite H. Qed.

Lemma wait_then_cancel_grows http c sym : grows (wait_then_cancel http c sym).
Proof.
  unfold wait_then_cancel.
  repeat first [ apply get_order_status_grows | apply cancel_order_grows
               | apply assign_status_grows | grows_step ].
Qed.

Lemma forget_task_grows c : grows (forget_task c).
Proof. unfold forget_task. repeat grows_step. Qed.

(** Whatever happens after it, step 2 of [process_order] starts with the
    sleep. *)
Lemma wait_then_cancel_sleeps http c sym s :
  exists later,
    trace (snd (try_finally (wait_then_cancel http c sym) (forget_task c) s)) =
      trace s ++ [ESleep (order_timeout (self s))] ++ later.
Proof.
  unfold wait_then_cancel.
  match goal with
  | |- context [try_finally (bind _ (fun _ => bind _ (fun _ => ?k))) _ _] =>
      assert (Hk : grows k)
        by (repeat first [ apply get_order_status_grows | apply cancel_order_grows
                         | apply assign_status_grows | grows_step ]);
      destruct (grows_try_finally k (forget_task c) Hk (forget_task_grows c)
                  (St (self s) (trace s ++ [ESleep (order_timeout (self s))])))
        as [later Hlater];
      exists later; cbn [trace] in Hlater; rewrite <- app_assoc in Hlater;
      rewrite <- Hlater
  end.
  reflexivity.
Qed.

(** C2, as the code has it.  For an order whose submission
    acknowledgment arrives: if its code is ["0"], [submit_order] returns
    [True] and the timeout sleep starts after that, the first thing
    [process_order] does next; if its code is anything else,
    [process_order] logs the failure and completes with no sleep, no
    oracle query and no cancel request, only the task entry removed.  In
    both cases the order's status is left as it was. *)
Theorem submission_acknowledged http c sym sd px sz ot s o kv rest :
  private_websocket (self s) = Some Open ->
  orders (self s) !! c = Some o ->
  message_queue o = JObj kv :: rest ->
  (code_is_zero kv = true ->
   submit_order c sym sd px sz ot s =
     (Returned true,
      acknowledged c o rest s
        (submission (user_id (self s)) c sym sd px sz ot ++
           [ELog INFO "Order placed successfully"])) /\
   status_of c (self (snd (submit_order c sym sd px sz ot s))) = Some (status o) /\
   exists later,
     trace (snd (process_order http c sym sd px sz ot s)) =
       trace s ++ submission (user_id (self s)) c sym sd px sz ot ++
         [ELog INFO "Order placed successfully"; ESleep (order_timeout (self s))] ++
         later) /\
  (code_is_zero kv = false ->
   process_order http c sym sd px sz ot s =
     (Returned tt,
      St (set_order_tasks (order_tasks (self s) ∖ {[c]})
            (self (acknowledged c o rest s [])))
         (trace s ++ submission (user_id (self s)) c sym sd px sz ot ++
            [ELog ERROR "Failed to place order";
             ELog ERROR "Order failed to place. Skipping further processing.";
             ELog INFO "Task for order completed"])) /\
   status_of c (self (snd (process_order http c sym sd px sz ot s))) =
     Some (status o)).
Proof.
  intros Hws Ho Hq.
  pose proof (submit_order_acknowledged c sym sd px sz ot s o kv rest Hws Ho Hq)
    as Hsub. cbv zeta in Hsub. fold (code_is_zero kv) in Hsub.
  split; intros Hcode; rewrite Hcode in Hsub.
  - split; [exact Hsub |]. split.
    + rewrite Hsub. unfold status_of. cbn. now rewrite lookup_insert_eq.
    + unfold process_order. rewrite (try_finally_bind _ _ _ _ _ _ Hsub).
      cbn [negb].
      destruct (wait_then_cancel_sleeps http c sym
                  (acknowledged c o rest s
                     (submission (user_id (self s)) c sym sd px sz ot ++
                        [ELog INFO "Order placed successfully"])))
        as [later Hlater].
      exists later. etransitivity; [exact Hlater |].
      cbn [acknowledged trace self]. rewrite <- !app_assoc. reflexivity.
  - assert (Hrun : process_order http c sym sd px sz ot s =
      (Returned tt,
       St (set_order_tasks (order_tasks (self s) ∖ {[c]})
             (self (acknowledged c o rest s [])))
          (trace s ++ submission (user_id (self s)) c sym sd px sz ot ++
             [ELog ERROR "Failed to place order";
              ELog ERROR "Order failed to place. Skipping further processing.";
              ELog INFO "Task for order completed"]))).
    { unfold process_order. rewrite (try_finally_bind _ _ _ _ _ _ Hsub).
      cbn. rewrite <- !app_assoc. reflexivity. }
    split; [exact Hrun |].
    rewrite Hrun. unfold status_of. cbn. now rewrite lookup_insert_eq.
Qed.

Example accepted_order_record :
  orders (self accepted_order) !! "a" = Some (order_a [JObj (ack "0" "")]).
Proof. vm_compute. reflexivity. Qed.

Example rejected_order_record :
  orders (self rejected_order) !! "a" =
    Some (order_a [JObj (ack "1" "Insufficient balance")]).
Proof. vm_compute. reflexivity. Qed.

(** The accepted and the rejected order, where the hypotheses of
    [submission_acknowledged] hold. *)
Lemma submission_acknowledged_witness :
  (fst (submit_order "a" "BTC-USDT" "buy" (JStr "100.5") (JStr "0.001")
          "post_only" accepted_order) = Returned true /\
   status_of "a"
     (self (snd (submit_order "a" "BTC-USDT" "buy" (JStr "100.5")
                   (JStr "0.001") "post_only" accepted_order))) =
     Some (JStr "pending")) /\
  (fst (process_order unreachable_oracle "a" "BTC-USDT" "buy" (JStr "100.5")
          (JStr "0.001") "post_only" rejected_order) = Returned tt /\
   status_of "a" (self after_rejection) = Some (JStr "pending")).
Proof.
  split.
  - destruct (proj1 (submission_acknowledged unreachable_oracle "a" "BTC-USDT"
                       "buy" (JStr "100.5") (JStr "0.001") "post_only"
                       accepted_order _ (ack "0" "") []
                       eq_refl accepted_order_record eq_refl) eq_refl)
      as (Hsub & Hstatus & _).
    split; [rewrite Hsub; reflexivity | exact Hstatus].
  - destruct (proj2 (submission_acknowledged unreachable_oracle "a" "BTC-USDT"
                       "buy" (JStr "100.5") (JStr "0.001") "post_only"
                       rejected_order _ (ack "1" "Insufficient balance") []
                       eq_refl rejected_order_record eq_refl) eq_refl)
      as (Hrun & Hstatus).
    split; [rewrite Hrun; reflexivity | exact Hstatus].
Defined.

(** Neither acknowledgment changes the status: after the acceptance it
    is still ['pending'], not ['submitted'], when the sleep starts, and
    after the rejection the completed task leaves it ['pending'], not
    ['failed']. *)
Lemma submission_leaves_status_pending :
  (fst (submit_order "a" "BTC-USDT" "buy" (JStr "100.5") (JStr "0.001")
          "post_only" accepted_order) = Returned true /\
   status_of "a"
     (self (snd (submit_order "a" "BTC-USDT" "buy" (JStr "100.5")
                   (JStr "0.001") "post_only" accepted_order))) <>
     Some (JStr "submitted")) /\
  (fst (process_order unreachable_oracle "a" "BTC-USDT" "buy" (JStr "100.5")
          (JStr "0.001") "post_only" rejected_order) = Returned tt /\
   status_of "a" (self after_rejection) <> Some (JStr "failed")).
Proof. repeat split; vm_compute; congruence. Qed.

(** ** The cancel step *)

(** [cancel_order] when the connection is open, the order has a symbol,
    and an acknowledgment whose payload starts with an object is first in
    the mailbox. *)
Lemma cancel_order_acknowledged c s o kv item more rest :
  c <> "" ->
  private_websocket (self s) = Some Open ->
  orders (self s) !! c = Some o ->
  symbol o <> "" ->
  message_queue o = JObj kv :: rest ->
  dict_get kv "data" = Some (JArr (JObj item :: more)) ->
  cancel_order c s =
    (Returned tt,
     St (set_orders
           (<[c := match fst (cancel_verdict kv item) with
                   | Some x => set_status x (set_message_queue rest o)
                   | None => set_message_queue rest o
                   end]> (orders (self s)))
           (self s))
        (trace s ++ cancellation (user_id (self s)) (symbol o) c ++
           [snd (cancel_verdict kv item)])).
Proof.
  intros Hc Hws Ho Hsym Hq Hdata. unfold cancel_order.
  destruct (String.eqb_spec c ""); [contradiction |].
  unfold bind at 1. unfold gets at 1. cbv beta iota. rewrite Ho.
  destruct (symbol o) as [| a inst] eqn:Hinst; [contradiction |].
  unfold queue_get, assign_status, cancel_verdict, code_is_zero, s_msg_of.
  run_task. cbn. rewrite Hws. cbn. rewrite Ho, Hq. cbn. rewrite Hdata. cbn.
  destruct (dict_get kv "code") as [code |]; cbn.
  - destruct (eq_str code "0"); cbn.
    + rewrite lookup_insert_eq. cbn. rewrite insert_insert_eq, <- !app_assoc.
      reflexivity.
    + destruct (dict_get item "sMsg") as [[| b | z | t | l | kv'] |]; cbn;
        try (rewrite <- !app_assoc; reflexivity);
        match goal with
        | |- context [if ?b then _ else _] =>
            destruct b; cbn; rewrite ?lookup_insert_eq; cbn;
            rewrite ?insert_insert_eq, <- !app_assoc; reflexivity
        end.
  - destruct (dict_get item "sMsg") as [[| b | z | t | l | kv'] |]; cbn;
      try (rewrite <- !app_assoc; reflexivity);
      match goal with
      | |- context [if ?b then _ else _] =>
          destruct b; cbn; rewrite ?lookup_insert_eq; cbn;
          rewrite ?insert_insert_eq, <- !app_assoc; reflexivity
      end.
Qed.

(** *** What the consumer puts on a mailbox *)

Lemma deliverable_kept_refl t : deliverable_kept t t.
Proof. intros H. exact H. Qed.

Lemma deliverable_kept_trans t u v :
  deliverable_kept t u -> deliverable_kept u v -> deliverable_kept t v.
Proof. unfold deliverable_kept. auto. Qed.

Lemma mailboxes_deliverable_insert t c o :
  mailboxes_deliverable t ->
  Forall deliverable (message_queue o) ->
  mailboxes_deliverable (set_orders (<[c := o]> (orders t)) t).
Proof.
  intros Ht Ho c' o'. cbn. destruct (decide (c = c')) as [<- | Hne].
  - rewrite lookup_insert_eq. now intros [= <-].
  - rewrite lookup_insert_ne by assumption. apply Ht.
Qed.

Lemma queue_put_deliverable c data :
  deliverable data -> preserves deliverable_kept (queue_put c data).
Proof.
  intros Hd s Hs. unfold queue_put. run_task. cbn.
  destruct (orders (self s) !! c) as [o |] eqn:Ho; [| exact Hs].
  apply mailboxes_deliverable_insert; [exact Hs |]. cbn.
  apply Forall_app. split; [eapply Hs, Ho | repeat constructor; exact Hd].
Qed.

Lemma queue_get_deliverable c : preserves deliverable_kept (queue_get c).
Proof.
  intros s Hs. unfold queue_get. run_task. cbn.
  destruct (orders (self s) !! c) as [o |] eqn:Ho; [| exact Hs].
  destruct (message_queue o) as [| data rest] eqn:Hq; [exact Hs |].
  apply mailboxes_deliverable_insert; [exact Hs |]. cbn.
  specialize (Hs c o Ho). rewrite Hq in Hs. now inversion Hs.
Qed.

Lemma assign_status_deliverable c x :
  preserves deliverable_kept (assign_status c x).
Proof.
  intros s Hs. unfold assign_status. run_task. cbn.
  destruct (orders (self s) !! c) as [o |] eqn:Ho; [| exact Hs].
  apply mailboxes_deliverable_insert; [exact Hs |]. cbn. eapply Hs, Ho.
Qed.

Ltac deliverable_step :=
  preserves_step deliverable_kept_refl deliverable_kept_trans.

Lemma route_deliverable data order :
  deliverable data -> preserves deliverable_kept (route data order).
Proof.
  intros Hd. unfold route.
  repeat first [ apply (queue_put_deliverable _ _ Hd) | deliverable_step ].
Qed.

(** The loop over the payload puts the message on a mailbox only if the
    first element of the payload is an object. *)
Lemma route_loop_deliverable kv items :
  dict_get kv "data" = Some (JArr items) ->
  preserves deliverable_kept (for_each items (route (JObj kv))).
Proof.
  intros Hdata. destruct items as [| first more].
  - apply (preserves_ret _ deliverable_kept_refl).
  - destruct first as [| | | | | item];
      try (intros st0; cbn [for_each]; unfold route; run_task; cbn;
           apply deliverable_kept_refl).
    apply (preserves_for_each _ deliverable_kept_refl deliverable_kept_trans).
    intros order. apply route_deliverable. now exists kv, item, more.
Qed.

Lemma consume_message_deliverable message :
  preserves deliverable_kept (consume_message message).
Proof.
  intros s. destruct message as [data |]; [| apply deliverable_kept_refl].
  destruct data as [| | | | | kv]; try apply deliverable_kept_refl.
  - unfold consume_message. run_task. cbn.
    destruct (contains _ _); apply deliverable_kept_refl.
  - unfold consume_message. run_task. cbn.
    destruct (existsb _ _); apply deliverable_kept_refl.
  - destruct (dict_get kv "data") as [payload |] eqn:Hdata.
    + destruct payload as [| | | t | items | kv'].
      1-3: unfold consume_message; run_task; cbn; rewrite Hdata;
        rewrite bool_decide_eq_true_2 by eauto; apply deliverable_kept_refl.
      * unfold consume_message. run_task. cbn. rewrite Hdata.
        rewrite bool_decide_eq_true_2 by eauto. cbn.
        destruct t; apply deliverable_kept_refl.
      * pose proof (route_loop_deliverable kv items Hdata
                      (St (self s) (trace s ++ [ELog INFO "Received message"])))
          as Hloop.
        unfold consume_message. run_task. cbn. rewrite Hdata.
        rewrite bool_decide_eq_true_2 by eauto. cbn.
        destruct (for_each items (route (JObj kv)) _) as [[[] | e |] s1];
          [exact Hloop | destruct e; exact Hloop | exact Hloop].
      * unfold consume_message. run_task. cbn. rewrite Hdata.
        rewrite bool_decide_eq_true_2 by eauto. cbn.
        destruct kv'; apply deliverable_kept_refl.
    + unfold consume_message. run_task. cbn. rewrite Hdata.
      rewrite bool_decide_eq_false_2 by (intros [? ?]; discriminate).
      apply deliverable_kept_refl.
Qed.

Lemma place_limit_order_deliverable r pick sym sd px sz s :
  mailboxes_deliverable (self s) ->
  mailboxes_deliverable (self (snd (place_limit_order r pick sym sd px sz s))).
Proof.
  intros Hs c o. cbn. destruct (decide (generate_clordid r pick = c)) as [<- | Hne].
  - rewrite lookup_insert_eq. intros [= <-]. constructor.
  - rewrite lookup_insert_ne by assumption. apply Hs.
Qed.

Lemma process_order_deliverable http c sym sd px sz ot :
  preserves deliverable_kept (process_order http c sym sd px sz ot).
Proof.
  unfold process_order, wait_then_cancel, forget_task, submit_order,
    cancel_order, get_order_status.
  repeat first [ apply queue_get_deliverable | apply assign_status_deliverable
               | deliverable_step ].
  apply preserves_modify. intros t Ht. exact Ht.
Qed.

(** For a text [sMsg] the test ['filled' in s_msg] is the substring
    test. *)
Lemma str_in_text needle t : str_in needle (JStr t) = ok (contains needle t).
Proof. reflexivity. Qed.

(** C1.  In the cancel step, with the request sent and the awaited
    acknowledgment taken from the mailbox, where the consumer had put it:
    when its code is ["0"] the order's status becomes ['canceled'];
    when its code is not ["0"] and ['filled' in sMsg] holds, for a text
    [sMsg] that it contains the substring ["filled"], the status becomes
    ['filled'], whatever the code; in every other case the status stays
    what it was and the last thing logged is an error. *)
Theorem cancel_acknowledged c s o data rest :
  mailboxes_deliverable (self s) ->
  c <> "" ->
  private_websocket (self s) = Some Open ->
  orders (self s) !! c = Some o ->
  symbol o <> "" ->
  message_queue o = data :: rest ->
  exists kv item more,
    data = JObj kv /\
    dict_get kv "data" = Some (JArr (JObj item :: more)) /\
    fst (cancel_order c s) = Returned tt /\
    (code_is_zero kv = true ->
     status_of c (self (snd (cancel_order c s))) = Some (JStr "canceled")) /\
    (code_is_zero kv = false ->
     str_in "filled" (s_msg_of item) = ok true ->
     status_of c (self (snd (cancel_order c s))) = Some (JStr "filled")) /\
    (code_is_zero kv = false ->
     str_in "filled" (s_msg_of item) <> ok true ->
     status_of c (self (snd (cancel_order c s))) = Some (status o) /\
     exists msg, last (trace (snd (cancel_order c s))) = Some (ELog ERROR msg)) /\
    (forall t, s_msg_of item = JStr t ->
     str_in "filled" (s_msg_of item) = ok (contains "filled" t)).
Proof.
  intros Hmb Hc Hws Ho Hsym Hq.
  pose proof (Hmb c o Ho) as Hall. rewrite Hq in Hall.
  apply Forall_cons in Hall as [(kv & item & more & -> & Hdata) _].
  exists kv, item, more. split; [reflexivity |]. split; [exact Hdata |].
  rewrite (cancel_order_acknowledged c s o kv item more rest
             Hc Hws Ho Hsym Hq Hdata).
  unfold status_of, cancel_verdict. cbn [fst snd self trace orders set_orders].
  rewrite lookup_insert_eq. split; [reflexivity |].
  split; [| split; [| split]].
  - intros ->. reflexivity.
  - intros -> ->. reflexivity.
  - intros -> Hno. destruct (str_in "filled" (s_msg_of item)) as [e | [|]].
    + split; [reflexivity |]. eexists. rewrite app_assoc. apply last_snoc.
    + now destruct Hno.
    + split; [reflexivity |]. eexists. rewrite app_assoc. apply last_snoc.
  - intros t ->. reflexivity.
Qed.

Lemma mailboxes_deliverable_fresh : mailboxes_deliverable (self fresh_trader).
Proof. intros c o. cbn. now rewrite lookup_empty. Qed.

Lemma mailboxes_deliverable_one_order : mailboxes_deliverable (self one_order).
Proof. apply place_limit_order_deliverable, mailboxes_deliverable_fresh. Qed.

Lemma mailboxes_deliverable_acknowledged code s_msg :
  mailboxes_deliverable (self (acknowledged_order code s_msg)).
Proof.
  apply (consume_message_deliverable _ one_order),
    mailboxes_deliverable_one_order.
Qed.

Lemma acknowledged_order_record code s_msg :
  orders (self (acknowledged_order code s_msg)) !! "a" =
    Some (order_a [JObj (ack code s_msg)]).
Proof. vm_compute. reflexivity. Qed.

(** The cancel step on three acknowledgments, where the hypotheses of
    [cancel_acknowledged] hold: code ["0"], code ["51400"] with a text
    that contains ["filled"], and code ["1"] with another text. *)
Lemma cancel_acknowledged_witness :
  status_of "a" (self (snd (cancel_order "a" (acknowledged_order "0" "")))) =
    Some (JStr "canceled") /\
  status_of "a"
    (self (snd (cancel_order "a" (acknowledged_order "51400" filled_text)))) =
    Some (JStr "filled") /\
  status_of "a"
    (self (snd (cancel_order "a" (acknowledged_order "1" "Timeout")))) =
    Some (JStr "pending").
Proof.
  assert (Hne : "a" <> "") by discriminate.
  assert (Hsym : symbol (order_a []) <> "") by discriminate.
  split; [| split].
  - destruct (cancel_acknowledged "a" (acknowledged_order "0" "") _ _ []
                (mailboxes_deliverable_acknowledged "0" "") Hne eq_refl
                (acknowledged_order_record "0" "") Hsym eq_refl)
      as (kv & item & more & Hd & Hdata & _ & Hzero & _).
    injection Hd as <-. apply Hzero. reflexivity.
  - destruct (cancel_acknowledged "a" (acknowledged_order "51400" filled_text)
                _ _ []
                (mailboxes_deliverable_acknowledged "51400" filled_text) Hne
                eq_refl (acknowledged_order_record "51400" filled_text) Hsym
                eq_refl)
      as (kv & item & more & Hd & Hdata & _ & _ & Hfilled & _).
    injection Hd as <-. injection Hdata as <- _.
    apply Hfilled; reflexivity.
  - destruct (cancel_acknowledged "a" (acknowledged_order "1" "Timeout") _ _ []
                (mailboxes_deliverable_acknowledged "1" "Timeout") Hne eq_refl
                (acknowledged_order_record "1" "Timeout") Hsym eq_refl)
      as (kv & item & more & Hd & Hdata & _ & _ & _ & Hother & _).
    injection Hd as <-. injection Hdata as <- _.
    apply Hother; [reflexivity | discriminate].
Defined.

(** ** The timeout check *)

Lemma get_order_status_spec {S} reply i c (s : st S) :
  get_order_status reply i c s =
    (oracle_answer reply i c, St (self s) (trace s ++ oracle_events reply i c)).
Proof.
  unfold oracle_answer, oracle_events, get_order_status. run_task.
  destruct s as [t tr].
  destruct reply as [| data]; cbn; [now rewrite <- app_assoc |].
  destruct data as [| | | | | kv]; cbn; try reflexivity.
  destruct (eq_str _ "0"); cbn; [| now rewrite <- app_assoc].
  destruct (truthy _); cbn; [| now rewrite <- app_assoc].
  destruct (index _ 0) as [e | first]; cbn;
    [destruct e; cbn; rewrite <- ?app_assoc; reflexivity |].
  destruct (get first "state" JNull) as [e | state]; cbn;
    [destruct e; cbn; rewrite <- ?app_assoc; reflexivity | reflexivity].
Qed.

Lemma oracle_events_no_send reply i c m :
  ~ In (ESend m) (oracle_events reply i c).
Proof.
  unfold oracle_events, get_order_status. run_task. cbn.
  destruct reply as [| data]; cbn; [intuition discriminate |].
  destruct data as [| | | | | kv]; cbn; try (intuition discriminate).
  destruct (eq_str _ "0"); cbn; [| intuition discriminate].
  destruct (truthy _); cbn; [| intuition discriminate].
  destruct (index _ 0) as [e | first]; cbn;
    [destruct e; cbn; intuition discriminate |].
  destruct (get first "state" JNull) as [e | state]; cbn;
    [destruct e; cbn; intuition discriminate | intuition discriminate].
Qed.


Lemma wait_then_cancel_spec http c sym s v :
  oracle_answer (http sym c) sym c = Returned v ->
  wait_then_cancel http c sym s =
    (if resolved v then
       emit (ELog INFO "Order is already resolved. Skipping cancellation.") ;;
       assign_status c v
     else cancel_order c)
      (St (self s)
          (trace s ++ [ESleep (order_timeout (self s))] ++
             oracle_events (http sym c) sym c)).
Proof.
  intros Hv. unfold wait_then_cancel.
  unfold bind at 1. unfold gets at 1. cbv beta iota.
  unfold bind at 1. unfold emit at 1. cbv beta iota.
  unfold bind at 1. rewrite get_order_status_spec, Hv. cbn [self trace].
  rewrite <- app_assoc. reflexivity.
Qed.







(** ** Signatures *)

(** The model of the library functions agrees with the libraries on
    their published test vectors. *)
Example sha256_abc :
  Hashlib.sha256 (Hashlib.encode "abc") =
    [186; 120; 22; 191; 143; 1; 207; 234; 65; 65; 64; 222; 93; 174; 34; 35;
     176; 3; 97; 163; 150; 23; 122; 156; 180; 16; 255; 97; 242; 0; 21; 173].
Proof. vm_compute. reflexivity. Qed.

Example hmac_sha256_quick_brown_fox :
  Hashlib.decode
    (Hashlib.b64encode
       (Hashlib.hmac_sha256 (Hashlib.encode "key")
          (Hashlib.encode "The quick brown fox jumps over the lazy dog"))) =
    "97yD9DBThCSxMpjmqm+xQ+9NWaFJRhdZl0edvC0aPNg=".
Proof. vm_compute. reflexivity. Qed.

Example b64encode_padding :
  Hashlib.decode (Hashlib.b64encode (Hashlib.encode "a")) = "YQ==" /\
  Hashlib.decode (Hashlib.b64encode (Hashlib.encode "ab")) = "YWI=" /\
  Hashlib.decode (Hashlib.b64encode (Hashlib.encode "abc")) = "YWJj".
Proof. repeat split; vm_compute; reflexivity. Qed.

(** The login signature of [OkxSimulatedTrader.login], with the method
    given in lower case. *)
Example generate_signature_login :
  generate_signature "secret" "1700000000" "get" "/users/self/verify" "" =
    "lhmJXK08fk9SI1ZwFXKFRrPtzfbNOwC+D1xMJJ/1KZg=".
Proof. vm_compute. reflexivity. Qed.

(** C9.  [generate_signature] of the trading session and
    [_generate_signature] of the status checker are the same function of
    the secret and of their four arguments: each is the base64 encoding of
    the HMAC-SHA256, under the secret, of the timestamp followed by the
    method in upper case, the path and the body.  What these words denote
    is fixed by the published vectors: SHA-256 of ["abc"], HMAC-SHA256 of
    RFC 4231 (test case 2), base64 of RFC 4648, upper-casing that touches
    letters only, and the login signature as Python computes it. *)
Theorem signatures_agree :
  (forall secret timestamp method path body : string,
     is_ascii secret = true -> is_ascii timestamp = true ->
     is_ascii method = true -> is_ascii path = true -> is_ascii body = true ->
     generate_signature secret timestamp method path body =
       sign_spec secret timestamp method path body /\
     _generate_signature secret timestamp method path body =
       sign_spec secret timestamp method path body /\
     generate_signature secret timestamp method path body =
       _generate_signature secret timestamp method path body) /\
  Hashlib.sha256 (Hashlib.encode "abc") =
    [186; 120; 22; 191; 143; 1; 207; 234; 65; 65; 64; 222; 93; 174; 34; 35;
     176; 3; 97; 163; 150; 23; 122; 156; 180; 16; 255; 97; 242; 0; 21; 173] /\
  Hashlib.hmac_sha256 (Hashlib.encode "Jefe")
    (Hashlib.encode "what do ya want for nothing?") =
    [91; 220; 193; 70; 191; 96; 117; 78; 106; 4; 36; 38; 8; 149; 117; 199;
     90; 0; 63; 8; 157; 39; 57; 131; 157; 236; 88; 185; 100; 236; 56; 67] /\
  Hashlib.decode
    (Hashlib.b64encode
       (Hashlib.hmac_sha256 (Hashlib.encode (String.concat "" (repeat "k" 80)))
          (Hashlib.encode "msg"))) =
    "bA75ND9k1g4Q45MULperD/sNGkcqEzmlLbdhBM+I2h4=" /\
  map (fun t => Hashlib.decode (Hashlib.b64encode (Hashlib.encode t)))
      ["f"; "fo"; "foo"; "foobar"] =
    ["Zg=="; "Zm8="; "Zm9v"; "Zm9vYmFy"] /\
  Hashlib.upper "Get/1.0a-z{" = "GET/1.0A-Z{" /\
  generate_signature "secret" "1700000000" "get" "/users/self/verify" "" =
    "lhmJXK08fk9SI1ZwFXKFRrPtzfbNOwC+D1xMJJ/1KZg=" /\
  _generate_signature "secret" "1700000000" "GET" "/api/v5/trade/order" "" =
    "x8FG8QmywvHKZ4f/AuhVXrqygxEzhOq2QINk6kVWpQc=".
Proof.
  split; [intros; repeat split |].
  repeat split; vm_compute; reflexivity.
Qed.

(** The login request of the trading session, where the hypotheses of
    [signatures_agree] hold: both implementations sign it alike. *)
Lemma signatures_agree_witness :
  generate_signature "secret" "1700000000" "get" "/users/self/verify" "" =
    _generate_signature "secret" "1700000000" "get" "/users/self/verify" "".
Proof.
  exact (proj2 (proj2 (proj1 signatures_agree "secret" "1700000000" "get"
                         "/users/self/verify" ""
                         eq_refl eq_refl eq_refl eq_refl eq_refl))).
Defined.

(** ** Frames that are dropped *)

(** X1.  [process_message] returns on every frame, and a frame that does
    not name the trades or the books channel, whatever else it holds,
    leaves every attribute of the fetcher as it was. *)
Theorem process_message_drops_other_frames message s :
  fst (process_message message s) = Returned tt /\
  (other_channel message -> self (snd (process_message message s)) = self s).
Proof.
  split.
  - destruct (process_message_returns message s) as [[] H]. exact H.
  - unfold other_channel, frame_channel. intros Hother.
    destruct message as [data |]; [| reflexivity].
    destruct data as [| | | t | l | kv]; try reflexivity.
    + unfold process_message. run_task. cbn. destruct (contains "data" t); reflexivity.
    + unfold process_message. run_task. cbn.
      destruct (existsb _ l); reflexivity.
    + unfold process_message. run_task. cbn.
      destruct (dict_get kv "data") as [payload |] eqn:Hdata.
      * rewrite bool_decide_eq_true_2 by eauto. cbn.
        destruct (dict_get kv "arg") as [arg |]; [| reflexivity].
        destruct arg as [| | | | | arg]; try reflexivity. cbn.
        destruct (dict_get arg "channel") as [ch |]; [| reflexivity]. cbn.
        destruct (Hother ch eq_refl) as [Ht Hb]. rewrite Ht. cbn.
        rewrite Hb. reflexivity.
      * rewrite bool_decide_eq_false_2 by (intros [? ?]; discriminate).
        reflexivity.
Qed.

(** A tickers frame, where the hypothesis of
    [process_message_drops_other_frames] holds. *)
Lemma process_message_drops_other_frames_witness :
  other_channel tickers_frame /\
  self (snd (process_message tickers_frame capped_at_two)) = self capped_at_two.
Proof.
  assert (H : other_channel tickers_frame).
  { intros ch Hch. injection Hch as <-. split; reflexivity. }
  split; [exact H |].
  exact (proj2 (process_message_drops_other_frames tickers_frame capped_at_two) H).
Defined.

(** ** A trades frame with a malformed element *)

Lemma for_each_handle_trade_prefix good bad rest :
  Forall is_object good ->
  not_object bad ->
  forall s, exists new,
    length new = length good /\
    fst (for_each (good ++ bad :: rest) handle_trade s) = Raised AttributeError /\
    trades_appended new (self s)
      (self (snd (for_each (good ++ bad :: rest) handle_trade s))) /\
    trace (snd (for_each (good ++ bad :: rest) handle_trade s)) =
      trace s ++ repeat (ELog INFO "Added trade info") (length good).
Proof.
  intros Hgood Hbad. induction Hgood as [| trade good [kv ->] _ IH]; intros s.
  - exists []. cbn [app for_each]. unfold bind.
    rewrite (handle_trade_other bad s Hbad). cbn.
    unfold trades_appended. cbn. rewrite !app_nil_r.
    repeat split; first [reflexivity | lia].
  - cbn [app for_each]. unfold bind.
    destruct (handle_trade_object kv s) as (info & _ & ->). cbv beta iota.
    match goal with |- context [for_each _ handle_trade ?s1] =>
      destruct (IH s1) as (new & Hlen & Hret & (D & Q & C & M) & Htr) end.
    exists (info :: new). split; [cbn; lia |]. split; [exact Hret |].
    split.
    + unfold trades_appended. rewrite D, Q, C, M. cbn.
      rewrite <- !app_assoc. cbn. repeat split; first [reflexivity | lia].
    + rewrite Htr. cbn. rewrite <- app_assoc. reflexivity.
Qed.

(** X2.  In a trades frame whose payload has an element that is not an
    object, the trades before that element are recorded, counted and
    queued, the element and everything after it in the frame are dropped,
    and one error is logged; the call returns all the same. *)
Theorem trades_frame_stops_at_malformed_element good bad rest s :
  Forall is_object good ->
  not_object bad ->
  exists new,
    length new = length good /\
    fst (process_message (trades_frame (good ++ bad :: rest)) s) = Returned tt /\
    data_deque (self (snd (process_message (trades_frame (good ++ bad :: rest)) s)))
      = data_deque (self s) ++ new /\
    trade_queue (self (snd (process_message (trades_frame (good ++ bad :: rest)) s)))
      = trade_queue (self s) ++ new /\
    message_count (self (snd (process_message (trades_frame (good ++ bad :: rest)) s)))
      = message_count (self s) + Z.of_nat (length good) /\
    trace (snd (process_message (trades_frame (good ++ bad :: rest)) s)) =
      trace s ++ repeat (ELog INFO "Added trade info") (length good) ++
        [ELog ERROR "Error processing message"].
Proof.
  intros Hgood Hbad.
  destruct (for_each_handle_trade_prefix good bad rest Hgood Hbad s)
    as (new & Hlen & Hret & (D & Q & C & _) & Htr).
  exists new. split; [exact Hlen |].
  unfold process_message, trades_frame, handle_trade_message. run_task. cbn.
  destruct (for_each (good ++ bad :: rest) handle_trade s) as [[[] | e |] s'];
    cbn in *; try discriminate.
  injection Hret as ->. cbn. rewrite D, Q, C, Htr, Hlen, <- app_assoc.
  repeat split.
Qed.

(** A frame of a trade, the number 7 and another trade, where the
    hypotheses of [trades_frame_stops_at_malformed_element] hold: only the
    first trade is counted. *)
Lemma trades_frame_stops_at_malformed_element_witness :
  message_count
    (self (snd (process_message
                  (trades_frame ([trade "1" "buy"] ++ JNum 7 :: [trade "2" "sell"]))
                  capped_at_two))) = 0 + Z.of_nat (length [trade "1" "buy"]).
Proof.
  assert (Hgood : Forall is_object [trade "1" "buy"])
    by (repeat constructor; eexists; reflexivity).
  assert (Hbad : not_object (JNum 7)) by (intros kv; discriminate).
  destruct (trades_frame_stops_at_malformed_element [trade "1" "buy"] (JNum 7)
              [trade "2" "sell"] capped_at_two Hgood Hbad)
    as (new & _ & _ & _ & _ & Hcount & _).
  exact Hcount.
Defined.

(** ** Prices by depth *)

(** X3.  On a snapshot whose bids are a list of levels that each start
    with a price, [get_latest_bid0_price] and [get_latest_bid2_price]
    never raise: they return the price at index 0 and 2, or [None] when
    the bids stop before it.  [get_latest_bid4_price] returns [None]
    below five levels, raises [IndexError] at exactly five, and from six
    levels on returns the price at index 5. *)
Theorem bid_prices_by_depth f bids :
  latest_bids f bids ->
  Forall priced bids ->
  get_latest_bid0_price f = ok (price_at bids 0) /\
  get_latest_bid2_price f = ok (price_at bids 2) /\
  get_latest_bid4_price f =
    if bool_decide (length bids = 5%nat) then throw IndexError
    else ok (price_at bids 5).
Proof.
  intros (kv & Hl & Hb) Hp.
  unfold get_latest_bid0_price, get_latest_bid2_price, get_latest_bid4_price.
  split; [| split].
  - destruct bids as [| l0 bids].
    + apply (latest_bid_price_short _ _ _ _ _ Hl Hb). cbn. lia.
    + inversion Hp as [| ? ? (px & more & ->) _]; subst.
      eapply latest_bid_price_at; [exact Hl | exact Hb | cbn; lia | reflexivity | reflexivity].
  - destruct bids as [| l0 [| l1 [| l2 bids]]];
      try (apply (latest_bid_price_short _ _ _ _ _ Hl Hb); cbn; lia).
    do 2 apply Forall_cons_1 in Hp as [_ Hp].
    apply Forall_cons_1 in Hp as [(px & more & ->) _].
    eapply latest_bid_price_at; [exact Hl | exact Hb | cbn; lia | reflexivity | reflexivity].
  - destruct bids as [| l0 [| l1 [| l2 [| l3 [| l4 [| l5 bids]]]]]];
      try (apply (latest_bid_price_short _ _ _ _ _ Hl Hb); cbn; lia).
    + apply (latest_bid_price_out_of_range _ _ _ _ _ Hl Hb); cbn; lia.
    + do 5 apply Forall_cons_1 in Hp as [_ Hp].
      apply Forall_cons_1 in Hp as [(px & more & ->) _].
      rewrite bool_decide_eq_false_2 by (cbn; lia).
      eapply latest_bid_price_at; [exact Hl | exact Hb | cbn; lia | reflexivity | reflexivity].
Qed.

(** The book of six levels, where the hypotheses of
    [bid_prices_by_depth] hold: the three accessors return the prices at
    indices 0, 2 and 5 of the latest snapshot. *)
Lemma bid_prices_by_depth_witness :
  get_latest_bid0_price book_of_six = ok (JStr "100.5") /\
  get_latest_bid2_price book_of_six = ok (JStr "100.3") /\
  get_latest_bid4_price book_of_six = ok (JStr "100.0").
Proof.
  refine (bid_prices_by_depth book_of_six
            [bid_level "100.5"; bid_level "100.4"; bid_level "100.3";
             bid_level "100.2"; bid_level "100.1"; bid_level "100.0"] _ _).
  - eexists. split; reflexivity.
  - repeat constructor; eexists; eexists; reflexivity.
Defined.

(** ** How a run ends *)

Lemma check_cap_returns s : exists s', check_cap s = (Returned tt, s').
Proof.
  unfold check_cap, bind, gets. cbv beta iota.
  destruct (max_messages (self s)) as [m |]; [| eexists; reflexivity].
  destruct (m <=? message_count (self s)); eexists; reflexivity.
Qed.

(** The inner loop is left normally only with the flag set. *)
Lemma read_frames_returns_stopped fs closing s :
  fst (read_frames fs closing s) = Returned tt ->
  stop_flag (self (snd (read_frames fs closing s))) = true.
Proof.
  revert s. induction fs as [| response fs IH]; intros s;
    destruct (stop_flag (self s)) eqn:Hstop;
    try (rewrite read_frames_stopped by exact Hstop; intros _; exact Hstop).
  - cbn [read_frames]. unfold bind, gets. cbv beta iota. rewrite Hstop.
    destruct closing; cbn; discriminate.
  - rewrite (read_frames_step _ _ _ _ Hstop). unfold bind.
    destruct (check_cap_returns (after_frame response s)) as [s' ->].
    apply IH.
Qed.

(** A connection attempt either fails to connect, or stores the socket,
    tries both subscriptions and goes on to read the frames. *)
Lemma connection_attempt_cases c s :
  (exists e, connected c = throw e /\
     connection_attempt c s = (Raised e, St (self s) (trace s ++ [EConnect]))) \/
  (exists ws evs, connected c = ok ws /\
     connection_attempt c s =
       read_frames (frames c) (closing c)
         (St (set_public_websocket (Some ws) (self s)) (trace s ++ evs))).
Proof.
  unfold connection_attempt, subscribe_to_trades, subscribe_to_orderbook.
  destruct (connected c) as [e | [|]].
  - left. exists e. split; reflexivity.
  - right. eexists; eexists. split; [reflexivity |].
    run_task. cbn. rewrite <- !app_assoc. reflexivity.
  - right. eexists; eexists. split; [reflexivity |].
    run_task. cbn. rewrite <- !app_assoc. reflexivity.
Qed.

(** One turn of the outer loop never raises: what the attempt raises is
    logged and slept on. *)
Lemma connect_once_never_raises c s e : fst (connect_once c s) <> Raised e.
Proof.
  unfold connect_once, try_except.
  destruct (connection_attempt c s) as [[[] | e' |] s1]; cbn;
    [discriminate | | discriminate].
  rewrite backoff_spec. discriminate.
Qed.

(** The outer loop on a connection, while the flag is clear. *)
Lemma connect_step c net s :
  stop_flag (self s) = false ->
  connect (c :: net) s = bind (connect_once c) (fun _ => connect net) s.
Proof.
  intros H. cbn [connect]. unfold bind at 1. unfold gets at 1.
  cbv beta iota. now rewrite H.
Qed.

Lemma connect_never_raises net s e : fst (connect net s) <> Raised e.
Proof.
  revert s. induction net as [| c net IH]; intros s; cbn [connect];
    unfold bind at 1; unfold gets at 1; cbv beta iota;
    destruct (stop_flag (self s)); try discriminate.
  unfold bind.
  pose proof (connect_once_never_raises c s) as Hc.
  destruct (connect_once c s) as [[[] | e' |] s1]; cbn in *.
  - apply IH.
  - now destruct (Hc e').
  - discriminate.
Qed.

Lemma connect_returns_stopped net s :
  fst (connect net s) = Returned tt ->
  stop_flag (self (snd (connect net s))) = true.
Proof.
  revert s. induction net as [| c net IH]; intros s;
    destruct (stop_flag (self s)) eqn:Hstop;
    try (rewrite connect_stopped by exact Hstop; intros _; exact Hstop).
  - cbn [connect]. unfold bind, gets. cbv beta iota. rewrite Hstop. discriminate.
  - rewrite (connect_step _ _ _ Hstop). unfold bind.
    destruct (connect_once c s) as [[[] | e' |] s1]; cbn; try discriminate.
    apply IH.
Qed.

(** X4.  [run] never lets an exception out, whatever the network does,
    and when it returns the stop flag is set. *)
Theorem run_ends_only_stopped net s :
  (forall e, fst (run net s) <> Raised e) /\
  (fst (run net s) = Returned tt ->
   stop_flag (self (snd (run net s))) = true).
Proof.
  unfold run, bind, gets. cbv beta iota.
  destruct (stop_flag (self s)) eqn:Hstop.
  - split; [discriminate | intros _; exact Hstop].
  - split; [intros e; apply connect_never_raises | apply connect_returns_stopped].
Qed.

(** The run at cap 2 over a dropped connection and a second one, where
    the hypothesis of [run_ends_only_stopped] holds. *)
Lemma run_ends_only_stopped_witness :
  fst (run [dropped_connection; two_trades_in_one_frame] capped_at_two)
    = Returned tt /\
  stop_flag
    (self (snd (run [dropped_connection; two_trades_in_one_frame]
                  capped_at_two))) = true.
Proof.
  split; [reflexivity |].
  apply (proj2 (run_ends_only_stopped
                  [dropped_connection; two_trades_in_one_frame] capped_at_two)).
  reflexivity.
Defined.

(** *** Without a cap *)

Lemma check_cap_no_cap s :
  max_messages (self s) = None -> check_cap s = (Returned tt, s).
Proof. intros H. unfold check_cap, bind, gets. cbv beta iota. now rewrite H. Qed.

Lemma read_frames_no_cap fs closing s :
  max_messages (self s) = None ->
  stop_flag (self s) = false ->
  max_messages (self (snd (read_frames fs closing s))) = None /\
  stop_flag (self (snd (read_frames fs closing s))) = false.
Proof.
  revert s. induction fs as [| response fs IH]; intros s Hcap Hstop.
  - cbn [read_frames]. unfold bind, gets. cbv beta iota. rewrite Hstop.
    destruct closing; cbn; auto.
  - rewrite (read_frames_step _ _ _ _ Hstop). unfold bind.
    destruct (after_frame_controls response s) as (Hs & Hm & _).
    rewrite Hcap in Hm. rewrite Hstop in Hs.
    rewrite (check_cap_no_cap _ Hm). now apply IH.
Qed.

Lemma connect_once_no_cap c s :
  max_messages (self s) = None ->
  stop_flag (self s) = false ->
  max_messages (self (snd (connect_once c s))) = None /\
  stop_flag (self (snd (connect_once c s))) = false.
Proof.
  intros Hcap Hstop. unfold connect_once, try_except.
  assert (H : max_messages (self (snd (connection_attempt c s))) = None /\
              stop_flag (self (snd (connection_attempt c s))) = false).
  { destruct (connection_attempt_cases c s)
      as [(e & _ & ->) | (ws & evs & _ & ->)]; [now split |].
    now apply read_frames_no_cap. }
  destruct (connection_attempt c s) as [[[] | e |] s1]; cbn in *; try exact H.
  rewrite backoff_spec. exact H.
Qed.

Lemma connect_no_cap net s :
  max_messages (self s) = None ->
  stop_flag (self s) = false ->
  stop_flag (self (snd (connect net s))) = false.
Proof.
  revert s. induction net as [| c net IH]; intros s Hcap Hstop.
  { cbn [connect]. unfold bind, gets. cbv beta iota. now rewrite Hstop. }
  rewrite (connect_step _ _ _ Hstop). unfold bind.
  destruct (connect_once_no_cap c s Hcap Hstop) as [Hm Hs].
  destruct (connect_once c s) as [[[] | e |] s1]; cbn in *; try exact Hs.
  now apply IH.
Qed.

(** X5.  A fetcher without a cap never sets its own stop flag: however
    many connections and frames the network supplies, [run] does not
    return, and the flag is still clear when the supply is used up. *)
Theorem run_without_cap_never_stops net s :
  max_messages (self s) = None ->
  stop_flag (self s) = false ->
  fst (run net s) = Blocked /\
  stop_flag (self (snd (run net s))) = false.
Proof.
  intros Hcap Hstop.
  assert (Hrun : run net s = connect net s).
  { unfold run, bind, gets. cbv beta iota. now rewrite Hstop. }
  rewrite Hrun.
  pose proof (connect_no_cap net s Hcap Hstop) as Hflag.
  split; [| exact Hflag].
  pose proof (connect_never_raises net s) as Hraise.
  pose proof (connect_returns_stopped net s) as Hret.
  destruct (connect net s) as [[[] | e |] s1]; cbn in *.
  - specialize (Hret eq_refl). congruence.
  - now destruct (Hraise e).
  - reflexivity.
Qed.

(** The uncapped fetcher over a dropped connection and a second one,
    where the hypotheses of [run_without_cap_never_stops] hold: three
    trades are stored and the run is still waiting. *)
Lemma run_without_cap_never_stops_witness :
  fst (run [dropped_connection; two_trades_in_one_frame] uncapped) = Blocked /\
  stop_flag
    (self (snd (run [dropped_connection; two_trades_in_one_frame] uncapped)))
    = false.
Proof.
  apply (run_without_cap_never_stops
           [dropped_connection; two_trades_in_one_frame] uncapped);
    reflexivity.
Defined.

(** ** The history of snapshots *)

Lemma history_kept_refl f : history_kept f f.
Proof. split; [exists []; now rewrite app_nil_r | auto]. Qed.

Lemma history_kept_trans f g h :
  history_kept f g -> history_kept g h -> history_kept f h.
Proof.
  intros [[m1 H1] K1] [[m2 H2] K2]. split; [| auto].
  exists (m1 ++ m2). now rewrite H2, H1, app_assoc.
Qed.

Ltac history_step := preserves_step history_kept_refl history_kept_trans.

(** A [modify] that leaves the snapshot and the history alone. *)
Ltac history_modify :=
  apply preserves_modify; intros ?; split;
  [ exists []; cbn; now rewrite app_nil_r | intros H; exact H ].

(** The two assignments of [handle_order_book_message] together keep the
    attribute and the history in step. *)
Lemma handle_order_book_message_history d :
  preserves history_kept (handle_order_book_message d).
Proof.
  intros s. cbn. split; [now exists [d] |].
  intros _. unfold snapshot_is_latest. cbn. now rewrite last_snoc.
Qed.

Lemma process_message_history message :
  preserves history_kept (process_message message).
Proof.
  unfold process_message, handle_trade_message, handle_trade.
  repeat first [ apply handle_order_book_message_history
               | history_step | history_modify ].
Qed.

Lemma read_frames_history fs closing :
  preserves history_kept (read_frames fs closing).
Proof.
  induction fs as [| response fs IH]; cbn [read_frames]; unfold check_cap;
    repeat first [ apply process_message_history | exact IH
                 | history_step | history_modify ].
Qed.

Lemma connect_history net : preserves history_kept (connect net).
Proof.
  induction net as [| c net IH]; cbn [connect];
    unfold connect_once, connection_attempt, backoff, subscribe_to_trades,
      subscribe_to_orderbook;
    repeat first [ apply read_frames_history | exact IH
                 | history_step | history_modify ].
Qed.

(** X6.  Over any run, from any state, snapshots are only appended to
    the history, never removed or replaced, and if [order_book_data]
    was the last snapshot of the history (or both were empty) before,
    it is so afterwards; a new fetcher starts that way. *)
Theorem order_book_history_kept :
  (forall symbol cap, snapshot_is_latest (MarketDataFetcher.init symbol cap)) /\
  (forall net s,
     (exists more,
        order_book_deque (self (snd (run net s))) =
          order_book_deque (self s) ++ more) /\
     (snapshot_is_latest (self s) ->
      snapshot_is_latest (self (snd (run net s))))).
Proof.
  split; [reflexivity |].
  intros net s.
  assert (H : preserves history_kept (run net)).
  { unfold run. repeat first [ apply connect_history | history_step ]. }
  exact (H s).
Qed.

(** The run at cap 2 over a connection that delivers a snapshot, where
    the hypothesis of [order_book_history_kept] holds: the attribute
    and the end of the history are both that snapshot. *)
Lemma order_book_history_kept_witness :
  snapshot_is_latest (self capped_at_two) /\
  order_book_deque (self (snd (run [books_then_trades] capped_at_two)))
    = [five_bids] /\
  snapshot_is_latest (self (snd (run [books_then_trades] capped_at_two))).
Proof.
  split; [reflexivity |]. split; [reflexivity |].
  apply (proj2 order_book_history_kept [books_then_trades] capped_at_two).
  reflexivity.
Defined.

(** ** Stopping from outside *)

(** X7.  [on_stop] always returns, also when closing the socket raises,
    and it sets the stop flag whatever the state of the socket; the
    trades and snapshots collected so far are untouched, and a [run]
    started or resumed afterwards returns at once without connecting. *)
Theorem on_stop_stops_the_run close net s :
  fst (on_stop close s) = Returned tt /\
  stop_flag (self (snd (on_stop close s))) = true /\
  data_deque (self (snd (on_stop close s))) = data_deque (self s) /\
  trade_queue (self (snd (on_stop close s))) = trade_queue (self s) /\
  message_count (self (snd (on_stop close s))) = message_count (self s) /\
  order_book_deque (self (snd (on_stop close s))) = order_book_deque (self s) /\
  run net (snd (on_stop close s)) = (Returned tt, snd (on_stop close s)).
Proof.
  destruct s as [f tr]. unfold on_stop. run_task. cbn.
  destruct (public_websocket f) as [[|] |]; [destruct close as [e | []] | |];
    cbn; repeat split; apply run_stopped; reflexivity.
Qed.

(** ** Client order ids *)

Lemma length_string_of_list (l : list ascii) :
  String.length (string_of_list_ascii l) = length l.
Proof. induction l as [| a l IH]; cbn; congruence. Qed.

Lemma string_get_lt (t : string) (k : nat) :
  (k < String.length t)%nat -> exists ch, String.get k t = Some ch.
Proof.
  revert k. induction t as [| a t IH]; intros k Hk; cbn in Hk; [lia |].
  destruct k as [| k]; cbn; [eauto | apply IH; lia].
Qed.

Lemma string_get_In (t : string) (k : nat) ch :
  String.get k t = Some ch -> In ch (list_ascii_of_string t).
Proof.
  revert k. induction t as [| a t IH]; intros k Hk; cbn in *; [discriminate |].
  destruct k as [| k]; [left; congruence | right; eauto].
Qed.

(** X8.  Whatever the random source draws, [generate_clordid] returns
    between 1 and 32 characters, so never the empty id, each of them an
    ASCII letter or a digit. *)
Theorem generate_clordid_shape r pick :
  (1 <= String.length (generate_clordid r pick) <= 32)%nat /\
  Forall (fun ch => In ch (list_ascii_of_string characters))
         (list_ascii_of_string (generate_clordid r pick)).
Proof.
  assert (Hlen : String.length (generate_clordid r pick) = (1 + r mod 32)%nat).
  { unfold generate_clordid.
    now rewrite length_string_of_list, length_map, length_seq. }
  pose proof (Nat.mod_upper_bound r 32 ltac:(lia)) as Hr.
  split; [lia |].
  unfold generate_clordid. rewrite list_ascii_of_string_of_list_ascii.
  apply List.Forall_forall. intros ch Hin.
  apply in_map_iff in Hin as (i & <- & _).
  destruct (string_get_lt characters (pick i mod 62))
    as [ch Hch]; [apply Nat.mod_upper_bound; cbn; lia |].
  rewrite Hch. exact (string_get_In _ _ _ Hch).
Qed.

(** ** Registering an order *)

(** X9.  [place_limit_order] stores under the generated id a record with
    the given symbol, side, price and size, status ['pending'] and an
    empty mailbox, and a task entry for it; it does so without asking
    whether the id is in use, so a record already stored under that id is
    replaced.  Every other order and task entry, and the connection, are
    as before, and nothing is sent by the call itself. *)
Theorem place_limit_order_registers r pick sym sd px sz s :
  let c := generate_clordid r pick in
  let s1 := snd (place_limit_order r pick sym sd px sz s) in
  orders (self s1) !! c = Some (pending_order sym sd px sz) /\
  c ∈ order_tasks (self s1) /\
  (forall c', c' <> c ->
     orders (self s1) !! c' = orders (self s) !! c' /\
     (c' ∈ order_tasks (self s1) <-> c' ∈ order_tasks (self s))) /\
  private_websocket (self s1) = private_websocket (self s) /\
  trace s1 = trace s ++ [ELog INFO "Created task for order"].
Proof.
  cbn. split; [apply lookup_insert_eq |]. split; [set_solver |].
  split; [| split; reflexivity].
  intros c' Hc'. split; [now apply lookup_insert_ne | set_solver].
Qed.

(** The first order of a session, where the hypothesis of
    [place_limit_order_registers] holds for the id ["b"]. *)
Lemma place_limit_order_registers_witness :
  "b" <> generate_clordid 0 always_first /\
  orders (self one_order) !! "b" = orders (self fresh_trader) !! "b" /\
  ("b" ∈ order_tasks (self one_order) <-> "b" ∈ order_tasks (self fresh_trader)).
Proof.
  assert (H : "b" <> generate_clordid 0 always_first) by discriminate.
  split; [exact H |].
  exact (proj1 (proj2 (proj2
           (place_limit_order_registers 0 always_first "BTC-USDT" "buy"
              (JStr "100.5") (JStr "0.001") fresh_trader))) "b" H).
Defined.

(** ** An order without a connection *)

(** X10.  When there is no open connection ([private_websocket] is still
    [None], or the socket is closed), the task of an order completes
    without waiting: the failed send is logged, nothing is sent, slept on
    or asked of the oracle, the orders are left as they are and only the
    task entry is removed. *)
Theorem process_order_without_connection http c sym sd px sz ot s :
  private_websocket (self s) <> Some Open ->
  process_order http c sym sd px sz ot s =
    (Returned tt,
     St (set_order_tasks (order_tasks (self s) ∖ {[c]}) (self s))
        (trace s ++
           [ELog ERROR "Error while submitting order";
            ELog ERROR "Order failed to place. Skipping further processing.";
            ELog INFO "Task for order completed"])).
Proof.
  intros Hws. destruct s as [t tr]. cbn in Hws.
  unfold process_order, submit_order, forget_task. run_task. cbn.
  destruct (private_websocket t) as [[|] |]; [now destruct Hws | |]; cbn;
    rewrite <- !app_assoc; reflexivity.
Qed.

(** The order ["a"] on a trader that never connected, where the
    hypothesis of [process_order_without_connection] holds: the order
    keeps its status and loses its task. *)
Lemma process_order_without_connection_witness :
  private_websocket (self offline_order) <> Some Open /\
  status_of "a"
    (self (snd (process_order unreachable_oracle "a" "BTC-USDT" "buy"
                  (JStr "100.5") (JStr "0.001") "post_only" offline_order)))
    = Some (JStr "pending") /\
  order_tasks
    (self (snd (process_order unreachable_oracle "a" "BTC-USDT" "buy"
                  (JStr "100.5") (JStr "0.001") "post_only" offline_order)))
    = ∅.
Proof.
  assert (H : private_websocket (self offline_order) <> Some Open)
    by discriminate.
  split; [exact H |].
  rewrite (process_order_without_connection unreachable_oracle "a" "BTC-USDT"
             "buy" (JStr "100.5") (JStr "0.001") "post_only" offline_order H).
  split; [reflexivity |]. cbn. set_solver.
Defined.

(** ** When the oracle raises *)

(** X11.  For an order whose submission was acknowledged with code
    ["0"]: when the status query raises an exception that
    [get_order_status] does not handle, the task of the order ends with
    that exception after the sleep.  Its entry is removed all the same,
    the status of the order is left as it was, and no cancel request is
    sent: the only request on the trace is the order itself. *)
Theorem process_order_oracle_raises http c sym sd px sz ot s o kv rest e :
  private_websocket (self s) = Some Open ->
  orders (self s) !! c = Some o ->
  message_queue o = JObj kv :: rest ->
  code_is_zero kv = true ->
  oracle_answer (http sym c) sym c = Raised e ->
  process_order http c sym sd px sz ot s =
    (Raised e,
     abandoned s c sym sd px sz ot o rest (oracle_events (http sym c) sym c)) /\
  (c ∉ order_tasks (self (snd (process_order http c sym sd px sz ot s)))) /\
  status_of c (self (snd (process_order http c sym sd px sz ot s))) =
    Some (status o) /\
  (forall m,
     In (ESend m) (trace (snd (process_order http c sym sd px sz ot s))) ->
     In (ESend m) (trace s) \/
     m = order_param (user_id (self s)) c sym sd px sz ot).
Proof.
  intros Hws Ho Hq Hcode He.
  pose proof (submit_order_acknowledged c sym sd px sz ot s o kv rest Hws Ho Hq)
    as Hsub. cbv zeta in Hsub. fold (code_is_zero kv) in Hsub.
  rewrite Hcode in Hsub.
  assert (Hrun : process_order http c sym sd px sz ot s =
    (Raised e,
     abandoned s c sym sd px sz ot o rest (oracle_events (http sym c) sym c))).
  { unfold process_order. rewrite (try_finally_bind _ _ _ _ _ _ Hsub).
    cbn [negb]. unfold try_finally, wait_then_cancel.
    unfold bind at 1. unfold gets at 1. cbv beta iota.
    unfold bind at 1. unfold emit at 1. cbv beta iota.
    unfold bind at 1. rewrite get_order_status_spec, He.
    unfold abandoned, forget_task. run_task. cbn.
    rewrite <- !app_assoc. reflexivity. }
  rewrite Hrun. cbn [snd fst]. split; [reflexivity |]. split; [| split].
  - unfold abandoned. cbn. set_solver.
  - unfold abandoned, status_of. cbn. now rewrite lookup_insert_eq.
  - intros m Hin. unfold abandoned, submission in Hin. cbn [trace] in Hin.
    rewrite !in_app_iff in Hin. cbn [In] in Hin.
    intuition (try discriminate; try (right; congruence);
               try (exfalso; eapply oracle_events_no_send; eassumption)).
Qed.

(** The accepted order ["a"] with an oracle that answers [[]], where the
    hypotheses of [process_order_oracle_raises] hold: the task ends with
    [AttributeError], the order is still ['pending'] and has no task. *)
Lemma process_order_oracle_raises_witness :
  oracle_answer (malformed_oracle "BTC-USDT" "a") "BTC-USDT" "a" =
    Raised AttributeError /\
  fst (process_order malformed_oracle "a" "BTC-USDT" "buy" (JStr "100.5")
         (JStr "0.001") "post_only" accepted_order) = Raised AttributeError /\
  status_of "a"
    (self (snd (process_order malformed_oracle "a" "BTC-USDT" "buy"
                  (JStr "100.5") (JStr "0.001") "post_only" accepted_order))) =
    Some (JStr "pending").
Proof.
  split; [reflexivity |].
  destruct (process_order_oracle_raises malformed_oracle "a" "BTC-USDT" "buy"
              (JStr "100.5") (JStr "0.001") "post_only" accepted_order
              _ (ack "0" "") [] AttributeError
              eq_refl accepted_order_record eq_refl eq_refl eq_refl)
    as (Hrun & _ & Hstatus & _).
  split; [rewrite Hrun; reflexivity | exact Hstatus].
Defined.

(** ** Tasks that let no exception out *)

Section NeverRaises.
Context {S : Type}.

Lemma never_raises_ret {A} (a : A) : never_raises (@ret S A a).
Proof. intros s e. discriminate. Qed.

Lemma never_raises_block {A} : never_raises (@block S A).
Proof. intros s e. discriminate. Qed.

Lemma never_raises_gets {A} (f : S -> A) : never_raises (gets f).
Proof. intros s e. discriminate. Qed.

Lemma never_raises_modify (f : S -> S) : never_raises (modify f).
Proof. intros s e. discriminate. Qed.

Lemma never_raises_emit ev : never_raises (@emit S ev).
Proof. intros s e. discriminate. Qed.

Lemma never_raises_bind {A B} (m : task S A) (k : A -> task S B) :
  never_raises m -> (forall a, never_raises (k a)) -> never_raises (bind m k).
Proof.
  intros Hm Hk s e. unfold bind. specialize (Hm s).
  destruct (m s) as [[a | e' |] s']; cbn in *;
    [apply Hk | now destruct (Hm e') | discriminate].
Qed.

(** A [try] with handlers that let nothing out lets nothing out,
    whatever its body does. *)
Lemma never_raises_try_except {A} (m : task S A) h :
  (forall e, never_raises (h e)) -> never_raises (try_except m h).
Proof.
  intros Hh s e. unfold try_except.
  destruct (m s) as [[a | e' |] s']; cbn; [discriminate | apply Hh | discriminate].
Qed.

Lemma never_raises_for_each {A} (xs : list A) (body : A -> task S unit) :
  (forall x, never_raises (body x)) -> never_raises (for_each xs body).
Proof.
  intros Hb. induction xs as [| x xs IH]; cbn [for_each].
  - apply never_raises_ret.
  - apply never_raises_bind; [apply Hb | intros _; exact IH].
Qed.

End NeverRaises.

Ltac never_raises_step :=
  lazymatch goal with
  | |- never_raises (bind _ _) => apply never_raises_bind; [| intros ?]
  | |- never_raises (try_except _ _) => apply never_raises_try_except; intros ?
  | |- never_raises (for_each _ _) => apply never_raises_for_each; intros ?
  | |- never_raises (ret _) => apply never_raises_ret
  | |- never_raises block => apply never_raises_block
  | |- never_raises (gets _) => apply never_raises_gets
  | |- never_raises (modify _) => apply never_raises_modify
  | |- never_raises (emit _) => apply never_raises_emit
  | |- never_raises (if ?b then _ else _) => destruct b
  | |- never_raises (match ?x with _ => _ end) => destruct x
  end.

Lemma submit_order_never_raises c sym sd px sz ot :
  never_raises (submit_order c sym sd px sz ot).
Proof. unfold submit_order. repeat never_raises_step. Qed.

Lemma cancel_order_never_raises c : never_raises (cancel_order c).
Proof. unfold cancel_order. repeat never_raises_step. Qed.

Lemma forget_task_returns c s :
  exists s', forget_task c s = (Returned tt, s').
Proof. eexists. reflexivity. Qed.

(** The same two facts at one state, where what follows may depend on
    how the first step ended. *)
Lemma bind_never_raises_at {S A B} (m : task S A) (k : A -> task S B) s :
  (forall e, fst (m s) <> Raised e) ->
  (forall a s1, m s = (Returned a, s1) -> forall e, fst (k a s1) <> Raised e) ->
  forall e, fst (bind m k s) <> Raised e.
Proof.
  intros Hm Hk e. unfold bind.
  destruct (m s) as [[a | e' |] s1]; cbn in *;
    [now apply (Hk a s1) | now destruct (Hm e') | discriminate].
Qed.

Lemma try_finally_never_raises_at {S A} (m : task S A) fin s :
  (forall e, fst (m s) <> Raised e) ->
  (forall s1, exists s2, fin s1 = (Returned tt, s2)) ->
  forall e, fst (try_finally m fin s) <> Raised e.
Proof.
  intros Hm Hf e. unfold try_finally.
  destruct (m s) as [[a | e' |] s1]; cbn in *;
    [| now destruct (Hm e') | discriminate].
  destruct (Hf s1) as [s2 ->]. discriminate.
Qed.

(** A submission that succeeded found the order in [self.orders]. *)
Lemma submit_order_true_known c sym sd px sz ot s s1 :
  submit_order c sym sd px sz ot s = (Returned true, s1) ->
  is_Some (orders (self s1) !! c).
Proof.
  intros Htrue.
  destruct (orders (self s) !! c) as [o |] eqn:Ho.
  - destruct (submit_order_kept c sym sd px sz ot s) as (_ & Hk & _).
    rewrite Htrue in Hk. apply Hk. rewrite Ho. eauto.
  - exfalso. revert Htrue. unfold submit_order, queue_get. run_task. cbn.
    destruct (private_websocket (self s)) as [[|] |]; cbn;
      rewrite ?Ho; cbn; discriminate.
Qed.

Lemma wait_then_cancel_never_raises http c sym s e :
  enveloped (http sym c) ->
  is_Some (orders (self s) !! c) ->
  fst (wait_then_cancel http c sym s) <> Raised e.
Proof.
  intros Henv [o Ho].
  destruct (get_order_status_enveloped (http sym c) sym c (St tt []) Henv)
    as [v Hv].
  rewrite (wait_then_cancel_spec http c sym s v Hv).
  destruct (resolved v).
  - unfold assign_status. run_task. cbn. rewrite Ho. discriminate.
  - apply cancel_order_never_raises.
Qed.

(** X12.  As long as the reply to the status query has the documented
    envelope (or the request fails), the task of an order lets no
    exception out, whatever the state of the trader, the connection and
    the mailbox of the order. *)
Theorem process_order_never_raises http c sym sd px sz ot s e :
  enveloped (http sym c) ->
  fst (process_order http c sym sd px sz ot s) <> Raised e.
Proof.
  intros Henv. unfold process_order.
  apply try_finally_never_raises_at; [| apply forget_task_returns].
  apply bind_never_raises_at; [apply submit_order_never_raises |].
  intros [|] s1 Hsub x.
  - apply (wait_then_cancel_never_raises http c sym s1 x Henv).
    exact (submit_order_true_known _ _ _ _ _ _ _ _ Hsub).
  - discriminate.
Qed.

(** The accepted order ["a"] with an oracle that cannot be reached,
    where the hypothesis of [process_order_never_raises] holds. *)
Lemma process_order_never_raises_witness :
  enveloped (unreachable_oracle "BTC-USDT" "a") /\
  fst (process_order unreachable_oracle "a" "BTC-USDT" "buy" (JStr "100.5")
         (JStr "0.001") "post_only" accepted_order) <> Raised KeyError.
Proof.
  split; [exact I |].
  apply (process_order_never_raises unreachable_oracle "a" "BTC-USDT" "buy"
           (JStr "100.5") (JStr "0.001") "post_only" accepted_order KeyError).
  exact I.
Defined.

(** ** What the consumer leaves alone *)







Section LogsOnly.
Context {S : Type}.










End LogsOnly.







(** ** Nothing to cancel *)

(** X14.  With an empty id, an id under which no order is stored, or an
    order whose symbol is empty, [cancel_order] logs a warning and
    returns: it sends nothing, does not wait for an acknowledgment and
    changes nothing. *)
Theorem cancel_order_nothing_to_cancel c s :
  nothing_to_cancel c (self s) ->
  cancel_order c s =
    (Returned tt, St (self s) (trace s ++ [ELog WARNING (cancel_warning c)])).
Proof.
  intros H. unfold cancel_order, cancel_warning.
  destruct (String.eqb_spec c "") as [-> | Hne]; [reflexivity |].
  unfold bind, gets. cbv beta iota.
  destruct H as [Hc | [-> | (o & -> & ->)]]; [contradiction | |]; reflexivity.
Qed.

(** An id that no order was placed under, where the hypothesis of
    [cancel_order_nothing_to_cancel] holds. *)
Lemma cancel_order_nothing_to_cancel_witness :
  nothing_to_cancel "zz" (self one_order) /\
  cancel_order "zz" one_order =
    (Returned tt,
     St (self one_order)
        (trace one_order ++ [ELog WARNING "Missing symbol for order"])).
Proof.
  assert (H : nothing_to_cancel "zz" (self one_order))
    by (right; left; reflexivity).
  split; [exact H |].
  exact (cancel_order_nothing_to_cancel "zz" one_order H).
Defined.

(** ** A status query that succeeds *)

(** X15.  When the body has code ["0"] and its data is a list that starts
    with an object, [get_order_status] returns the [state] of that first
    element, [None] if it has none, whatever else the list holds; it
    makes one request, prints nothing and leaves the caller's state as it
    was. *)
Theorem get_order_status_first_state {S} kv first rest i c (s : st S) :
  dict_get kv "code" = Some (JStr "0") ->
  dict_get kv "data" = Some (JArr (JObj first :: rest)) ->
  get_order_status (Body (JObj kv)) i c s =
    (Returned (match dict_get first "state" with
               | Some state => state
               | None => JNull
               end),
     St (self s) (trace s ++ [EHttpGet i c])).
Proof.
  intros Hc Hd. unfold get_order_status. run_task. cbn.
  rewrite Hc. cbn. rewrite Hd. reflexivity.
Qed.

(** An oracle that reports ['live'], where the hypotheses of
    [get_order_status_first_state] hold. *)
Lemma get_order_status_first_state_witness :
  get_order_status (oracle_reports "live" "BTC-USDT" "a") "BTC-USDT" "a"
    (St tt []) =
    (Returned (JStr "live"), St tt [EHttpGet "BTC-USDT" "a"]).
Proof.
  exact (get_order_status_first_state
           [("code", JStr "0"); ("msg", JStr "");
            ("data", JArr [JObj [("clOrdId", JStr "a"); ("state", JStr "live")]])]
           [("clOrdId", JStr "a"); ("state", JStr "live")] []
           "BTC-USDT" "a" (St tt []) eq_refl eq_refl).
Defined.

(** ** Logging in *)

Ltac all_logs := repeat constructor; eexists; eexists; reflexivity.

(** What [login] does on an open connection with a frame to come. *)
Lemma login_takes_one_frame ak sk pp ts response rest s :
  incoming (self s) = response :: rest ->
  exists logs,
    login ak sk pp (Some Open) ts s =
      (Returned tt,
       St (set_incoming rest (self s))
          (trace s ++ [ESend (login_param ak sk pp ts); ERecv response] ++ logs)) /\
    Forall is_log logs /\
    (In (ELog INFO "Connected and logged in") logs <-> logged_in response = true).
Proof.
  intros H. destruct s as [p tr]. cbn in H.
  unfold login, recv. run_task. cbn. rewrite H. cbn.
  destruct response as [v |]; cbn.
  - destruct v as [| b | z | t | l | kv]; cbn;
      try (eexists; split; [rewrite <- !app_assoc; reflexivity |];
           split; [all_logs |]; cbn; intuition discriminate).
    destruct (dict_get kv "code") as [code |]; cbn.
    + destruct (eq_str code "0"); cbn;
        (eexists; split; [rewrite <- !app_assoc; reflexivity |];
         split; [all_logs |]; cbn; intuition discriminate).
    + eexists; split; [rewrite <- !app_assoc; reflexivity |].
      split; [all_logs |]. cbn. intuition discriminate.
  - eexists; split; [rewrite <- !app_assoc; reflexivity |].
    split; [all_logs |]. cbn. intuition discriminate.
Qed.

(** X16.  On an open connection with a frame to come, [login] sends the
    signed login request, takes exactly that one frame as the response
    and returns; whether the login succeeded, was rejected or the
    response could not be read shows in the log only: the trader and the
    rest of the session are the same in all cases, and nothing is
    raised. *)
Theorem login_result_is_only_logged ak sk pp ts response rest s :
  incoming (self s) = response :: rest ->
  exists logs,
    login ak sk pp (Some Open) ts s =
      (Returned tt,
       St (set_incoming rest (self s))
          (trace s ++ [ESend (login_param ak sk pp ts); ERecv response] ++ logs)) /\
    Forall is_log logs /\
    (In (ELog INFO "Connected and logged in") logs <-> logged_in response = true).
Proof. apply login_takes_one_frame. Qed.

(** A rejected login on a new connection, where the hypothesis of
    [login_result_is_only_logged] holds. *)
Lemma login_result_is_only_logged_witness :
  exists logs,
    login "key" "secret" "pass" (Some Open) "1700000000"
      (opened [login_rejected]) =
      (Returned tt,
       St (set_incoming [] (self (opened [login_rejected])))
          (trace (opened [login_rejected]) ++
             [ESend (login_param "key" "secret" "pass" "1700000000");
              ERecv login_rejected] ++ logs)) /\
    Forall is_log logs /\
    (In (ELog INFO "Connected and logged in") logs <->
     logged_in login_rejected = true).
Proof.
  exact (login_result_is_only_logged "key" "secret" "pass" "1700000000"
           login_rejected [] (opened [login_rejected]) eq_refl).
Defined.

(** ** Connecting *)

Lemma login_never_raises ak sk pp ws ts : never_raises (login ak sk pp ws ts).
Proof. unfold login. repeat never_raises_step. Qed.

Lemma subscribe_to_orders_channel_never_raises :
  never_raises subscribe_to_orders_channel.
Proof. unfold subscribe_to_orders_channel. repeat never_raises_step. Qed.

(** On an open connection the subscription request is the first thing
    that [subscribe_to_orders_channel] puts on the trace. *)
Lemma subscribe_to_orders_channel_sends s :
  private_websocket (trader (self s)) = Some Open ->
  exists later,
    trace (snd (subscribe_to_orders_channel s)) =
      trace s ++ [ESend orders_subscription] ++ later.
Proof.
  intros Hws. unfold subscribe_to_orders_channel, try_except.
  unfold bind at 1. unfold gets at 1. cbv beta iota. rewrite Hws.
  unfold bind at 1. cbn [send emit]. cbv beta iota.
  match goal with
  | |- context [bind ?m ?k (St ?t ?tr)] =>
      assert (Hk : grows (bind m k))
        by (unfold recv; repeat grows_step);
      destruct (Hk (St t tr)) as [l Hl];
      destruct (bind m k (St t tr)) as [[[] | e |] s1]; cbn in *
  end.
  - exists l. rewrite Hl, <- app_assoc. reflexivity.
  - exists (l ++ [ELog ERROR "Error while subscribing to orders channel"]).
    rewrite Hl, <- !app_assoc. reflexivity.
  - exists l. rewrite Hl, <- app_assoc. reflexivity.
Qed.

(** Once the connection is made, [connect_and_login] is the login, the
    subscription and the creation of the consumer, one after the
    other. *)
Lemma connect_and_login_connected ak sk pp ws ts s :
  connect_and_login ak sk pp (ok ws) ts s =
    try_except
      (login ak sk pp (Some ws) ts ;;
       subscribe_to_orders_channel ;;
       modify (set_consuming true))
      (fun _ => emit (ELog ERROR "Connection failed"))
      (St (set_trader (set_private_websocket (Some ws) (trader (self s))) (self s))
          (trace s ++ [EConnect])).
Proof. reflexivity. Qed.

(** X17.  [connect_and_login] lets no exception out.  When the
    connection cannot be made it logs that and changes nothing.  When it
    is made and a response to the login arrives, the login request,
    signed for [GET /users/self/verify], is sent first and the
    subscription request to the orders channel is sent after the
    response, whatever the response is.  On a socket that takes no
    request both failures are logged.  And whatever the login and the
    subscription gave, if the call returns at all the consumer has been
    created. *)
Theorem connect_and_login_goes_on ak sk pp connected ts s :
  (forall e, fst (connect_and_login ak sk pp connected ts s) <> Raised e) /\
  (forall e, connected = throw e ->
     connect_and_login ak sk pp connected ts s =
       (Returned tt,
        St (self s) (trace s ++ [EConnect; ELog ERROR "Connection failed"]))) /\
  (forall ws, connected = ok ws ->
     fst (connect_and_login ak sk pp connected ts s) = Returned tt ->
     consuming (self (snd (connect_and_login ak sk pp connected ts s))) = true) /\
  (forall response rest,
     connected = ok Open ->
     incoming (self s) = response :: rest ->
     exists logs later,
       trace (snd (connect_and_login ak sk pp connected ts s)) =
         trace s ++
         [EConnect;
          ESend (login_request ak pp ts
                   (sign_spec sk ts "GET" "/users/self/verify" ""));
          ERecv response] ++
         logs ++ [ESend orders_subscription] ++ later /\
       Forall is_log logs /\
       (In (ELog INFO "Connected and logged in") logs <->
        logged_in response = true)) /\
  (connected = ok Closed ->
   connect_and_login ak sk pp connected ts s =
     (Returned tt,
      St (set_consuming true
            (set_trader (set_private_websocket (Some Closed) (trader (self s)))
               (self s)))
         (trace s ++
            [EConnect;
             ELog ERROR "Error during login";
             ELog ERROR "Error while subscribing to orders channel"]))).
Proof.
  assert (Hbody : forall ws s1,
    let r := try_except
               (login ak sk pp (Some ws) ts ;;
                subscribe_to_orders_channel ;;
                modify (set_consuming true))
               (fun _ => emit (ELog ERROR "Connection failed")) s1 in
    (forall e, fst r <> Raised e) /\
    (fst r = Returned tt -> consuming (self (snd r)) = true)).
  { intros ws s1. cbv zeta. unfold try_except, bind.
    pose proof (login_never_raises ak sk pp (Some ws) ts s1) as Hl.
    destruct (login ak sk pp (Some ws) ts s1) as [[[] | e1 |] s2]; cbn in *;
      [| now destruct (Hl e1) | split; [discriminate | discriminate]].
    pose proof (subscribe_to_orders_channel_never_raises s2) as Hs.
    destruct (subscribe_to_orders_channel s2) as [[[] | e2 |] s3]; cbn in *;
      [| now destruct (Hs e2) | split; [discriminate | discriminate]].
    split; [discriminate | reflexivity]. }
  destruct connected as [e0 | ws].
  - split; [discriminate |]. split; [| split; [| split]].
    + intros e He. injection He as <-. destruct s as [p tr].
      unfold connect_and_login. run_task. cbn.
      rewrite <- ?app_assoc. reflexivity.
    + intros ws Hws. discriminate Hws.
    + intros response rest Hc. discriminate Hc.
    + intros Hc. discriminate Hc.
  - rewrite connect_and_login_connected.
    destruct (Hbody ws
                (St (set_trader (set_private_websocket (Some ws) (trader (self s)))
                       (self s))
                    (trace s ++ [EConnect]))) as [Hr Hc].
    split; [exact Hr |]. split; [intros e He; discriminate He |].
    split; [intros ws' _; exact Hc |]. split.
    + intros response rest Hws Hin. injection Hws as ->.
      set (s0 := St _ (trace s ++ [EConnect])).
      destruct (login_takes_one_frame ak sk pp ts response rest s0 Hin)
        as (logs & Hlogin & Flogs & Hiff).
      exists logs. unfold try_except, bind. rewrite Hlogin.
      set (s1 := St _ _).
      destruct (subscribe_to_orders_channel_sends s1 eq_refl) as [later Hlater].
      pose proof (subscribe_to_orders_channel_never_raises s1) as Hs.
      exists later. split; [| split; assumption].
      assert (Htrace : trace (snd (subscribe_to_orders_channel s1)) =
                trace s ++
                [EConnect;
                 ESend (login_request ak pp ts
                          (sign_spec sk ts "GET" "/users/self/verify" ""));
                 ERecv response] ++
                logs ++ [ESend orders_subscription] ++ later).
      { rewrite Hlater. subst s1 s0. cbn [trace].
        rewrite <- !app_assoc. reflexivity. }
      destruct (subscribe_to_orders_channel s1) as [[[] | e2 |] s2];
        cbn [fst snd] in *; [exact Htrace | now destruct (Hs e2) | exact Htrace].
    + intros Hws. injection Hws as ->.
      destruct s as [[t inc en co] tr]. destruct t as [uid ot oty ws os tasks].
      unfold try_except, login, subscribe_to_orders_channel. run_task. cbn.
      rewrite <- !app_assoc. reflexivity.
Qed.

(** A connection on which the exchange rejects the login and then
    refuses the subscription, where the hypotheses of
    [connect_and_login_goes_on] hold: the subscription request is sent
    after the rejection and the consumer is created all the same. *)
Lemma connect_and_login_goes_on_witness :
  fst (connect_and_login "key" "secret" "pass" (ok Open) "1700000000"
         (opened [login_rejected; subscription_refused])) = Returned tt /\
  consuming
    (self (snd (connect_and_login "key" "secret" "pass" (ok Open) "1700000000"
                  (opened [login_rejected; subscription_refused])))) = true /\
  exists logs later,
    trace (snd (connect_and_login "key" "secret" "pass" (ok Open) "1700000000"
                  (opened [login_rejected; subscription_refused]))) =
      trace (opened [login_rejected; subscription_refused]) ++
      [EConnect;
       ESend (login_request "key" "pass" "1700000000"
                (sign_spec "secret" "1700000000" "GET" "/users/self/verify" ""));
       ERecv login_rejected] ++
      logs ++ [ESend orders_subscription] ++ later /\
    Forall is_log logs /\
    (In (ELog INFO "Connected and logged in") logs <->
     logged_in login_rejected = true).
Proof.
  assert (H : fst (connect_and_login "key" "secret" "pass" (ok Open)
                     "1700000000"
                     (opened [login_rejected; subscription_refused]))
              = Returned tt) by reflexivity.
  destruct (connect_and_login_goes_on "key" "secret" "pass" (ok Open)
              "1700000000" (opened [login_rejected; subscription_refused]))
    as (_ & _ & Hcons & Hsub & _).
  split; [exact H |]. split; [exact (Hcons Open eq_refl H) |].
  exact (Hsub login_rejected [subscription_refused] eq_refl eq_refl).
Defined.

(** ** Subscribing to the orders channel *)

Ltac subscription_done :=
  eexists; split; [rewrite <- ?app_assoc; reflexivity | all_logs].

(** X18.  On an open connection [subscribe_to_orders_channel] sends the
    request and takes the next frame as the response.  If that frame
    confirms the subscription, the frame after it is taken as well,
    whatever it is: if it is not the connection count it is dropped
    without a trace but the log, so an order update arriving there
    reaches no mailbox.  If the first frame does not confirm, only that
    frame is taken.  In both cases the call returns and the trader is as
    before. *)
Theorem subscribe_takes_the_frame_after_confirmation s :
  private_websocket (trader (self s)) = Some Open ->
  (forall first next rest,
     incoming (self s) = first :: next :: rest ->
     confirms first = true ->
     exists logs,
       subscribe_to_orders_channel s =
         (Returned tt,
          St (set_incoming rest (self s))
             (trace s ++ subscription_request first ++
                [ELog INFO "subscribe_to_orders_channel";
                 ELog INFO "Subscription to orders channel successful!";
                 ERecv next] ++ logs)) /\
       Forall is_log logs) /\
  (forall first rest,
     incoming (self s) = first :: rest ->
     confirms first = false ->
     exists logs,
       subscribe_to_orders_channel s =
         (Returned tt,
          St (set_incoming rest (self s))
             (trace s ++ subscription_request first ++ logs)) /\
       Forall is_log logs).
Proof.
  intros Hws. destruct s as [[t inc en co] tr].
  destruct t as [uid ot oty ws os tasks]. cbn in Hws. subst ws.
  unfold subscription_request. split.
  - intros first next rest Hin Hc. cbn in Hin. subst inc.
    destruct first as [[| | | | | kv] |]; try discriminate Hc. cbn in Hc.
    unfold subscribe_to_orders_channel, recv. run_task. cbn.
    destruct (dict_get kv "event") as [ev |]; [| discriminate Hc].
    apply andb_prop in Hc as [Hev Hc]. rewrite Hev.
    destruct (dict_get kv "arg") as [[| | | | | arg] |]; try discriminate Hc.
    cbn. destruct (dict_get arg "channel") as [ch |]; [| discriminate Hc].
    rewrite Hc. cbn.
    destruct next as [[| | | | | kv'] |]; cbn; try subscription_done.
    destruct (dict_get kv' "event") as [ev' |]; cbn; [| subscription_done].
    destruct (eq_str ev' "channel-conn-count"); cbn; subscription_done.
  - intros first rest Hin Hc. cbn in Hin. subst inc.
    unfold subscribe_to_orders_channel, recv. run_task. cbn.
    destruct first as [[| | | | | kv] |]; cbn; try subscription_done.
    cbn in Hc.
    destruct (dict_get kv "event") as [ev |]; cbn; [| subscription_done].
    destruct (eq_str ev "subscribe"); cbn in *; [| subscription_done].
    destruct (dict_get kv "arg") as [[| | | | | arg] |]; cbn;
      try subscription_done.
    destruct (dict_get arg "channel") as [ch |]; cbn; [| subscription_done].
    rewrite Hc. cbn. subscription_done.
Qed.

(** A confirmation followed at once by an update for the order ["a"],
    where the hypotheses of [subscribe_takes_the_frame_after_confirmation]
    hold: both frames are taken and no frame is left for the consumer. *)
Lemma subscribe_takes_the_frame_after_confirmation_witness :
  exists logs,
    subscribe_to_orders_channel (opened [subscription_confirmed; order_update]) =
      (Returned tt,
       St (set_incoming [] (self (opened [subscription_confirmed; order_update])))
          (trace (opened [subscription_confirmed; order_update]) ++
             subscription_request subscription_confirmed ++
             [ELog INFO "subscribe_to_orders_channel";
              ELog INFO "Subscription to orders channel successful!";
              ERecv order_update] ++ logs)) /\
    Forall is_log logs.
Proof.
  exact (proj1 (subscribe_takes_the_frame_after_confirmation
                  (opened [subscription_confirmed; order_update]) eq_refl)
               subscription_confirmed order_update [] eq_refl eq_refl).
Defined.

(** ** The window of the calculator *)

Section WindowProperties.

Context {F : Type} (parse : string -> option F) (of_int : Z -> F)
  (neg : F -> F) (sum : list F -> F) (div : F -> Z -> F) (gt : F -> F -> bool).

Local Notation "'add_trade''" := (add_trade parse of_int neg sum div gt).
Local Notation "'signed_size''" := (signed_size parse of_int neg).
Local Notation "'counted''" := (counted parse of_int neg).

(** A trade that counts is appended, and the window is closed when it is
    full. *)
Lemma add_trade_signed trade size (c : MarketIntensityCalculator F) :
  signed_size' trade = Some size ->
  add_trade' trade c =
    if window_size c <=? Z.of_nat (length (size_list c ++ [size])) then
      (inr tt, closed_on sum div gt (size_list c ++ [size]) c)
    else (inr tt, set_size_list (size_list c ++ [size]) c).
Proof.
  unfold signed_size, add_trade. intros H.
  destruct (getitem trade "sz") as [e | sz]; [discriminate |].
  destruct (getitem trade "side") as [e | side]; [discriminate |].
  destruct (float parse of_int sz) as [e | x]; [discriminate |].
  assert (Hclose : forall y,
    (if window_size (set_size_list (size_list c ++ [y]) c) <=?
          Z.of_nat (length (size_list (set_size_list (size_list c ++ [y]) c)))
     then calculate_market_intensity sum div gt
            (set_size_list (size_list c ++ [y]) c)
     else (inr tt, set_size_list (size_list c ++ [y]) c)) =
    if window_size c <=? Z.of_nat (length (size_list c ++ [y])) then
      (inr tt, closed_on sum div gt (size_list c ++ [y]) c)
    else (inr tt, set_size_list (size_list c ++ [y]) c)).
  { intros y. cbn [window_size size_list set_size_list].
    destruct (window_size c <=? _); [| reflexivity].
    unfold calculate_market_intensity, closed_on.
    cbn [size_list set_size_list threshold window_size].
    destruct (size_list c ++ [y]) as [| z l] eqn:Hl;
      [now destruct (size_list c) |].
    destruct (gt _ _); reflexivity. }
  destruct (eq_str side "buy").
  - injection H as <-. apply Hclose.
  - destruct (eq_str side "sell"); [| discriminate].
    injection H as <-. apply Hclose.
Qed.

(** A trade that does not count: the call raises something other than
    [ZeroDivisionError] before it has changed anything, or it goes
    straight to the check on the length. *)
Lemma add_trade_unsigned trade (c : MarketIntensityCalculator F) :
  signed_size' trade = None ->
  (exists e, e <> ZeroDivisionError /\ add_trade' trade c = (inl e, c)) \/
  add_trade' trade c =
    if window_size c <=? Z.of_nat (length (size_list c)) then
      calculate_market_intensity sum div gt c
    else (inr tt, c).
Proof.
  unfold signed_size, add_trade.
  destruct (getitem trade "sz") as [e | sz];
    [intros _; left; eexists; split; [| reflexivity]; discriminate |].
  destruct (float parse of_int sz) as [e | x] eqn:Hf.
  - intros _. left. exists e. split; [| reflexivity].
    unfold float in Hf.
    destruct sz as [| b | z | t | l | kv]; try discriminate Hf;
      try (injection Hf as <-; discriminate).
    destruct (parse t); [discriminate Hf | injection Hf as <-; discriminate].
  - destruct (getitem trade "side") as [e | side];
      [intros _; left; eexists; split; [| reflexivity]; discriminate |].
    destruct (eq_str side "buy"); [discriminate |].
    destruct (eq_str side "sell"); [discriminate |].
    intros _. right. reflexivity.
Qed.

(** X19.  With a window of at least one trade, a calculator that holds
    fewer sizes than its window still does so after [add_trade], however
    the call ends; the call never divides by zero; and when it raises,
    the calculator is as it was.  A new calculator starts with no
    sizes. *)
Theorem add_trade_stays_below_window trade (c : MarketIntensityCalculator F) :
  1 <= window_size c ->
  Z.of_nat (length (size_list c)) < window_size c ->
  fst (add_trade' trade c) <> inl ZeroDivisionError /\
  Z.of_nat (length (size_list (snd (add_trade' trade c)))) <
    window_size (snd (add_trade' trade c)) /\
  window_size (snd (add_trade' trade c)) = window_size c /\
  (forall e, fst (add_trade' trade c) = inl e -> snd (add_trade' trade c) = c).
Proof.
  intros Hw Hl.
  destruct (signed_size' trade) as [size |] eqn:Hs.
  - rewrite (add_trade_signed trade size c Hs).
    destruct (window_size c <=? _) eqn:Hfull; cbn [fst snd].
    + split; [discriminate |]. split; [cbn; lia |].
      split; [reflexivity | discriminate].
    + apply Z.leb_gt in Hfull.
      split; [discriminate |]. split; [cbn in *; lia |].
      split; [reflexivity | discriminate].
  - destruct (add_trade_unsigned trade c Hs) as [(e & He & ->) | ->].
    + cbn [fst snd]. split; [congruence |]. split; [lia |].
      split; reflexivity.
    + destruct (Z.leb_spec (window_size c) (Z.of_nat (length (size_list c))));
        [lia |]. cbn [fst snd].
      split; [discriminate |]. split; [lia |].
      split; [reflexivity | discriminate].
Qed.

Lemma set_size_list_same (c : MarketIntensityCalculator F) :
  set_size_list (size_list c ++ []) c = c.
Proof. destruct c. cbn. now rewrite app_nil_r. Qed.

(** [calculate_market_intensity] on a window that holds sizes. *)
Lemma calculate_market_intensity_closes (c : MarketIntensityCalculator F) :
  size_list c <> [] ->
  calculate_market_intensity sum div gt c =
    (inr tt, closed_on sum div gt (size_list c) c).
Proof.
  intros Hne. unfold calculate_market_intensity, closed_on.
  destruct (size_list c) as [| x l]; [congruence |].
  destruct (gt _ _); reflexivity.
Qed.

(** How a call of [add_trade] ends, by the sizes in the window after the
    trade: a call that raises has changed nothing; a call that returns
    has appended what the trade adds if that leaves the window open, and
    has closed the window on those sizes otherwise. *)
Lemma add_trade_cases trade (c : MarketIntensityCalculator F) :
  (forall e, fst (add_trade' trade c) = inl e -> snd (add_trade' trade c) = c) /\
  (fst (add_trade' trade c) = inr tt ->
   Z.of_nat (length (size_list c ++ counted' trade)) < window_size c ->
   snd (add_trade' trade c) = set_size_list (size_list c ++ counted' trade) c) /\
  (fst (add_trade' trade c) = inr tt ->
   window_size c <= Z.of_nat (length (size_list c ++ counted' trade)) ->
   snd (add_trade' trade c) =
     closed_on sum div gt (size_list c ++ counted' trade) c).
Proof.
  unfold counted.
  destruct (signed_size' trade) as [size |] eqn:Hs.
  - rewrite (add_trade_signed trade size c Hs).
    destruct (Z.leb_spec (window_size c)
                (Z.of_nat (length (size_list c ++ [size])))); cbn [fst snd];
      (split; [discriminate |]); split; intros _ H'; first [reflexivity | lia].
  - destruct (add_trade_unsigned trade c Hs) as [(e & _ & ->) | ->];
      cbn [fst snd].
    { split; [reflexivity |]. split; discriminate. }
    rewrite app_nil_r.
    destruct (Z.leb_spec (window_size c) (Z.of_nat (length (size_list c)))).
    + destruct (size_list c) as [| x l] eqn:Hl.
      * unfold calculate_market_intensity. rewrite Hl. cbn [fst snd].
        split; [reflexivity |]. split; discriminate.
      * rewrite calculate_market_intensity_closes by (rewrite Hl; discriminate).
        rewrite Hl. cbn [fst snd].
        split; [discriminate |]. split; intros _ H'; [cbn in *; lia | reflexivity].
    + cbn [fst snd]. split; [discriminate |].
      split; intros _ H'; [| lia].
      rewrite <- (app_nil_r (size_list c)) at 1.
      now rewrite set_size_list_same.
Qed.

(** X20.  [add_trade] changes the flag only when it closes the window.
    A call that raises changes nothing.  A call that returns and leaves
    the window open, because the trade does not count or because the
    window is not full yet, has appended what the trade adds and left
    the flag as it was.  A call that returns with the window full has
    closed it: the flag becomes whether the mean of the signed sizes of
    the window exceeds the threshold, whatever it was before, and the
    window starts again from empty.  So whenever the sizes after the
    trade are fewer than the window, the flag is as it was. *)
Theorem flag_changes_when_window_closes trade (c : MarketIntensityCalculator F) :
  (forall e, fst (add_trade' trade c) = inl e -> snd (add_trade' trade c) = c) /\
  (fst (add_trade' trade c) = inr tt ->
   Z.of_nat (length (size_list c ++ counted' trade)) < window_size c ->
   snd (add_trade' trade c) = set_size_list (size_list c ++ counted' trade) c) /\
  (fst (add_trade' trade c) = inr tt ->
   window_size c <= Z.of_nat (length (size_list c ++ counted' trade)) ->
   snd (add_trade' trade c) =
     closed_on sum div gt (size_list c ++ counted' trade) c) /\
  (Z.of_nat (length (size_list c ++ counted' trade)) < window_size c ->
   flag (snd (add_trade' trade c)) = flag c) /\
  (forall size,
     signed_size' trade = Some size ->
     window_size c <= Z.of_nat (length (size_list c)) + 1 ->
     add_trade' trade c =
       (inr tt, closed_on sum div gt (size_list c ++ [size]) c)).
Proof.
  destruct (add_trade_cases trade c) as (Hraise & Hopen & Hclose).
  split; [exact Hraise |]. split; [exact Hopen |]. split; [exact Hclose |].
  split.
  - intros Hlt.
    destruct (fst (add_trade' trade c)) as [e | []] eqn:Hr.
    + now rewrite (Hraise e eq_refl).
    + now rewrite (Hopen eq_refl Hlt).
  - intros size Hs Hfull. rewrite (add_trade_signed trade size c Hs).
    destruct (Z.leb_spec (window_size c)
                (Z.of_nat (length (size_list c ++ [size]))));
      [reflexivity | rewrite length_app in *; cbn in *; lia].
Qed.

End WindowProperties.

(** The window of three, where the hypotheses of
    [add_trade_stays_below_window] hold. *)
Lemma add_trade_stays_below_window_witness :
  fst (add_exactly (sized "buy" "2") two_of_three) <> inl ZeroDivisionError /\
  Z.of_nat (length (size_list (snd (add_exactly (sized "buy" "2") two_of_three))))
    < window_size (snd (add_exactly (sized "buy" "2") two_of_three)) /\
  window_size (snd (add_exactly (sized "buy" "2") two_of_three)) =
    window_size two_of_three /\
  (forall e, fst (add_exactly (sized "buy" "2") two_of_three) = inl e ->
             snd (add_exactly (sized "buy" "2") two_of_three) = two_of_three).
Proof.
  apply (add_trade_stays_below_window whole QArith_base.inject_Z
           QArith_base.Qopp total over exceeds (sized "buy" "2") two_of_three);
    [vm_compute; discriminate | reflexivity].
Defined.

(** The third trade of a window of three, where the hypotheses of
    [flag_changes_when_window_closes] hold: a buy of 2 closes the window
    and raises the flag, the mean of 3, 4 and 2 exceeding the threshold
    2; a trade that is neither a buy nor a sell leaves the window open
    and the flag as it was. *)
Lemma flag_changes_when_window_closes_witness :
  signed_size whole QArith_base.inject_Z QArith_base.Qopp (sized "buy" "2") =
    Some (QArith_base.inject_Z 2) /\
  get_flag (snd (add_exactly (sized "buy" "2") two_of_three)) = true /\
  size_list (snd (add_exactly (sized "buy" "2") two_of_three)) = [] /\
  flag (snd (add_exactly (sized "hold" "2") two_of_three)) = flag two_of_three.
Proof.
  assert (Hs : signed_size whole QArith_base.inject_Z QArith_base.Qopp
                 (sized "buy" "2") = Some (QArith_base.inject_Z 2))
    by reflexivity.
  destruct (flag_changes_when_window_closes whole QArith_base.inject_Z
              QArith_base.Qopp total over exceeds (sized "buy" "2")
              two_of_three) as (_ & _ & _ & _ & Hclose).
  destruct (flag_changes_when_window_closes whole QArith_base.inject_Z
              QArith_base.Qopp total over exceeds (sized "hold" "2")
              two_of_three) as (_ & _ & _ & Hopen & _).
  split; [exact Hs |]. unfold add_exactly.
  rewrite (Hclose _ Hs ltac:(vm_compute; discriminate)).
  split; [reflexivity |]. split; [reflexivity |].
  apply Hopen. reflexivity.
Defined.

(** ** Windows over a stream of trades *)

Section Stream.

Context {F : Type} (parse : string -> option F) (of_int : Z -> F)
  (neg : F -> F) (sum : list F -> F) (div : F -> Z -> F) (gt : F -> F -> bool).

Local Notation "'feed''" := (feed parse of_int neg sum div gt).
Local Notation "'counts'" :=
  (fun trade size => signed_size parse of_int neg trade = Some size).

Lemma feed_app trades trades' (c : MarketIntensityCalculator F) :
  feed' (trades ++ trades') c =
    match feed' trades c with
    | (inr _, c') => feed' trades' c'
    | (inl e, c') => (inl e, c')
    end.
Proof.
  revert c. induction trades as [| trade trades IH]; intros c; cbn [feed app];
    [reflexivity |].
  destruct (add_trade _ _ _ _ _ _ trade c) as [[e | []] c']; [reflexivity |].
  apply IH.
Qed.

(** Trades that count fill the window up and close it with the last
    one. *)
Lemma feed_fills_window trades sizes :
  Forall2 counts trades sizes ->
  sizes <> [] ->
  forall c : MarketIntensityCalculator F,
    window_size c = Z.of_nat (length (size_list c) + length sizes) ->
    feed' trades c = (inr tt, closed_on sum div gt (size_list c ++ sizes) c).
Proof.
  induction 1 as [| trade size trades sizes Hs Hrest IH]; [congruence |].
  intros _ c Hw. cbn [feed].
  rewrite (add_trade_signed parse of_int neg sum div gt trade size c Hs).
  rewrite length_app.
  destruct sizes as [| size' sizes]; cbn [length] in *.
  - inversion Hrest; subst.
    destruct (Z.leb_spec (window_size c) (Z.of_nat (length (size_list c) + 1)));
      [reflexivity | lia].
  - destruct (Z.leb_spec (window_size c) (Z.of_nat (length (size_list c) + 1)));
      [cbn [length] in *; lia |].
    rewrite IH; [| discriminate |].
    + unfold closed_on. cbn [size_list set_size_list threshold window_size].
      now rewrite <- app_assoc.
    + cbn [size_list set_size_list window_size length] in *.
      rewrite length_app. cbn [length]. lia.
Qed.

(** X21.  The windows do not overlap.  From an empty window, trades
    that count and are as many as the window is wide close it on their
    own sizes; and when a second such run of trades follows, the
    calculator ends up as the second run alone leaves it: the flag that
    the first window gave is overwritten and none of its sizes is used
    again. *)
Theorem windows_do_not_overlap trades sizes trades' sizes'
    (c : MarketIntensityCalculator F) :
  size_list c = [] ->
  Forall2 counts trades sizes ->
  Forall2 counts trades' sizes' ->
  sizes <> [] ->
  window_size c = Z.of_nat (length sizes) ->
  length sizes' = length sizes ->
  feed' trades c = (inr tt, closed_on sum div gt sizes c) /\
  feed' (trades ++ trades') c = (inr tt, closed_on sum div gt sizes' c).
Proof.
  intros Hempty Hc Hc' Hne Hw Hlen.
  assert (H1 : feed' trades c = (inr tt, closed_on sum div gt sizes c)).
  { rewrite (feed_fills_window trades sizes Hc Hne c); rewrite Hempty;
      [reflexivity | exact Hw]. }
  split; [exact H1 |].
  rewrite feed_app, H1.
  rewrite (feed_fills_window trades' sizes' Hc').
  - reflexivity.
  - destruct sizes'; [destruct sizes; [congruence | discriminate] | discriminate].
  - cbn. rewrite Hlen. exact Hw.
Qed.

End Stream.

(** Two windows of three trades, where the hypotheses of
    [windows_do_not_overlap] hold: the first window raises the flag, the
    second, of sells, leaves it down. *)
Lemma windows_do_not_overlap_witness :
  get_flag
    (snd (feed_exactly [sized "buy" "3"; sized "buy" "4"; sized "buy" "2"]
            three_wide)) = true /\
  get_flag
    (snd (feed_exactly
            ([sized "buy" "3"; sized "buy" "4"; sized "buy" "2"] ++
             [sized "sell" "3"; sized "sell" "4"; sized "buy" "2"])
            three_wide)) = false.
Proof.
  destruct (windows_do_not_overlap whole QArith_base.inject_Z QArith_base.Qopp
              total over exceeds
              [sized "buy" "3"; sized "buy" "4"; sized "buy" "2"]
              [QArith_base.inject_Z 3; QArith_base.inject_Z 4;
               QArith_base.inject_Z 2]
              [sized "sell" "3"; sized "sell" "4"; sized "buy" "2"]
              [QArith_base.Qopp (QArith_base.inject_Z 3);
               QArith_base.Qopp (QArith_base.inject_Z 4);
               QArith_base.inject_Z 2]
              three_wide eq_refl
              ltac:(repeat constructor) ltac:(repeat constructor)
              ltac:(discriminate) eq_refl eq_refl) as [H1 H2].
  unfold feed_exactly. rewrite H1, H2. split; reflexivity.
Defined.

(** ** One turn of the trading loop *)

Section Loop.

Context {F : Type} (parse : string -> option F) (of_int : Z -> F)
  (neg : F -> F) (sum : list F -> F) (div : F -> Z -> F) (gt : F -> F -> bool).

Local Notation "'iteration''" := (iteration parse of_int neg sum div gt).
Local Notation "'add_trade''" := (add_trade parse of_int neg sum div gt).
Local Notation "'counted''" := (counted parse of_int neg).

(** X22.  One turn of the loop takes at most one trade, the oldest, from
    the deque of the fetcher and changes nothing else of the fetcher.
    It asks for at most one order, and it does so exactly when it took a
    trade, [add_trade] returned with the flag up and the latest
    snapshot has a best bid: the order is a buy of 0.001 of the
    fetcher's instrument at that bid.  If the flag was down before the
    turn, that happens only when the trade closed a window; a flag that
    was up already is acted on without one.  A turn that took a trade
    and did not raise leaves the flag down, so a raised flag is acted on
    once. *)
Theorem iteration_asks_for_one_order_per_signal
    (m : MarketIntensityTradingManager F) :
  fetcher (snd (iteration' m)) =
    set_data_deque (tail (data_deque (fetcher m))) (fetcher m) /\
  (requested (snd (iteration' m)) = requested m \/
   exists current rest order_price,
     data_deque (fetcher m) = current :: rest /\
     fst (add_trade' current (market_intensity_calculator m)) = inr tt /\
     get_flag (snd (add_trade' current (market_intensity_calculator m))) = true /\
     get_latest_bid0_price (fetcher m) = ok order_price /\
     order_price <> JNull /\
     fst (iteration' m) = inr tt /\
     requested (snd (iteration' m)) =
       requested m ++ [buy_at (fetcher m) order_price] /\
     (get_flag (market_intensity_calculator m) = false ->
      window_size (market_intensity_calculator m) <=
        Z.of_nat (length (size_list (market_intensity_calculator m) ++
                          counted' current)) /\
      snd (add_trade' current (market_intensity_calculator m)) =
        closed_on sum div gt
          (size_list (market_intensity_calculator m) ++ counted' current)
          (market_intensity_calculator m))) /\
  (forall current rest order_price,
     data_deque (fetcher m) = current :: rest ->
     fst (add_trade' current (market_intensity_calculator m)) = inr tt ->
     get_flag (snd (add_trade' current (market_intensity_calculator m))) = true ->
     get_latest_bid0_price (fetcher m) = ok order_price ->
     order_price <> JNull ->
     requested (snd (iteration' m)) =
       requested m ++ [buy_at (fetcher m) order_price]) /\
  (fst (iteration' m) = inr tt ->
   data_deque (fetcher m) <> [] ->
   get_flag (market_intensity_calculator (snd (iteration' m))) = false).
Proof.
  destruct m as [f c rq pr]. unfold iteration.
  cbn [fetcher market_intensity_calculator requested printed].
  destruct (data_deque f) as [| current rest] eqn:Hd.
  { cbn. split; [destruct f; cbn in *; now subst |].
    split; [now left |]. split; [discriminate | congruence]. }
  cbn [fetcher market_intensity_calculator set_fetcher print tail].
  pose proof (add_trade_cases parse of_int neg sum div gt current c)
    as (_ & Hopen & Hclose).
  destruct (add_trade' current c) as [[e | []] c'] eqn:Ha.
  { cbn. split; [reflexivity |]. split; [now left |].
    split; [| discriminate].
    intros current0 rest0 order_price H. injection H as <- <-.
    rewrite Ha. discriminate. }
  cbn [fst snd] in Hopen, Hclose.
  cbn [market_intensity_calculator set_market_intensity_calculator fetcher].
  destruct (get_flag c') eqn:Hf.
  2: { cbn. split; [reflexivity |]. split; [now left |].
       split; [| auto].
       intros current0 rest0 order_price H. injection H as <- <-.
       rewrite Ha. cbn. congruence. }
  repeat match goal with
         | |- context [get_latest_bid0_price ?x] =>
             progress change (get_latest_bid0_price x)
               with (latest_bid_price 1 0 f)
         end.
  assert (Hwindow : get_flag c = false ->
            window_size c <= Z.of_nat (length (size_list c ++ counted' current)) /\
            c' = closed_on sum div gt (size_list c ++ counted' current) c).
  { intros Hdown.
    destruct (Z.leb_spec (window_size c)
                (Z.of_nat (length (size_list c ++ counted' current))))
      as [Hfull | Hlt].
    - split; [exact Hfull | exact (Hclose eq_refl Hfull)].
    - exfalso. rewrite (Hopen eq_refl Hlt) in Hf.
      unfold get_flag in *. cbn in Hf. congruence. }
  destruct (latest_bid_price 1 0 f) as [e | order_price] eqn:Hp.
  { cbn. split; [reflexivity |]. split; [now left |].
    split; [| discriminate].
    intros current0 rest0 order_price H _ _ Hp'. discriminate Hp'. }
  assert (Hask : order_price <> JNull ->
    exists current0 rest0 order_price0,
      current :: rest = current0 :: rest0 /\
      fst (add_trade' current0 c) = inr tt /\
      get_flag (snd (add_trade' current0 c)) = true /\
      ok order_price = ok order_price0 /\
      order_price0 <> JNull /\
      @inr error unit tt = inr tt /\
      rq ++ [buy_at f order_price] = rq ++ [buy_at f order_price0] /\
      (get_flag c = false ->
       window_size c <=
         Z.of_nat (length (size_list c ++ counted' current0)) /\
       snd (add_trade' current0 c) =
         closed_on sum div gt (size_list c ++ counted' current0) c)).
  { intros Hnn. exists current, rest, order_price. rewrite Ha. cbn [fst snd].
    repeat split; auto; apply Hwindow; assumption. }
  assert (Honly : forall current0 rest0 order_price0 (x : list request),
            current :: rest = current0 :: rest0 ->
            ok order_price = ok order_price0 ->
            order_price0 <> JNull ->
            order_price = JNull -> x = rq ++ [buy_at f order_price0]).
  { intros ? ? ? ? _ Hq Hnn ->. injection Hq as <-. now destruct Hnn. }
  destruct order_price as [| b | z | t | l | kv]; cbn;
    (split; [reflexivity |]);
    (split; [first [right; apply Hask; discriminate | now left] |]);
    (split; [| auto]);
    intros current0 rest0 order_price0 H _ _ Hq Hnn;
    first [ injection Hq as <-; reflexivity
          | eapply Honly; eauto ].
Qed.

End Loop.

(** The manager whose window is closed by the next trade with the flag
    raised, where the hypotheses of
    [iteration_asks_for_one_order_per_signal] hold: the turn asks for a
    buy at the best bid and leaves the flag down. *)
Lemma iteration_asks_for_one_order_per_signal_witness :
  fst (iterate_exactly (managing [sized "buy" "2"])) = inr tt /\
  requested (snd (iterate_exactly (managing [sized "buy" "2"]))) =
    requested (managing [sized "buy" "2"]) ++
    [buy_at book_of_five (JStr "100.5")] /\
  get_flag
    (market_intensity_calculator
       (snd (iterate_exactly (managing [sized "buy" "2"])))) = false.
Proof.
  assert (H : fst (iterate_exactly (managing [sized "buy" "2"])) = inr tt)
    by reflexivity.
  destruct (iteration_asks_for_one_order_per_signal whole QArith_base.inject_Z
              QArith_base.Qopp total over exceeds (managing [sized "buy" "2"]))
    as (_ & _ & Hreq & Hdown).
  split; [exact H |]. split.
  - apply (Hreq (sized "buy" "2") [] (JStr "100.5")); try reflexivity.
    discriminate.
  - apply Hdown; [exact H | discriminate].
Defined.

(** A flag that is up before the turn is acted on although the trade
    taken closes no window: one size is in the window of three
    afterwards, and the order has been asked for. *)
Example raised_flag_is_acted_on_without_a_window :
  requested
    (snd (iterate_exactly
            (set_market_intensity_calculator (set_flag true three_wide)
               (managing [sized "buy" "2"])))) =
    [buy_at book_of_five (JStr "100.5")] /\
  size_list
    (market_intensity_calculator
       (snd (iterate_exactly
               (set_market_intensity_calculator (set_flag true three_wide)
                  (managing [sized "buy" "2"]))))) =
    [QArith_base.inject_Z 2].
Proof. split; reflexivity. Qed.


(** ** A trade without a size *)

Section Sizeless.

Context {F : Type} (parse : string -> option F) (of_int : Z -> F)
  (neg : F -> F) (sum : list F -> F) (div : F -> Z -> F) (gt : F -> F -> bool).

Local Notation "'iteration''" := (iteration parse of_int neg sum div gt).

(** X23.  A trade that arrives without [sz] is recorded by the fetcher
    like any other, with [None] for its size, and counted.  The turn of
    the loop that takes it raises [TypeError] from [float(None)], which
    ends the loop: the trade is gone from the deque, no order is asked
    for and the calculator is as it was. *)
Theorem trade_without_size_ends_the_loop kv
    (m : MarketIntensityTradingManager F) :
  dict_get kv "sz" = None ->
  data_deque (fetcher m) = [] ->
  message_count (fetcher (received (trades_frame [JObj kv]) m)) =
    message_count (fetcher m) + 1 /\
  fst (iteration' (received (trades_frame [JObj kv]) m)) =
    inl (Builtin TypeError) /\
  data_deque (fetcher (snd (iteration' (received (trades_frame [JObj kv]) m))))
    = [] /\
  requested (snd (iteration' (received (trades_frame [JObj kv]) m))) =
    requested m /\
  market_intensity_calculator
    (snd (iteration' (received (trades_frame [JObj kv]) m))) =
    market_intensity_calculator m.
Proof.
  intros Hsz Hd. unfold received, iteration. cbn. rewrite Hsz, Hd. cbn.
  repeat split.
Qed.

End Sizeless.

(** A trade without a size on a manager with an empty deque, where the
    hypotheses of [trade_without_size_ends_the_loop] hold. *)
Lemma trade_without_size_ends_the_loop_witness :
  fst (iterate_exactly (received (trades_frame [JObj sizeless]) (managing []))) =
    inl (Builtin TypeError) /\
  requested
    (snd (iterate_exactly (received (trades_frame [JObj sizeless]) (managing []))))
    = [].
Proof.
  destruct (trade_without_size_ends_the_loop whole QArith_base.inject_Z
              QArith_base.Qopp total over exceeds sizeless (managing [])
              eq_refl eq_refl) as (_ & Hraise & _ & Hreq & _).
  split; [exact Hraise | exact Hreq].
Defined.

(** ** Waiting for the acknowledgment *)

(** X24.  With an open connection and nothing in the mailbox of the
    order, [process_order] sends the order and then waits for a message:
    there is no timeout on that wait.  Until the consumer puts a message
    on the mailbox the task has not completed, so nothing else is sent,
    the order stays ['pending'] and its entry in [order_tasks] stays. *)
Theorem process_order_waits_for_acknowledgment http c sym sd px sz ot s o :
  private_websocket (self s) = Some Open ->
  orders (self s) !! c = Some o ->
  message_queue o = [] ->
  process_order http c sym sd px sz ot s =
    (Blocked,
     St (self s)
        (trace s ++
           [ESend (order_param (user_id (self s)) c sym sd px sz ot);
            ELog INFO "Sent limit order"])).
Proof.
  intros Hws Ho Hq. destruct s as [t tr]. cbn in *.
  unfold process_order, submit_order, queue_get. run_task. cbn.
  rewrite Hws. cbn. rewrite Ho, Hq. cbn. rewrite <- app_assoc. reflexivity.
Qed.

(** The order ["a"] just placed, where the hypotheses of
    [process_order_waits_for_acknowledgment] hold: the task waits and
    keeps its entry. *)
Lemma process_order_waits_for_acknowledgment_witness :
  fst (process_order unreachable_oracle "a" "BTC-USDT" "buy" (JStr "100.5")
         (JStr "0.001") "post_only" one_order) = Blocked /\
  order_tasks
    (self (snd (process_order unreachable_oracle "a" "BTC-USDT" "buy"
                  (JStr "100.5") (JStr "0.001") "post_only" one_order))) =
    order_tasks (self one_order).
Proof.
  assert (Ho : orders (self one_order) !! "a" = Some (order_a []))
    by (vm_compute; reflexivity).
  rewrite (process_order_waits_for_acknowledgment unreachable_oracle "a"
             "BTC-USDT" "buy" (JStr "100.5") (JStr "0.001") "post_only"
             one_order (order_a []) eq_refl Ho eq_refl).
  split; reflexivity.
Defined.
